(** * TFD market helper: extraction controller, record stores, faceted
      query engine and filter profiles

    A shallow embedding of the JavaScript sources

      - [main.js]   ([runSearch]: setup, poll/scroll/parse loop, dedup,
                     stability and zero-result timeout, final snapshot),
      - [helper.js] ([parseAgeToHours], [updateResults], [appendModules],
                     [profileManager]),

    followed by the properties established about them.

    Conventions of the embedding.
      - JavaScript strings are [string]s (sequences of bytes); case folding
        and white space are the ASCII ones.
      - JavaScript numbers are exact rationals [Q]; [null], [undefined] or
        [NaN] in a numeric slot is [None].  Rounding of IEEE doubles is not
        modelled.
      - Objects used as dictionaries whose key order is observable (they are
        serialised or enumerated) are association lists; those only read by
        key are [gmap]s; the [Set] of identity keys is a [gset].
      - What the outside world answers (the page surface, the clock, the hub
        window) is an argument of the functions that consult it. *)

From Stdlib Require Import Bool ZArith QArith List String Ascii Lia.
From stdpp Require Import gmap strings.
Import ListNotations.

Local Open Scope string_scope.
Local Open Scope Z_scope.

(* ===================================================================== *)
(** * Strings                                                             *)
(* ===================================================================== *)

Module Str.

Definition isDigit (a : ascii) : bool :=
  let n := nat_of_ascii a in (48 <=? n)%nat && (n <=? 57)%nat.

(** [\s], restricted to ASCII: tab, LF, VT, FF, CR and space. *)
Definition isSpace (a : ascii) : bool :=
  let n := nat_of_ascii a in ((9 <=? n)%nat && (n <=? 13)%nat) || (n =? 32)%nat.

Definition isUpper (a : ascii) : bool :=
  let n := nat_of_ascii a in (65 <=? n)%nat && (n <=? 90)%nat.

Definition lowerChar (a : ascii) : ascii :=
  if isUpper a then ascii_of_nat (nat_of_ascii a + 32) else a.

(** [s.toLowerCase()] *)
Fixpoint toLowerCase (s : string) : string :=
  match s with
  | EmptyString => EmptyString
  | String a s' => String (lowerChar a) (toLowerCase s')
  end.

(** [s.startsWith(p)] *)
Fixpoint startsWith (p s : string) : bool :=
  match p, s with
  | EmptyString, _ => true
  | String a p', String b s' => Ascii.eqb a b && startsWith p' s'
  | String _ _, EmptyString => false
  end.

(** The rest of [s] after the prefix [p], when [s] starts with [p]. *)
Fixpoint stripPrefix (p s : string) : option string :=
  match p, s with
  | EmptyString, _ => Some s
  | String a p', String b s' =>
      if Ascii.eqb a b then stripPrefix p' s' else None
  | String _ _, EmptyString => None
  end.

(** [s.includes(sub)] *)
Fixpoint includes (sub s : string) : bool :=
  startsWith sub s ||
  match s with
  | EmptyString => false
  | String _ s' => includes sub s'
  end.

(** [s.slice(0, n)] *)
Fixpoint take (n : nat) (s : string) : string :=
  match n, s with
  | S n', String a s' => String a (take n' s')
  | _, _ => EmptyString
  end.

Fixpoint dropWhile (p : ascii -> bool) (s : string) : string :=
  match s with
  | String a s' => if p a then dropWhile p s' else s
  | EmptyString => EmptyString
  end.

Fixpoint rev_acc (s acc : string) : string :=
  match s with
  | EmptyString => acc
  | String a s' => rev_acc s' (String a acc)
  end.

Definition rev (s : string) : string := rev_acc s EmptyString.

(** [s.trim()] *)
Definition trim (s : string) : string :=
  rev (dropWhile isSpace (rev (dropWhile isSpace s))).

(** [s.replace(/[^...]/g, '')]: keep the characters of a class. *)
Fixpoint keep (p : ascii -> bool) (s : string) : string :=
  match s with
  | EmptyString => EmptyString
  | String a s' => if p a then String a (keep p s') else keep p s'
  end.

Definition isEmpty (s : string) : bool :=
  match s with EmptyString => true | _ => false end.

Fixpoint all (p : ascii -> bool) (s : string) : bool :=
  match s with
  | EmptyString => true
  | String a s' => p a && all p s'
  end.

End Str.

(* ===================================================================== *)
(** * Numbers read from text                                              *)
(* ===================================================================== *)

Module Num.

Definition digitVal (a : ascii) : N := N.of_nat (nat_of_ascii a - 48).

(** Value of a run of decimal digits, most significant first. *)
Fixpoint digitsFrom (acc : N) (s : string) : N :=
  match s with
  | EmptyString => acc
  | String a s' => digitsFrom (10 * acc + digitVal a) s'
  end.

Definition digitsValue (s : string) : N := digitsFrom 0 s.

Fixpoint pow10 (n : nat) : positive :=
  match n with
  | O => 1%positive
  | S n' => (10 * pow10 n')%positive
  end.

(** The number written [ip.fp] (integer part, fraction part; [fp] possibly
    empty). *)
Definition decimal (ip fp : string) : Q :=
  Qmake (Z.of_N (digitsValue (ip ++ fp))) (pow10 (String.length fp)).

(** Longest prefix of [s] made of characters of class [p], and the rest. *)
Fixpoint span (p : ascii -> bool) (s : string) : string * string :=
  match s with
  | String a s' =>
      if p a then let '(x, r) := span p s' in (String a x, r)
      else (EmptyString, s)
  | EmptyString => (EmptyString, EmptyString)
  end.

(** [parseFloat(s)] for the arguments the sources pass to it: text made of
    digits and dots (a price stripped by [/[^0-9.]/g], the first group of
    the age pattern).  It reads the longest prefix [digits], [digits.],
    [digits.digits] or [.digits]; [None] is [NaN]. *)
Definition parseFloat (s : string) : option Q :=
  let '(ip, r) := span Str.isDigit s in
  let fp := match r with
            | String "." r' => fst (span Str.isDigit r')
            | _ => EmptyString
            end in
  if Str.isEmpty ip && Str.isEmpty fp then None else Some (decimal ip fp).

(** [parseInt(s, 10)] for text made of digits only (a rank or reroll count
    stripped by [/[^0-9]/g]); [None] is [NaN]. *)
Definition parseInt (s : string) : option Z :=
  let '(ip, _) := span Str.isDigit s in
  if Str.isEmpty ip then None else Some (Z.of_N (digitsValue ip)).

Definition ltb (x y : Q) : bool := negb (Qle_bool y x).
Definition gtb (x y : Q) : bool := ltb y x.

End Num.

(* ===================================================================== *)
(** * Regular expressions                                                 *)
(* ===================================================================== *)

(** The fragment of JavaScript regular expressions used by the age parser,
    with the backtracking, leftmost, greedy semantics of [String.match]. *)
Module Regex.

Inductive regex : Type :=
| Lit (s : string)              (* literal text *)
| Seq (r1 r2 : regex)           (* r1 r2 *)
| Alt (r1 r2 : regex)           (* r1|r2 *)
| Opt (r : regex)               (* (?:r)? *)
| Star (p : ascii -> bool)      (* [p]* *)
| Plus (p : ascii -> bool)      (* [p]+ *)
| Grp (n : nat) (r : regex).    (* capturing group number n *)

(** Captures: group number and captured text, latest first. *)
Definition captures := list (nat * string).

Fixpoint group (n : nat) (c : captures) : string :=
  match c with
  | [] => EmptyString
  | (i, s) :: c' => if Nat.eqb i n then s else group n c'
  end.

Section Match.
Context {R : Type}.

(** Greedy [p*]: take as many characters as possible, give one back at a
    time while the continuation fails. *)
Fixpoint star (p : ascii -> bool) (s : string) (c : captures)
         (k : string -> captures -> option R) : option R :=
  match s with
  | String a s' =>
      if p a then
        match star p s' c k with
        | Some x => Some x
        | None => k s c
        end
      else k s c
  | EmptyString => k s c
  end.

Fixpoint run (r : regex) (s : string) (c : captures)
         (k : string -> captures -> option R) : option R :=
  match r with
  | Lit t =>
      match Str.stripPrefix t s with
      | Some s' => k s' c
      | None => None
      end
  | Seq r1 r2 => run r1 s c (fun s' c' => run r2 s' c' k)
  | Alt r1 r2 =>
      match run r1 s c k with
      | Some x => Some x
      | None => run r2 s c k
      end
  | Opt r1 =>
      match run r1 s c k with
      | Some x => Some x
      | None => k s c
      end
  | Star p => star p s c k
  | Plus p =>
      match s with
      | String a s' => if p a then star p s' c k else None
      | EmptyString => None
      end
  | Grp n r1 =>
      run r1 s c (fun s' c' =>
        k s' ((n, Str.take (String.length s - String.length s') s) :: c'))
  end.
End Match.

(** [s.match(r)] without the [g] flag: the captures of the leftmost match. *)
Fixpoint search (r : regex) (s : string) : option captures :=
  match run r s [] (fun _ c => Some c) with
  | Some c => Some c
  | None =>
      match s with
      | String _ s' => search r s'
      | EmptyString => None
      end
  end.

End Regex.

(* ===================================================================== *)
(** * helper.js: age parsing                                              *)
(* ===================================================================== *)

Import Regex.

(** [\d+(?:\.\d+)?] *)
Definition numberRe : regex :=
  Seq (Plus Str.isDigit) (Opt (Seq (Lit ".") (Plus Str.isDigit))).

(** [day|days|hour|hours] *)
Definition unitRe : regex :=
  Alt (Lit "day") (Alt (Lit "days") (Alt (Lit "hour") (Lit "hours"))).

(** [/(\d+(?:\.\d+)?)\s*(day|days|hour|hours)/] *)
Definition ageRe : regex :=
  Seq (Grp 1 numberRe) (Seq (Star Str.isSpace) (Grp 2 unitRe)).

(** [parseAgeToHours(str)].  The first group is digits with an optional
    fraction, so [parseFloat] of it is never [NaN]; that branch is mapped to
    [None]. *)
Definition parseAgeToHours (str : string) : option Q :=
  if Str.isEmpty str then None else
  let lower := Str.toLowerCase str in
  match search ageRe lower with
  | Some m =>
      match Num.parseFloat (group 1 m) with
      | Some val =>
          let unit := group 2 m in
          if Str.startsWith "hour" unit then Some val
          else if Str.startsWith "day" unit then Some (val * 24)%Q
          else None
      | None => None
      end
  | None => None
  end.

(** [parseAgeToDays(str)] *)
Definition parseAgeToDays (str : string) : option Q :=
  if Str.isEmpty str then None else
  let lower := Str.toLowerCase str in
  match search ageRe lower with
  | Some m =>
      match Num.parseFloat (group 1 m) with
      | Some val =>
          let unit := group 2 m in
          if Str.startsWith "day" unit then Some val
          else if Str.startsWith "hour" unit then Some (val / 24)%Q
          else None
      | None => None
      end
  | None => None
  end.

(** How a non-negative decimal numeral with integer part [ip] and fraction
    part [fp] is written: [ip], or [ip.fp] when there is a fraction. *)
Definition numeral (ip fp : string) : string :=
  if Str.isEmpty fp then ip else ip ++ "." ++ fp.

(* ===================================================================== *)
(** * Records                                                             *)
(* ===================================================================== *)

(** One line of a listing: [{ raw, positive, negative, value }]. *)
Record Stat : Type := mkStat {
  stat_raw : string;
  stat_positive : bool;
  stat_negative : bool;
  stat_value : string
}.

(** A listing as returned by the parse pass ([parseAncestor],
    [parseTrigger]), with the fields [initializeUI] and [appendModules]
    attach to it.  Every record held by the helper has gone through one of
    the two, so the numeric side fields are a number or [null]. *)
Record ModuleRecord : Type := mkModule {
  name : string;
  category : string;
  socketType : string;
  requiredRank : string;
  price : string;
  platform : string;
  rerollCount : string;
  sellerName : string;
  sellerStatus : string;
  sellerRank : string;
  regDate : string;
  attributes : list string;
  stats : list Stat;
  (* attached by the helper *)
  negAttributes : list string;
  attrValues : gmap string (option Q);
  triggerValues : gmap string (option Q);
  __mrVal : option Z;
  __rerollVal : option Z;
  __ageDays : option Q;
  __ageHours : option Q
}.

(** The thirteen extracted fields, that is the record without what the
    helper attaches. *)
Definition extracted (m : ModuleRecord) : ModuleRecord :=
  {| name := name m; category := category m; socketType := socketType m;
     requiredRank := requiredRank m; price := price m;
     platform := platform m; rerollCount := rerollCount m;
     sellerName := sellerName m; sellerStatus := sellerStatus m;
     sellerRank := sellerRank m; regDate := regDate m;
     attributes := attributes m; stats := stats m;
     negAttributes := []; attrValues := ∅; triggerValues := ∅;
     __mrVal := None; __rerollVal := None;
     __ageDays := None; __ageHours := None |}.

(** [{ min, max }] *)
Record Range : Type := mkRange {
  rmin : option Q;
  rmax : option Q
}.

(** An object keyed by attribute name, in insertion order. *)
Definition RangeTable : Type := list (string * Range).

(** [table[attr] || {}] *)
Fixpoint rangeOf (attr : string) (t : RangeTable) : Range :=
  match t with
  | [] => mkRange None None
  | (k, r) :: t' => if String.eqb k attr then r else rangeOf attr t'
  end.

(** [xs.includes(x)] on an array of strings. *)
Definition includes (x : string) (xs : list string) : bool :=
  existsb (String.eqb x) xs.

(* ===================================================================== *)
(** * helper.js: the filter state and [updateResults]                     *)
(* ===================================================================== *)

(** The module-level variables of helper.js read by [updateResults],
    together with the two DOM readings it makes (the active category
    buttons and the sort selector). *)
Record Filters : Type := mkFilters {
  activeCats : list string;
  selectedAttrs : list string;
  selectedAttrRanges : RangeTable;
  selectedSockets : list string;
  selectedPlatforms : list string;
  priceMinVal : option Q;
  priceMaxVal : option Q;
  isTriggerMode : bool;
  mrMinVal : option Z;
  mrMaxVal : option Z;
  rerollMinVal : option Z;
  rerollMaxVal : option Z;
  selectedStatuses : list string;
  ageMinVal : option Q;
  ageMaxVal : option Q;
  ageHoursMinVal : option Q;
  ageHoursMaxVal : option Q;
  sellerFilterVal : string;
  triggerAttrMap : option RangeTable;
  triggerFilterValues : RangeTable;
  selectedNegAttrs : list string;
  selectedModuleNames : list string;
  sortVal : option string
}.

(** [mod.attrValues ? mod.attrValues[attr] : null]; a missing key and a
    [null] entry are treated alike by every reader. *)
Definition attrValue (m : ModuleRecord) (attr : string) : option Q :=
  match attrValues m !! attr with
  | Some v => v
  | None => None
  end.

(** [mod.triggerValues ? mod.triggerValues[attr] : null] *)
Definition triggerValue (m : ModuleRecord) (attr : string) : option Q :=
  match triggerValues m !! attr with
  | Some v => v
  | None => None
  end.

(** Body of the loop over [selectedAttrs]: [false] where the loop sets
    [attrMatch = false] and breaks. *)
Definition attrOk (ranges : RangeTable) (m : ModuleRecord) (attr : string)
  : bool :=
  if negb (includes attr (attributes m)) then false
  else
    let range := rangeOf attr ranges in
    let val := attrValue m attr in
    let belowMin :=
      match rmin range, val with
      | Some lo, Some v => Num.ltb v lo
      | _, _ => false
      end in
    let aboveMax :=
      match rmax range, val with
      | Some hi, Some v => Num.gtb v hi
      | _, _ => false
      end in
    negb belowMin && negb aboveMax.

Definition attrMatch (f : Filters) (m : ModuleRecord) : bool :=
  forallb (attrOk (selectedAttrRanges f) m) (selectedAttrs f).

Definition catMatch (f : Filters) (m : ModuleRecord) : bool :=
  match activeCats f with
  | [] => true
  | cats => includes (category m) cats
  end.

Definition socketMatch (f : Filters) (m : ModuleRecord) : bool :=
  match selectedSockets f with
  | [] => true
  | l => includes (socketType m) l
  end.

Definition platformMatch (f : Filters) (m : ModuleRecord) : bool :=
  match selectedPlatforms f with
  | [] => true
  | l => includes (platform m) l
  end.

Definition isPriceChar (a : ascii) : bool :=
  Str.isDigit a || Ascii.eqb a ".".

(** [parseFloat((mod.price || '').replace(/[^0-9.]/g, ''))] *)
Definition priceNum (m : ModuleRecord) : option Q :=
  Num.parseFloat (Str.keep isPriceChar (price m)).

Definition priceMatch (f : Filters) (m : ModuleRecord) : bool :=
  match priceNum m with
  | None => true
  | Some p =>
      negb (match priceMinVal f with Some lo => Num.ltb p lo | None => false end)
      && negb (match priceMaxVal f with Some hi => Num.gtb p hi | None => false end)
  end.

(** [bound !== null] and ([v === null || v < bound]): the record fails a
    lower bound; integer slots. *)
Definition failsMinZ (bound v : option Z) : bool :=
  match bound with
  | None => false
  | Some lo => match v with None => true | Some x => x <? lo end
  end.

Definition failsMaxZ (bound v : option Z) : bool :=
  match bound with
  | None => false
  | Some hi => match v with None => true | Some x => hi <? x end
  end.

Definition failsMinQ (bound v : option Q) : bool :=
  match bound with
  | None => false
  | Some lo => match v with None => true | Some x => Num.ltb x lo end
  end.

Definition failsMaxQ (bound v : option Q) : bool :=
  match bound with
  | None => false
  | Some hi => match v with None => true | Some x => Num.gtb x hi end
  end.

Definition mrMatch (f : Filters) (m : ModuleRecord) : bool :=
  if negb (isTriggerMode f) then
    negb (failsMinZ (mrMinVal f) (__mrVal m))
    && negb (failsMaxZ (mrMaxVal f) (__mrVal m))
  else true.

Definition rerollMatch (f : Filters) (m : ModuleRecord) : bool :=
  if negb (isTriggerMode f) then
    negb (failsMinZ (rerollMinVal f) (__rerollVal m))
    && negb (failsMaxZ (rerollMaxVal f) (__rerollVal m))
  else true.

Definition statusMatch (f : Filters) (m : ModuleRecord) : bool :=
  match selectedStatuses f with
  | [] => true
  | l =>
      let currentStatus := Str.toLowerCase (sellerStatus m) in
      existsb (fun s => String.eqb (Str.toLowerCase s) currentStatus) l
  end.

Definition ageMatch (f : Filters) (m : ModuleRecord) : bool :=
  negb (failsMinQ (ageMinVal f) (__ageDays m))
  && negb (failsMaxQ (ageMaxVal f) (__ageDays m)).

Definition ageHoursMatch (f : Filters) (m : ModuleRecord) : bool :=
  negb (failsMinQ (ageHoursMinVal f) (__ageHours m))
  && negb (failsMaxQ (ageHoursMaxVal f) (__ageHours m)).

Definition sellerMatch (f : Filters) (m : ModuleRecord) : bool :=
  if Str.isEmpty (sellerFilterVal f) then true
  else Str.includes (sellerFilterVal f) (Str.toLowerCase (sellerName m)).

(** Body of the [for (const attr in triggerFilterValues)] loop. *)
Definition triggerOk (m : ModuleRecord) (entry : string * Range) : bool :=
  let '(attr, filters) := entry in
  let value := triggerValue m attr in
  negb (failsMinQ (rmin filters) value)
  && negb (failsMaxQ (rmax filters) value).

Definition triggerMatch (f : Filters) (m : ModuleRecord) : bool :=
  match isTriggerMode f, triggerAttrMap f with
  | true, Some _ => forallb (triggerOk m) (triggerFilterValues f)
  | _, _ => true
  end.

Definition negFilterMatch (f : Filters) (m : ModuleRecord) : bool :=
  negb (existsb (fun attr => includes attr (negAttributes m))
                (selectedNegAttrs f)).

Definition moduleMatch (f : Filters) (m : ModuleRecord) : bool :=
  match isTriggerMode f, selectedModuleNames f with
  | false, (_ :: _) as l => includes (name m) l
  | _, _ => true
  end.

(** The predicate given to [modules.filter] in [updateResults]. *)
Definition passes (f : Filters) (m : ModuleRecord) : bool :=
  catMatch f m && attrMatch f m && socketMatch f m && platformMatch f m
  && priceMatch f m && mrMatch f m && rerollMatch f m && statusMatch f m
  && ageMatch f m && ageHoursMatch f m && triggerMatch f m
  && negFilterMatch f m && sellerMatch f m && moduleMatch f m.

(** [filtered] in [updateResults]: the records shown, before they are
    sorted by the selected key. *)
Definition filtered (f : Filters) (modules : list ModuleRecord)
  : list ModuleRecord :=
  List.filter (passes f) modules.

(* ===================================================================== *)
(** * helper.js: [appendModules]                                          *)
(* ===================================================================== *)

(** [parseInt(mod.requiredRank.toString().replace(/[^0-9]/g, ''), 10)] when
    the rank is not empty. *)
Definition deriveMr (m : ModuleRecord) : option Z :=
  if Str.isEmpty (requiredRank m) then None
  else Num.parseInt (Str.keep Str.isDigit (requiredRank m)).

(** Reroll count: ["-"] or blank is 0. *)
Definition deriveReroll (m : ModuleRecord) : option Z :=
  if Str.isEmpty (rerollCount m) then None
  else
    let cleaned := Str.trim (rerollCount m) in
    if String.eqb cleaned "-" || Str.isEmpty cleaned then Some 0
    else Num.parseInt (Str.keep Str.isDigit cleaned).

Section Store.

(** What [appendModules] works out from the [stats] of a record and leaves
    on it (negative attribute names, one value per attribute, one value per
    trigger option), and the schema tables it keeps beside the records
    ([negAttributes], [attrRangeMap], [triggerAttrMap], the keys of
    [triggerFilterValues]).  The identity check does not depend on them. *)
Variable negAttrsOf : ModuleRecord -> list string.
Variable attrValuesOf : ModuleRecord -> gmap string (option Q).
Variable triggerValuesOf : ModuleRecord -> gmap string (option Q).
Variable Schema : Type.
Variable learn : Schema -> ModuleRecord -> Schema.

(** The fields [appendModules] sets on a record before pushing it;
    [trigger] is [isTriggerMode]. *)
Definition annotate (trigger : bool) (m : ModuleRecord) : ModuleRecord :=
  {| name := name m; category := category m; socketType := socketType m;
     requiredRank := requiredRank m; price := price m;
     platform := platform m; rerollCount := rerollCount m;
     sellerName := sellerName m; sellerStatus := sellerStatus m;
     sellerRank := sellerRank m; regDate := regDate m;
     attributes := attributes m; stats := stats m;
     negAttributes := negAttrsOf m;
     attrValues := attrValuesOf m;
     triggerValues :=
       if trigger then triggerValuesOf m else triggerValues m;
     __mrVal := deriveMr m;
     __rerollVal := deriveReroll m;
     __ageDays := parseAgeToDays (regDate m);
     __ageHours := parseAgeToHours (regDate m) |}.

(** The helper's record store: the [modules] array and the schema tables. *)
Record Store : Type := mkStore {
  modules : list ModuleRecord;
  schema : Schema
}.

(** [m.name === mod.name && m.price === mod.price &&
     m.sellerName === mod.sellerName] *)
Definition sameListing (a b : ModuleRecord) : bool :=
  String.eqb (name a) (name b) && String.eqb (price a) (price b)
  && String.eqb (sellerName a) (sellerName b).

(** Body of [newData.forEach] in [appendModules]. *)
Definition appendModule (trigger : bool) (s : Store) (m : ModuleRecord)
  : Store :=
  if Str.isEmpty (name m) then s
  else if existsb (fun x => sameListing x m) (modules s) then s
  else
    let m' := annotate trigger m in
    {| modules := modules s ++ [m']; schema := learn (schema s) m' |}.

(** [appendModules(newData)], up to the re-rendering it triggers. *)
Definition appendModules (trigger : bool) (s : Store)
           (newData : list ModuleRecord) : Store :=
  fold_left (appendModule trigger) newData s.

End Store.

Arguments mkStore {Schema} modules schema.
Arguments modules {Schema} s.
Arguments schema {Schema} s.
Arguments appendModule negAttrsOf attrValuesOf triggerValuesOf {Schema}
  learn trigger s m.
Arguments appendModules negAttrsOf attrValuesOf triggerValuesOf {Schema}
  learn trigger s newData.

(* ===================================================================== *)
(** * main.js: [runSearch]                                                *)
(* ===================================================================== *)

(** Result of an awaited call on the page surface: it resolves, or it
    rejects with an error whose [message] is given. *)
Inductive Outcome (A : Type) : Type :=
| Ok (a : A)
| Throw (message : string).

Arguments Ok {A} a.
Arguments Throw {A} message.

(** The [modules] property of what [JSON.parse] returned. *)
Inductive ModulesField : Type :=
| Absent                             (* falsy: the property is missing *)
| Items (ms : list ModuleRecord)     (* an array of listings *)
| Malformed (message : string).      (* truthy, but walking it raises *)

(** [parsedResult]; a [null] result reads as the record with nothing in
    it.  [itemCount] is 0 when the property is missing or falsy. *)
Record ParseResult : Type := mkParse {
  pr_modules : ModulesField;
  pr_itemCount : Z;
  pr_loaderVisible : bool
}.

(** What the world answers during one iteration of the loop:
    - [parse]: running the parse script and [JSON.parse] on its output;
    - [hub]: [mainWindow && !mainWindow.isDestroyed()] in that iteration;
    - [elapsed]: [Date.now() - zeroStart] at the timeout check;
    - [scroll]: the scroll injection. *)
Record Poll : Type := mkPoll {
  parse : Outcome ParseResult;
  hub : bool;
  elapsed : Z;
  scroll : Outcome unit
}.

(** Messages to the renderer.  [searchId] and [moduleType] are the same in
    every message of one search and are left out. *)
Inductive Event : Type :=
| SearchProgress (stage : string)
| SearchUpdated (data : list ModuleRecord) (finished : bool)
                (error : option string).

(** [searches[id]] as far as [runSearch] writes it. *)
Record Entry : Type := mkEntry {
  running : bool;
  entryData : list ModuleRecord;
  windowClosed : bool
}.

(** Everything [runSearch] has done so far: the entry, the messages sent
    (oldest first) and the number of parse passes run. *)
Record World : Type := mkWorld {
  entry : Entry;
  events : list Event;
  polls : nat
}.

Definition send (ev : Event) (w : World) : World :=
  {| entry := entry w; events := events w ++ [ev]; polls := polls w |}.

(** A send guarded by [mainWindow && !mainWindow.isDestroyed()]. *)
Definition sendIf (alive : bool) (ev : Event) (w : World) : World :=
  if alive then send ev w else w.

Definition setEntry (e : Entry) (w : World) : World :=
  {| entry := e; events := events w; polls := polls w |}.

(** The variables of the loop. *)
Record LoopState : Type := mkLoop {
  seen : gset string;
  deduped : list ModuleRecord;
  lastCount : Z;
  stable : nat
}.

Definition maxIterations : nat := 60.

(** [`${mod.name}|${mod.price}|${mod.sellerName}`] *)
Definition key (m : ModuleRecord) : string :=
  name m ++ "|" ++ price m ++ "|" ++ sellerName m.

(** Body of [for (const mod of parsedResult.modules)]. *)
Definition mergeModule (st : LoopState) (m : ModuleRecord) : LoopState :=
  if bool_decide (key m ∈ seen st) then st
  else {| seen := {[ key m ]} ∪ seen st;
          deduped := deduped st ++ [m];
          lastCount := lastCount st;
          stable := stable st |}.

Definition mergeModules (st : LoopState) (ms : list ModuleRecord)
  : LoopState :=
  fold_left mergeModule ms st.

(** The list sent to the renderer: [deduped], or its records whose name
    contains the trimmed, lower-cased [filters.moduleName]. *)
Definition nameFilter (moduleName : string) (l : list ModuleRecord)
  : list ModuleRecord :=
  let mName := Str.toLowerCase (Str.trim moduleName) in
  if Str.isEmpty mName then l
  else List.filter
         (fun m => negb (Str.isEmpty (name m))
                   && Str.includes mName (Str.toLowerCase (name m))) l.

(** Message of the error raised by a send to a hub window that is gone. *)
Definition destroyedMessage : string := "Object has been destroyed".

(** [entry.data = filtered] *)
Definition recordBatch (shown : list ModuleRecord) (w : World) : World :=
  setEntry {| running := running (entry w);
              entryData := shown;
              windowClosed := windowClosed (entry w) |} w.

(** Lines 519-537: merge the batch, record it on the entry and send the
    incremental snapshot (this send is not guarded).  [inl] is an exception
    on its way to the outer [catch]. *)
Definition processBatch (moduleName : string) (p : Poll) (r : ParseResult)
           (st : LoopState) (w : World)
  : string * World + LoopState * World :=
  match pr_modules r with
  | Absent => inr (st, w)
  | Malformed message => inl (message, w)
  | Items ms =>
      let st' := mergeModules st ms in
      let shown := nameFilter moduleName (deduped st') in
      let w' := recordBatch shown w in
      if hub p then inr (st', send (SearchUpdated shown false None) w')
      else inl (destroyedMessage, w')
  end.

(** Lines 539-545: the stability counter. *)
Definition updateStability (count : Z) (st : LoopState) : LoopState :=
  if count =? lastCount st then
    {| seen := seen st; deduped := deduped st;
       lastCount := lastCount st; stable := S (stable st) |}
  else
    {| seen := seen st; deduped := deduped st;
       lastCount := count; stable := 0 |}.

(** Lines 546-550: [stable >= 3 && !(parsedResult &&
    parsedResult.loaderVisible)], on the state after the stability
    update. *)
Definition stableExit (r : ParseResult) (st : LoopState) : bool :=
  (3 <=? stable st)%nat && negb (pr_loaderVisible r).

(** Line 555: [deduped.length === 0 && (Date.now() - zeroStart) > 30000]
    ([zeroTimeoutTriggered] is still [false] whenever this is reached). *)
Definition zeroTimedOut (p : Poll) (st : LoopState) : bool :=
  match deduped st with [] => true | _ :: _ => false end
  && (30000 <? elapsed p).

(** Lines 555-569: the zero-result timeout. *)
Definition timeOut (p : Poll) (w : World) : World :=
  sendIf (hub p) (SearchUpdated [] true (Some "timeout"))
    (setEntry {| running := false;
                 entryData := entryData (entry w);
                 windowClosed := true |} w).

(** How the loop is left. *)
Inductive Exit : Type :=
| Finalize (alive : bool)              (* [break], or [i] reached the cap *)
| Returned                             (* [return] after the timeout *)
| Raised (message : string) (alive : bool).  (* to the outer [catch] *)

Definition countPoll (w : World) : World :=
  {| entry := entry w; events := events w; polls := S (polls w) |}.

(** [for (let i = 0; i < maxIterations; i++) { ... }], started at iteration
    [i] with [fuel = maxIterations - i] iterations left.  [alive] in the
    exit is the state of the hub window read by the guard that follows: that
    of the iteration where the loop is left, or, when the cap is reached,
    that of the next reading of the world. *)
Fixpoint pollLoop (moduleName : string) (env : nat -> Poll) (fuel i : nat)
         (st : LoopState) (w : World) : Exit * LoopState * World :=
  match fuel with
  | O => (Finalize (hub (env i)), st, w)
  | S fuel' =>
      let p := env i in
      let w := countPoll w in
      match parse p with
      | Throw _ => (Finalize (hub p), st, w)
      | Ok r =>
          match processBatch moduleName p r st w with
          | inl (message, w1) => (Raised message (hub p), st, w1)
          | inr (st1, w1) =>
              let st2 := updateStability (pr_itemCount r) st1 in
              if stableExit r st2 then (Finalize (hub p), st2, w1)
              else if zeroTimedOut p st2 then (Returned, st2, timeOut p w1)
              else
                match scroll p with
                | Throw message => (Raised message (hub p), st2, w1)
                | Ok _ => pollLoop moduleName env fuel' (S i) st2 w1
                end
          end
      end
  end.

Definition initLoop : LoopState :=
  {| seen := ∅; deduped := []; lastCount := 0; stable := 0 |}.

(** Lines 579-595: the final snapshot. *)
Definition finalize (moduleName : string) (alive : bool) (st : LoopState)
           (w : World) : World :=
  sendIf alive (SearchUpdated (nameFilter moduleName (deduped st)) true None)
    (setEntry {| running := false;
                 entryData := deduped st;
                 windowClosed := windowClosed (entry w) |} w).

(** Lines 596-604: the outer [catch]. *)
Definition catch (message : string) (alive : bool) (w : World) : World :=
  sendIf alive (SearchUpdated [] true (Some message))
    (setEntry {| running := false;
                 entryData := entryData (entry w);
                 windowClosed := windowClosed (entry w) |} w).

(** What follows the loop, by the way it was left: the final snapshot
    after a [break] or the cap, nothing after the [return] of the timeout,
    the outer [catch] after an exception. *)
Definition finish (moduleName : string) (out : Exit * LoopState * World)
  : World :=
  match out with
  | (Finalize alive, st, w) => finalize moduleName alive st w
  | (Returned, _, w) => w
  | (Raised message alive, _, w) => catch message alive w
  end.

(** The polling part of [runSearch] (lines 502-604), from a given world. *)
Definition polling (moduleName : string) (env : nat -> Poll) (w : World)
  : World :=
  finish moduleName (pollLoop moduleName env maxIterations 0 initLoop w).

(** The three injected setup actions and the state of the hub window while
    they run. *)
Record Setup : Type := mkSetup {
  selectModuleType : Outcome unit;
  enterSearch : Outcome unit;
  selectPlatform : Outcome unit;
  hubDuringSetup : bool
}.

Definition startWorld : World :=
  {| entry := {| running := true; entryData := []; windowClosed := false |};
     events := []; polls := 0 |}.

(** [runSearch(id)] for an existing search with [filters.moduleName]. *)
Definition runSearch (moduleName : string) (su : Setup) (env : nat -> Poll)
  : World :=
  let alive := hubDuringSetup su in
  match selectModuleType su with
  | Throw message => catch message alive startWorld
  | Ok _ =>
      match enterSearch su with
      | Throw message => catch message alive startWorld
      | Ok _ =>
          let w1 := sendIf alive (SearchProgress "enterName") startWorld in
          match selectPlatform su with
          | Throw message => catch message alive w1
          | Ok _ =>
              let w2 := sendIf alive (SearchProgress "setPlatform") w1 in
              let w3 := sendIf alive (SearchProgress "waiting") w2 in
              polling moduleName env w3
          end
      end
  end.

(* ===================================================================== *)
(** * helper.js: [profileManager]                                         *)
(* ===================================================================== *)

(** The object built by [getState] and stored as a profile. *)
Record ProfileState : Type := mkProfile {
  priceMin : option Q;
  priceMax : option Q;
  mrMin : option Z;
  mrMax : option Z;
  rerollMin : option Z;
  rerollMax : option Z;
  ageMin : option Q;
  ageMax : option Q;
  ageHoursMin : option Q;
  ageHoursMax : option Q;
  seller : string;
  statuses : list string;
  attributes_ : list string;
  attributeRanges : RangeTable;
  negAttributes_ : list string;
  moduleNames : list string;
  triggerFilters : option RangeTable;
  sort : option string
}.

(** [getState()] *)
Definition getState (f : Filters) : ProfileState :=
  {| priceMin := priceMinVal f;
     priceMax := priceMaxVal f;
     mrMin := mrMinVal f;
     mrMax := mrMaxVal f;
     rerollMin := rerollMinVal f;
     rerollMax := rerollMaxVal f;
     ageMin := ageMinVal f;
     ageMax := ageMaxVal f;
     ageHoursMin := ageHoursMinVal f;
     ageHoursMax := ageHoursMaxVal f;
     seller := sellerFilterVal f;
     statuses := selectedStatuses f;
     attributes_ := selectedAttrs f;
     attributeRanges := selectedAttrRanges f;
     negAttributes_ := selectedNegAttrs f;
     moduleNames := selectedModuleNames f;
     triggerFilters :=
       if isTriggerMode f then Some (triggerFilterValues f) else None;
     sort := sortVal f |}.

(** [state.sort] is truthy. *)
Definition truthy (s : option string) : bool :=
  match s with
  | Some t => negb (Str.isEmpty t)
  | None => false
  end.

(** How a call ends: it returns, or an exception escapes it. *)
Inductive Ending : Type :=
| Returns
| Throws (error : string).

(** [ReferenceError], raised where a name is read that no scope binds. *)
Definition referenceError : string := "ReferenceError".

(** [applyState(state)]: the filter variables and the sort selector after
    its assignments (1682-1752), and how it ends.  The chips are not
    rendered again (1754-1762): [typeof renderSelected] and the like are
    not ['function'] there.  The statement [updateResults()] (1784) reads
    a name that [initializeUI] binds for its own body only (999), and
    [applyState] is a method of [profileManager], declared beside
    [initializeUI] (1612): the call raises [ReferenceError], and the
    assignment to [currentProfileState] after it (1786) is not reached. *)
Definition applyState (state : ProfileState) (f : Filters)
  : Filters * Ending :=
  let trigger := isTriggerMode f in
  ({| activeCats := activeCats f;
      selectedAttrs := attributes_ state;
      selectedAttrRanges := attributeRanges state;
      selectedSockets := selectedSockets f;
      selectedPlatforms := selectedPlatforms f;
      priceMinVal := priceMin state;
      priceMaxVal := priceMax state;
      isTriggerMode := trigger;
      mrMinVal := if trigger then mrMinVal f else mrMin state;
      mrMaxVal := if trigger then mrMaxVal f else mrMax state;
      rerollMinVal := if trigger then rerollMinVal f else rerollMin state;
      rerollMaxVal := if trigger then rerollMaxVal f else rerollMax state;
      selectedStatuses := statuses state;
      ageMinVal := ageMin state;
      ageMaxVal := ageMax state;
      ageHoursMinVal := ageHoursMin state;
      ageHoursMaxVal := ageHoursMax state;
      sellerFilterVal := seller state;
      triggerAttrMap := triggerAttrMap f;
      triggerFilterValues :=
        if trigger then
          match triggerFilters state with
          | Some t => t
          | None => []
          end
        else [];
      selectedNegAttrs := negAttributes_ state;
      selectedModuleNames := moduleNames state;
      sortVal := if truthy (sort state) then sort state else sortVal f |},
   Throws referenceError).

(** Equality of what [JSON.stringify] prints, slot by slot: numbers by
    value, text and the order of keys and elements literally. *)
Definition optEqb {A : Type} (eqb : A -> A -> bool) (x y : option A) : bool :=
  match x, y with
  | Some a, Some b => eqb a b
  | None, None => true
  | _, _ => false
  end.

Fixpoint listEqb {A : Type} (eqb : A -> A -> bool) (x y : list A) : bool :=
  match x, y with
  | [], [] => true
  | a :: x', b :: y' => eqb a b && listEqb eqb x' y'
  | _, _ => false
  end.

Definition rangeEqb (a b : Range) : bool :=
  optEqb Qeq_bool (rmin a) (rmin b) && optEqb Qeq_bool (rmax a) (rmax b).

Definition tableEqb (a b : RangeTable) : bool :=
  listEqb (fun x y => String.eqb (fst x) (fst y) && rangeEqb (snd x) (snd y))
          a b.

Definition sameJson (a b : ProfileState) : bool :=
  optEqb Qeq_bool (priceMin a) (priceMin b)
  && optEqb Qeq_bool (priceMax a) (priceMax b)
  && optEqb Z.eqb (mrMin a) (mrMin b)
  && optEqb Z.eqb (mrMax a) (mrMax b)
  && optEqb Z.eqb (rerollMin a) (rerollMin b)
  && optEqb Z.eqb (rerollMax a) (rerollMax b)
  && optEqb Qeq_bool (ageMin a) (ageMin b)
  && optEqb Qeq_bool (ageMax a) (ageMax b)
  && optEqb Qeq_bool (ageHoursMin a) (ageHoursMin b)
  && optEqb Qeq_bool (ageHoursMax a) (ageHoursMax b)
  && String.eqb (seller a) (seller b)
  && listEqb String.eqb (statuses a) (statuses b)
  && listEqb String.eqb (attributes_ a) (attributes_ b)
  && tableEqb (attributeRanges a) (attributeRanges b)
  && listEqb String.eqb (negAttributes_ a) (negAttributes_ b)
  && listEqb String.eqb (moduleNames a) (moduleNames b)
  && optEqb tableEqb (triggerFilters a) (triggerFilters b)
  && optEqb String.eqb (sort a) (sort b).

(** [isCurrentStateDirty()]:
    [JSON.stringify(cur) !== JSON.stringify(saved)], where [saved] is
    [currentProfileState || null]. *)
Definition isCurrentStateDirty (f : Filters) (saved : option ProfileState)
  : bool :=
  match saved with
  | Some s => negb (sameJson (getState f) s)
  | None => true
  end.

Definition isSet {A : Type} (x : option A) : bool :=
  match x with Some _ => true | None => false end.

Definition nonEmpty {A : Type} (l : list A) : bool :=
  match l with [] => false | _ => true end.

(** [hasAnyFilterSet()] *)
Definition hasAnyFilterSet (f : Filters) : bool :=
  let state := getState f in
  isSet (priceMin state) || isSet (priceMax state)
  || (negb (isTriggerMode f)
      && (isSet (mrMin state) || isSet (mrMax state)
          || isSet (rerollMin state) || isSet (rerollMax state)))
  || isSet (ageMin state) || isSet (ageMax state)
  || isSet (ageHoursMin state) || isSet (ageHoursMax state)
  || negb (Str.isEmpty (Str.trim (seller state)))
  || nonEmpty (statuses state)
  || nonEmpty (attributes_ state)
  || nonEmpty (negAttributes_ state)
  || nonEmpty (moduleNames state)
  || (isTriggerMode f
      && match triggerFilters state with
         | Some t =>
             existsb (fun e => isSet (rmin (snd e)) || isSet (rmax (snd e))) t
         | None => false
         end).

(** The profile manager: the value of the profile selector and the state
    remembered for the selected profile. *)
Record Manager : Type := mkManager {
  selected : string;
  currentProfileState : option ProfileState
}.

(** [updateButtons()]: whether it leaves the save button enabled
    ([!saveBtn.disabled]). *)
Definition saveEnabled (pm : Manager) (f : Filters) : bool :=
  if negb (Str.isEmpty (selected pm)) then
    isCurrentStateDirty f (currentProfileState pm)
  else hasAnyFilterSet f.

(** The filter variables right after [initializeUI]: nothing selected, no
    bound set, sort on price, highest first. *)
Definition neutral (trigger : bool) (tam : option RangeTable) : Filters :=
  {| activeCats := []; selectedAttrs := []; selectedAttrRanges := [];
     selectedSockets := []; selectedPlatforms := [];
     priceMinVal := None; priceMaxVal := None;
     isTriggerMode := trigger;
     mrMinVal := None; mrMaxVal := None;
     rerollMinVal := None; rerollMaxVal := None;
     selectedStatuses := [];
     ageMinVal := None; ageMaxVal := None;
     ageHoursMinVal := None; ageHoursMaxVal := None;
     sellerFilterVal := "";
     triggerAttrMap := tam; triggerFilterValues := [];
     selectedNegAttrs := []; selectedModuleNames := [];
     sortVal := Some "priceDesc" |}.

(** The four input handlers of the rank and reroll bounds: the filter
    state with [mrMinVal], [mrMaxVal], [rerollMinVal] and [rerollMaxVal]
    replaced and every other variable left as it is. *)
Definition withRankFilters (mrLo mrHi rerollLo rerollHi : option Z)
           (f : Filters) : Filters :=
  {| activeCats := activeCats f;
     selectedAttrs := selectedAttrs f;
     selectedAttrRanges := selectedAttrRanges f;
     selectedSockets := selectedSockets f;
     selectedPlatforms := selectedPlatforms f;
     priceMinVal := priceMinVal f;
     priceMaxVal := priceMaxVal f;
     isTriggerMode := isTriggerMode f;
     mrMinVal := mrLo;
     mrMaxVal := mrHi;
     rerollMinVal := rerollLo;
     rerollMaxVal := rerollHi;
     selectedStatuses := selectedStatuses f;
     ageMinVal := ageMinVal f;
     ageMaxVal := ageMaxVal f;
     ageHoursMinVal := ageHoursMinVal f;
     ageHoursMaxVal := ageHoursMaxVal f;
     sellerFilterVal := sellerFilterVal f;
     triggerAttrMap := triggerAttrMap f;
     triggerFilterValues := triggerFilterValues f;
     selectedNegAttrs := selectedNegAttrs f;
     selectedModuleNames := selectedModuleNames f;
     sortVal := sortVal f |}.

(** The attribute chips: [selectedAttrs] and [selectedAttrRanges] replaced,
    every other variable left as it is. *)
Definition withAttrs (attrs : list string) (ranges : RangeTable)
           (f : Filters) : Filters :=
  {| activeCats := activeCats f;
     selectedAttrs := attrs;
     selectedAttrRanges := ranges;
     selectedSockets := selectedSockets f;
     selectedPlatforms := selectedPlatforms f;
     priceMinVal := priceMinVal f;
     priceMaxVal := priceMaxVal f;
     isTriggerMode := isTriggerMode f;
     mrMinVal := mrMinVal f;
     mrMaxVal := mrMaxVal f;
     rerollMinVal := rerollMinVal f;
     rerollMaxVal := rerollMaxVal f;
     selectedStatuses := selectedStatuses f;
     ageMinVal := ageMinVal f;
     ageMaxVal := ageMaxVal f;
     ageHoursMinVal := ageHoursMinVal f;
     ageHoursMaxVal := ageHoursMaxVal f;
     sellerFilterVal := sellerFilterVal f;
     triggerAttrMap := triggerAttrMap f;
     triggerFilterValues := triggerFilterValues f;
     selectedNegAttrs := selectedNegAttrs f;
     selectedModuleNames := selectedModuleNames f;
     sortVal := sortVal f |}.

(** A listing with the given name, attribute names and parsed attribute
    values, everything else blank; used in examples. *)
Definition listing (nm : string) (attrs : list string)
           (vals : gmap string (option Q)) : ModuleRecord :=
  {| name := nm; category := "Ancestors"; socketType := "";
     requiredRank := ""; price := ""; platform := ""; rerollCount := "";
     sellerName := ""; sellerStatus := ""; sellerRank := ""; regDate := "";
     attributes := attrs; stats := [];
     negAttributes := []; attrValues := vals; triggerValues := ∅;
     __mrVal := None; __rerollVal := None;
     __ageDays := None; __ageHours := None |}.

(** The neutral ancestor-mode state with the single chip ["Power"] and a
    range typed into it; used in examples. *)
Definition powerOnly (range : Range) : Filters :=
  withAttrs ["Power"] [("Power", range)] (neutral false None).

(** The two halves of the loop's record store agree: no key occurs twice
    in [deduped], and [seen] holds exactly the keys of [deduped].  It holds
    at the start of the loop and after every merge (see [storeOk_init],
    [storeOk_mergeModule]). *)
Definition storeOk (st : LoopState) : Prop :=
  List.NoDup (map key (deduped st))
  /\ forall k, k ∈ seen st <-> In k (map key (deduped st)).

(** Number of stored records with the key of [m]. *)
Definition stored (m : ModuleRecord) (l : list ModuleRecord) : nat :=
  List.length (List.filter (fun x => String.eqb (key x) (key m)) l).

(** The terminal snapshots. *)
Definition timeoutSnapshot : Event := SearchUpdated [] true (Some "timeout").

Definition errorSnapshot (message : string) : Event :=
  SearchUpdated [] true (Some message).

Definition finalSnapshot (moduleName : string) (st : LoopState) : Event :=
  SearchUpdated (nameFilter moduleName (deduped st)) true None.

(** A parse pass that found no listing: no [modules] property, or an empty
    array. *)
Definition noRecords (r : ParseResult) : bool :=
  match pr_modules r with
  | Absent | Items [] => true
  | _ => false
  end.

(** A page that shows its loader and no listing for about thirty seconds
    and then an empty result list: every parse pass finds nothing, the
    loader is visible up to the 43rd pass and hidden from the 44th on, and
    the passes are 700 ms apart. *)
Definition emptyAfterLoader (j : nat) : Poll :=
  {| parse := Ok {| pr_modules := Items []; pr_itemCount := 0;
                    pr_loaderVisible := (j <? 43)%nat |};
     hub := true;
     elapsed := 700 * Z.of_nat j + 50;
     scroll := Ok tt |}.

(** A page whose first parse pass fails. *)
Definition parseFails (j : nat) : Poll :=
  {| parse := Throw "Unexpected token < in JSON at position 0";
     hub := true;
     elapsed := 700 * Z.of_nat j + 50;
     scroll := Ok tt |}.

Definition setupOk : Setup :=
  {| selectModuleType := Ok tt; enterSearch := Ok tt;
     selectPlatform := Ok tt; hubDuringSetup := true |}.

(** An iteration in which the parse pass returns [ms] with item count
    [count] and loader flag [loader], the hub window is open, the clock
    reads [t] and the scroll injection answers [sc]. *)
Definition pollOf (ms : list ModuleRecord) (count : Z) (loader : bool)
           (t : Z) (sc : Outcome unit) : Poll :=
  {| parse := Ok {| pr_modules := Items ms; pr_itemCount := count;
                    pr_loaderVisible := loader |};
     hub := true; elapsed := t; scroll := sc |}.

(** Five listings of one module by five sellers, and a page that keeps
    showing exactly these five with no loader. *)
Definition fiveListings : list ModuleRecord :=
  map (fun seller =>
         {| name := "Arche Tuning"; category := "Ancestors";
            socketType := ""; requiredRank := ""; price := "1,200";
            platform := "Steam"; rerollCount := "";
            sellerName := seller; sellerStatus := "Online";
            sellerRank := ""; regDate := "3 days ago";
            attributes := []; stats := [];
            negAttributes := []; attrValues := ∅; triggerValues := ∅;
            __mrVal := None; __rerollVal := None;
            __ageDays := None; __ageHours := None |})
      ["Ajax"; "Bunny"; "Gley"; "Lepic"; "Viessa"].

Definition steadyFive (j : nat) : Poll :=
  pollOf fiveListings 5 false (700 * Z.of_nat j + 50) (Ok tt).

(** The sort selector set to [key], every other variable left as it is. *)
Definition withSort (key : string) (f : Filters) : Filters :=
  {| activeCats := activeCats f;
     selectedAttrs := selectedAttrs f;
     selectedAttrRanges := selectedAttrRanges f;
     selectedSockets := selectedSockets f;
     selectedPlatforms := selectedPlatforms f;
     priceMinVal := priceMinVal f;
     priceMaxVal := priceMaxVal f;
     isTriggerMode := isTriggerMode f;
     mrMinVal := mrMinVal f;
     mrMaxVal := mrMaxVal f;
     rerollMinVal := rerollMinVal f;
     rerollMaxVal := rerollMaxVal f;
     selectedStatuses := selectedStatuses f;
     ageMinVal := ageMinVal f;
     ageMaxVal := ageMaxVal f;
     ageHoursMinVal := ageHoursMinVal f;
     ageHoursMaxVal := ageHoursMaxVal f;
     sellerFilterVal := sellerFilterVal f;
     triggerAttrMap := triggerAttrMap f;
     triggerFilterValues := triggerFilterValues f;
     selectedNegAttrs := selectedNegAttrs f;
     selectedModuleNames := selectedModuleNames f;
     sortVal := Some key |}.

(** The category buttons in [cats] switched on, every other variable left
    as it is. *)
Definition withCategories (cats : list string) (f : Filters) : Filters :=
  {| activeCats := cats;
     selectedAttrs := selectedAttrs f;
     selectedAttrRanges := selectedAttrRanges f;
     selectedSockets := selectedSockets f;
     selectedPlatforms := selectedPlatforms f;
     priceMinVal := priceMinVal f;
     priceMaxVal := priceMaxVal f;
     isTriggerMode := isTriggerMode f;
     mrMinVal := mrMinVal f;
     mrMaxVal := mrMaxVal f;
     rerollMinVal := rerollMinVal f;
     rerollMaxVal := rerollMaxVal f;
     selectedStatuses := selectedStatuses f;
     ageMinVal := ageMinVal f;
     ageMaxVal := ageMaxVal f;
     ageHoursMinVal := ageHoursMinVal f;
     ageHoursMaxVal := ageHoursMaxVal f;
     sellerFilterVal := sellerFilterVal f;
     triggerAttrMap := triggerAttrMap f;
     triggerFilterValues := triggerFilterValues f;
     selectedNegAttrs := selectedNegAttrs f;
     selectedModuleNames := selectedModuleNames f;
     sortVal := sortVal f |}.

(** The price minimum typed in, every other variable left as it is. *)
Definition withPriceMin (lo : option Q) (f : Filters) : Filters :=
  {| activeCats := activeCats f;
     selectedAttrs := selectedAttrs f;
     selectedAttrRanges := selectedAttrRanges f;
     selectedSockets := selectedSockets f;
     selectedPlatforms := selectedPlatforms f;
     priceMinVal := lo;
     priceMaxVal := priceMaxVal f;
     isTriggerMode := isTriggerMode f;
     mrMinVal := mrMinVal f;
     mrMaxVal := mrMaxVal f;
     rerollMinVal := rerollMinVal f;
     rerollMaxVal := rerollMaxVal f;
     selectedStatuses := selectedStatuses f;
     ageMinVal := ageMinVal f;
     ageMaxVal := ageMaxVal f;
     ageHoursMinVal := ageHoursMinVal f;
     ageHoursMaxVal := ageHoursMaxVal f;
     sellerFilterVal := sellerFilterVal f;
     triggerAttrMap := triggerAttrMap f;
     triggerFilterValues := triggerFilterValues f;
     selectedNegAttrs := selectedNegAttrs f;
     selectedModuleNames := selectedModuleNames f;
     sortVal := sortVal f |}.

(** No profile selected. *)
Definition noProfile : Manager :=
  {| selected := ""; currentProfileState := None |}.

(** Some filter value counted by [hasAnyFilterSet] is set. *)
Definition someFilterSet (f : Filters) : Prop :=
  priceMinVal f <> None \/ priceMaxVal f <> None
  \/ (isTriggerMode f = false
      /\ (mrMinVal f <> None \/ mrMaxVal f <> None
          \/ rerollMinVal f <> None \/ rerollMaxVal f <> None))
  \/ ageMinVal f <> None \/ ageMaxVal f <> None
  \/ ageHoursMinVal f <> None \/ ageHoursMaxVal f <> None
  \/ Str.trim (sellerFilterVal f) <> ""
  \/ selectedStatuses f <> []
  \/ selectedAttrs f <> []
  \/ selectedNegAttrs f <> []
  \/ selectedModuleNames f <> []
  \/ (isTriggerMode f = true
      /\ exists attr range, In (attr, range) (triggerFilterValues f)
                            /\ (rmin range <> None \/ rmax range <> None)).

(** In trigger mode [applyState] leaves the rank and reroll bounds alone:
    they are restored by a reload only in ancestor mode, and otherwise
    have to be what the profile holds already. *)
Definition rankAsSaved (saved live : Filters) : Prop :=
  isTriggerMode saved = false
  \/ (mrMinVal live = mrMinVal saved /\ mrMaxVal live = mrMaxVal saved
      /\ rerollMinVal live = rerollMinVal saved
      /\ rerollMaxVal live = rerollMaxVal saved).

(** A listing whose ["Power"] is 10.0, and one whose ["Power"] could not
    be parsed. *)
Definition powerTen : ModuleRecord :=
  listing "Arche Tuning" ["Power"] {[ "Power" := Some 10%Q ]}.

Definition powerNull : ModuleRecord :=
  listing "Arche Tuning" ["Power"] {[ "Power" := None ]}.

(** A trigger listing without parsed trigger values, the neutral
    trigger-mode state once the trigger filters are built, and that state
    with a minimum of 5 typed for ["Firearm ATK"]. *)
Definition powerBeyond : ModuleRecord := listing "Power Beyond" [] ∅.

Definition triggerNeutral : Filters := neutral true (Some []).

Definition firearmAtLeast5 : Filters :=
  {| activeCats := []; selectedAttrs := []; selectedAttrRanges := [];
     selectedSockets := []; selectedPlatforms := [];
     priceMinVal := None; priceMaxVal := None; isTriggerMode := true;
     mrMinVal := None; mrMaxVal := None;
     rerollMinVal := None; rerollMaxVal := None;
     selectedStatuses := [];
     ageMinVal := None; ageMaxVal := None;
     ageHoursMinVal := None; ageHoursMaxVal := None;
     sellerFilterVal := "";
     triggerAttrMap := Some [("Firearm ATK", mkRange None None)];
     triggerFilterValues := [("Firearm ATK", mkRange (Some 5%Q) None)];
     selectedNegAttrs := []; selectedModuleNames := [];
     sortVal := Some "priceDesc" |}.

(** A page that shows its loader and no listing for good. *)
Definition loaderStuck (j : nat) : Poll :=
  {| parse := Ok {| pr_modules := Items []; pr_itemCount := 0;
                    pr_loaderVisible := true |};
     hub := true;
     elapsed := 700 * Z.of_nat j + 50;
     scroll := Ok tt |}.

(** The loop variables of a search on [loaderStuck] when it enters its
    44th iteration. *)
Definition stuckAt43 : LoopState :=
  {| seen := ∅; deduped := []; lastCount := 0; stable := 43 |}.

(** The same listing seen twice, the seller gone offline in between. *)
Definition ajaxOnline : ModuleRecord :=
  {| name := "Arche Tuning"; category := "Ancestors"; socketType := "";
     requiredRank := ""; price := "1,200"; platform := "Steam";
     rerollCount := ""; sellerName := "Ajax"; sellerStatus := "Online";
     sellerRank := ""; regDate := "3 days ago";
     attributes := []; stats := [];
     negAttributes := []; attrValues := ∅; triggerValues := ∅;
     __mrVal := None; __rerollVal := None;
     __ageDays := None; __ageHours := None |}.

Definition ajaxOffline : ModuleRecord :=
  {| name := "Arche Tuning"; category := "Ancestors"; socketType := "";
     requiredRank := ""; price := "1,200"; platform := "Steam";
     rerollCount := ""; sellerName := "Ajax"; sellerStatus := "Offline";
     sellerRank := ""; regDate := "3 days ago";
     attributes := []; stats := [];
     negAttributes := []; attrValues := ∅; triggerValues := ∅;
     __mrVal := None; __rerollVal := None;
     __ageDays := None; __ageHours := None |}.

(** A page whose item count changes at every pass. *)
Definition neverSettles (j : nat) : Poll :=
  pollOf [ajaxOnline] (Z.of_nat j + 1) false (700 * Z.of_nat j + 50) (Ok tt).

(* ===================================================================== *)
(** * main.js: reading the messages of a search                           *)
(* ===================================================================== *)

(** The [data] of a message; a progress message carries none. *)
Definition snapshotData (e : Event) : list ModuleRecord :=
  match e with
  | SearchUpdated d _ _ => d
  | SearchProgress _ => []
  end.

(** [finished] of a message. *)
Definition isTerminal (e : Event) : bool :=
  match e with
  | SearchUpdated _ fin _ => fin
  | SearchProgress _ => false
  end.

(** The messages sent between two states of the world. *)
Definition sentBetween (w w' : World) (evs : list Event) : Prop :=
  events w' = (events w ++ evs)%list.

(** No key [name|price|sellerName] occurs twice. *)
Definition distinctKeys (l : list ModuleRecord) : Prop :=
  List.NoDup (map key l).

(** The hub window is open at every reading made by a search. *)
Definition hubOpen (su : Setup) (env : nat -> Poll) : Prop :=
  hubDuringSetup su = true /\ forall j, hub (env j) = true.

(* ===================================================================== *)
(** * hub.js: the status display of a search tab                          *)
(* ===================================================================== *)

(** The class names the handlers put on and take off the status dot
    ([statusEl]) and the status text; the text's classes are the same names
    with [-text] appended.  [Indicator] stands for the fixed class
    ([status-indicator], [status-text]) given when the tab is created. *)
Inductive StatusClass : Type :=
| Indicator | Sending | Running | Finished | Failing | Stopped.

Definition StatusClass_eqb (a b : StatusClass) : bool :=
  match a, b with
  | Indicator, Indicator | Sending, Sending | Running, Running
  | Finished, Finished | Failing, Failing | Stopped, Stopped => true
  | _, _ => false
  end.

(** [classList.remove(c)] and [classList.add(c)] on a token list. *)
Definition classRemove (c : StatusClass) (l : list StatusClass)
  : list StatusClass :=
  List.filter (fun x => negb (StatusClass_eqb x c)) l.

Definition classAdd (c : StatusClass) (l : list StatusClass)
  : list StatusClass :=
  if existsb (StatusClass_eqb c) l then l else (l ++ [c])%list.

(** [textContent] of the status text; the two template strings keep their
    count as a number. *)
Inductive StatusText : Type :=
| Literally (s : string)
| InProgress (count : nat)          (* `In progress (${count})` *)
| Complete (count : nat).           (* `Complete (${count})` *)

(** [tabs[id]] of a search tab, as far as the handlers of the three
    channels and the retry button touch it; [posted] lists the [data] of the
    [marketData] messages posted to the iframe, oldest first. *)
Record Tab : Type := mkTab {
  statusEl : list StatusClass;
  statusTextClasses : list StatusClass;
  statusText : StatusText;
  stopDisabled : bool;
  retryMsgShown : bool;
  retryMsgText : string;
  retryBtnShown : bool;
  posted : list (list ModuleRecord)
}.

(** The tab as [createSearchTab] leaves it. *)
Definition createSearchTab : Tab :=
  {| statusEl := [Indicator; Sending];
     statusTextClasses := [Indicator; Sending];
     statusText := Literally "Sending request";
     stopDisabled := false;
     retryMsgShown := false;
     retryMsgText := "";
     retryBtnShown := false;
     posted := [] |}.

(** Take the four classes [others] off and put [c] on. *)
Definition setStatus (c : StatusClass) (others : list StatusClass)
           (l : list StatusClass) : list StatusClass :=
  classAdd c (fold_left (fun acc x => classRemove x acc) others l).

(** A string used as a condition. *)
Definition errorSet (error : option string) : bool :=
  match error with
  | Some s => negb (Str.isEmpty s)
  | None => false
  end.

(** The handler given to [onSearchUpdated]. *)
Definition onSearchUpdated (data : list ModuleRecord) (finished : bool)
           (error : option string) (t : Tab) : Tab :=
  let posted' := if errorSet error then posted t
                 else (posted t ++ [data])%list in
  let count := List.length data in
  if errorSet error then
    {| statusEl := setStatus Failing [Running; Finished; Sending; Stopped]
                     (statusEl t);
       statusTextClasses :=
         setStatus Failing [Running; Finished; Sending; Stopped]
           (statusTextClasses t);
       statusText := Literally "Failed";
       stopDisabled := true;
       retryMsgShown := true;
       retryMsgText :=
         if match error with
            | Some s => String.eqb s "timeout"
            | None => false
            end
         then "No items were found within 30 seconds."
         else "An error occurred while fetching results.";
       retryBtnShown := true;
       posted := posted' |}
  else if negb finished then
    {| statusEl := setStatus Running [Sending; Stopped; Finished; Failing]
                     (statusEl t);
       statusTextClasses :=
         setStatus Running [Sending; Stopped; Finished; Failing]
           (statusTextClasses t);
       statusText := InProgress count;
       stopDisabled := stopDisabled t;
       retryMsgShown := false;
       retryMsgText := retryMsgText t;
       retryBtnShown := false;
       posted := posted' |}
  else
    {| statusEl := setStatus Finished [Running; Stopped; Sending; Failing]
                     (statusEl t);
       statusTextClasses :=
         setStatus Finished [Running; Stopped; Sending; Failing]
           (statusTextClasses t);
       statusText := Complete count;
       stopDisabled := true;
       retryMsgShown := false;
       retryMsgText := retryMsgText t;
       retryBtnShown := false;
       posted := posted' |}.

(** The handler given to [onSearchProgress]. *)
Definition onSearchProgress (stage : string) (t : Tab) : Tab :=
  let msg :=
    if String.eqb stage "enterName" then "Entering module name"
    else if String.eqb stage "setPlatform" then "Setting platform"
    else if String.eqb stage "waiting" then "Waiting for website"
    else "Working" in
  {| statusEl := setStatus Sending [Running; Finished; Stopped; Failing]
                   (statusEl t);
     statusTextClasses :=
       setStatus Sending [Running; Finished; Stopped; Failing]
         (statusTextClasses t);
     statusText := Literally msg;
     stopDisabled := stopDisabled t;
     retryMsgShown := false;
     retryMsgText := retryMsgText t;
     retryBtnShown := false;
     posted := posted t |}.

(** The handler given to [onSearchStopped]. *)
Definition onSearchStopped (t : Tab) : Tab :=
  {| statusEl := setStatus Stopped [Running; Finished; Sending; Failing]
                   (statusEl t);
     statusTextClasses :=
       setStatus Stopped [Running; Finished; Sending; Failing]
         (statusTextClasses t);
     statusText := Literally "Aborted";
     stopDisabled := true;
     retryMsgShown := retryMsgShown t;
     retryMsgText := retryMsgText t;
     retryBtnShown := retryBtnShown t;
     posted := posted t |}.

(** The click handler of the retry button, up to the [retrySearch] call. *)
Definition onRetryClick (t : Tab) : Tab :=
  {| statusEl := setStatus Sending [Failing; Finished; Running; Stopped]
                   (statusEl t);
     statusTextClasses :=
       setStatus Sending [Failing; Finished; Running; Stopped]
         (statusTextClasses t);
     statusText := Literally "Sending request";
     stopDisabled := false;
     retryMsgShown := false;
     retryMsgText := retryMsgText t;
     retryBtnShown := false;
     posted := posted t |}.

(** What can reach a tab: a message on one of the three channels, or a
    click on its retry button. *)
Inductive TabInput : Type :=
| FromMain (e : Event)
| SearchStopped
| RetryClick.

Definition tabStep (t : Tab) (i : TabInput) : Tab :=
  match i with
  | FromMain (SearchUpdated data finished error) =>
      onSearchUpdated data finished error t
  | FromMain (SearchProgress stage) => onSearchProgress stage t
  | SearchStopped => onSearchStopped t
  | RetryClick => onRetryClick t
  end.

(** The tab after the messages of one search have been delivered in the
    order they were sent. *)
Definition deliver (evs : list Event) (t : Tab) : Tab :=
  fold_left tabStep (map FromMain evs) t.


(** Every message sent and the list recorded on the entry hold pairwise
    distinct keys. *)
Definition distinctWorld (w : World) : Prop :=
  Forall (fun e => distinctKeys (snapshotData e)) (events w)
  /\ distinctKeys (entryData (entry w)).


(* ===================================================================== *)
(** * helper.js: what [appendModules] compares, and the sort of
      [updateResults]                                                     *)
(* ===================================================================== *)

(** The three fields compared by [modules.some] in [appendModules]. *)
Definition identity (m : ModuleRecord) : string * string * string :=
  (name m, price m, sellerName m).

(** [parsePrice(mod)] of the sort comparator: [NaN] counts as 0. *)
Definition parsePrice (m : ModuleRecord) : Q :=
  match priceNum m with
  | Some p => p
  | None => 0
  end.

Section Sort.

(** [a.localeCompare(b)]: negative, zero or positive; the collation is the
    host's. *)
Variable localeCompare : string -> string -> Z.

(** The comparator given to [filtered.sort]. *)
Definition compareCards (sortVal : string) (a b : ModuleRecord) : Q :=
  if String.eqb sortVal "priceAsc" then parsePrice a - parsePrice b
  else if String.eqb sortVal "priceDesc" then parsePrice b - parsePrice a
  else if String.eqb sortVal "nameAsc" then
    inject_Z (localeCompare (Str.toLowerCase (name a))
                            (Str.toLowerCase (name b)))
  else if String.eqb sortVal "nameDesc" then
    inject_Z (localeCompare (Str.toLowerCase (name b))
                            (Str.toLowerCase (name a)))
  else 0.

(** [Array.prototype.sort] is stable: with a comparator that orders the
    elements consistently, the result is the one insertion from the right
    computes, each element going in front of the first one it does not
    have to follow. *)
Fixpoint insertCard (cmp : ModuleRecord -> ModuleRecord -> Q)
         (x : ModuleRecord) (l : list ModuleRecord) : list ModuleRecord :=
  match l with
  | [] => [x]
  | y :: l' =>
      if Qle_bool (cmp x y) 0 then x :: y :: l'
      else y :: insertCard cmp x l'
  end.

Definition sortCards (cmp : ModuleRecord -> ModuleRecord -> Q)
           (l : list ModuleRecord) : list ModuleRecord :=
  fold_right (insertCard cmp) [] l.

(** The cards [updateResults] renders, in order: the filtered records,
    sorted when the sort selector exists. *)
Definition shown (f : Filters) (modules : list ModuleRecord)
  : list ModuleRecord :=
  match sortVal f with
  | Some v => sortCards (compareCards v) (filtered f modules)
  | None => filtered f modules
  end.

End Sort.

(** The records of [l] priced [p], in the order [l] has them. *)
Definition pricedAt (p : Q) (l : list ModuleRecord) : list ModuleRecord :=
  List.filter (fun m => Qeq_bool (parsePrice m) p) l.

(** The store before the first record arrives, with no schema kept. *)
Definition emptyStore : Store unit := mkStore [] tt.


(* ===================================================================== *)
(** * A JavaScript object used as a table                                 *)
(* ===================================================================== *)

(** The own properties of an object with their values, in the order in
    which [Object.keys] and [JSON.stringify] go through them: the names
    that are array indices first, in ascending order, then the other names
    in the order in which they were created. *)
Module Obj.

(** The array index a property name stands for, if it is one: a decimal
    numeral without a superfluous leading zero, at most 2^32 - 2. *)
Definition arrayIndex (k : string) : option N :=
  if negb (Str.isEmpty k) && Str.all Str.isDigit k
     && (String.eqb k "0" || negb (Str.startsWith "0" k))
  then
    let n := Num.digitsValue k in
    if (n <=? 4294967294)%N then Some n else None
  else None.

(** A property [k] that is being created is enumerated before the
    property [k']. *)
Definition precedes (k k' : string) : bool :=
  match arrayIndex k, arrayIndex k' with
  | Some n, Some n' => (n <? n')%N
  | Some _, None => true
  | None, _ => false
  end.

Section Table.
Context {V : Type}.

(** [o[k]] for an own property. *)
Fixpoint get (k : string) (o : list (string * V)) : option V :=
  match o with
  | [] => None
  | (k', v) :: o' => if String.eqb k' k then Some v else get k o'
  end.

(** [o[k] = v] where [k] is an own property: it keeps its place. *)
Fixpoint replace (k : string) (v : V) (o : list (string * V))
  : list (string * V) :=
  match o with
  | [] => []
  | (k', v') :: o' =>
      if String.eqb k' k then (k', v) :: o'
      else (k', v') :: replace k v o'
  end.

(** [o[k] = v] where [k] is not yet a property. *)
Fixpoint place (k : string) (v : V) (o : list (string * V))
  : list (string * V) :=
  match o with
  | [] => [(k, v)]
  | (k', v') :: o' =>
      if precedes k k' then (k, v) :: (k', v') :: o'
      else (k', v') :: place k v o'
  end.

(** [o[k] = v] *)
Definition set (k : string) (v : V) (o : list (string * V))
  : list (string * V) :=
  match get k o with
  | Some _ => replace k v o
  | None => place k v o
  end.

(** [delete o[k]] *)
Definition remove (k : string) (o : list (string * V))
  : list (string * V) :=
  List.filter (fun e => negb (String.eqb (fst e) k)) o.

(** [Object.keys(o)] *)
Definition keys (o : list (string * V)) : list string := map fst o.

End Table.

End Obj.

(* ===================================================================== *)
(** * helper.js: the stored profiles and the handlers of [initUI]         *)
(* ===================================================================== *)

(** The object kept under the [profiles] key of a mode
    ([tfd_ancestor_profiles] or [tfd_trigger_profiles]), as [loadProfiles]
    parses it and [saveProfiles] prints it: the profile names with their
    states, in the order of the object's properties. *)
Record Profiles : Type := mkProfiles {
  entries : list (string * ProfileState)
}.

(** [profs[name]] for a stored name, [profs[name] = state] and
    [delete profs[name]]. *)
#[global] Instance Profiles_lookup : Lookup string ProfileState Profiles :=
  fun name profs => Obj.get name (entries profs).

#[global] Instance Profiles_insert : Insert string ProfileState Profiles :=
  fun name state profs => mkProfiles (Obj.set name state (entries profs)).

#[global] Instance Profiles_delete : Delete string Profiles :=
  fun name profs => mkProfiles (Obj.remove name (entries profs)).

#[global] Instance Profiles_empty : Empty Profiles := mkProfiles [].

(** What [localStorage] holds for one mode: the profiles object and the
    name [loadDefaultProfileName] returns ([''] when the [default] key is
    not set). *)
Record ModeStore : Type := mkModeStore {
  profiles : Profiles;
  defaultName : string
}.

Record Storage : Type := mkStorage {
  ancestorKeys : ModeStore;
  triggerKeys : ModeStore
}.

(** The keys [getStorageKeys] points to in the current mode. *)
Definition modeStore (trigger : bool) (st : Storage) : ModeStore :=
  if trigger then triggerKeys st else ancestorKeys st.

Definition setModeStore (trigger : bool) (ms : ModeStore) (st : Storage)
  : Storage :=
  if trigger then {| ancestorKeys := ancestorKeys st; triggerKeys := ms |}
  else {| ancestorKeys := ms; triggerKeys := triggerKeys st |}.

(** The page as the profile manager sees it once [initializeUI] has run:
    storage, the manager (selector value and remembered state), the live
    filter variables, the [disabled] flag of the save button, how many
    times [initUI] has registered its listeners (1884-2005), and whether
    [window.__updateResults] is the function wrapped by
    [hookUpdateResults] (2013-2024). *)
Record Session : Type := mkSession {
  storage : Storage;
  manager : Manager;
  live : Filters;
  saveDisabled : bool;
  listeners : nat;
  hooked : bool
}.

(** [saveDefaultProfileName(name)]: an empty name removes the key. *)
Definition saveDefaultProfileName (name : string) (ms : ModeStore)
  : ModeStore :=
  {| profiles := profiles ms; defaultName := name |}.

Definition saveProfiles (profs : Profiles) (ms : ModeStore) : ModeStore :=
  {| profiles := profs; defaultName := defaultName ms |}.

(** [updateButtons()]: the only statement that writes the [disabled] flag
    of the save button (1839, 1842). *)
Definition updateButtons (s : Session) : Session :=
  {| storage := storage s;
     manager := manager s;
     live := live s;
     saveDisabled := negb (saveEnabled (manager s) (live s));
     listeners := listeners s;
     hooked := hooked s |}.

(** A listener registered by [initializeUI] on a filter control (320-984,
    1138-1203): it assigns to the filter variables, or the control it
    belongs to has changed what [getActiveCategories] or the sort selector
    reads, and it calls the [updateResults] of its closure (999), which
    renders the cards.  [assign] is what this does to the variables and
    readings; see [withPriceMin] (691-694), [withSort] (506-508),
    [withCategories] (320-325) and [withRankFilters] (810-835). *)
Definition onFacetInput (assign : Filters -> Filters) (s : Session)
  : Session :=
  {| storage := storage s;
     manager := manager s;
     live := assign (live s);
     saveDisabled := saveDisabled s;
     listeners := listeners s;
     hooked := hooked s |}.

(** [window.__updateResults()], as [appendModules] calls it when it is
    done (1592-1593): the cards are rendered, and when the function is the
    one wrapped by [hookUpdateResults], [onFiltersChange] runs
    [updateButtons] (2015-2021). *)
Definition __updateResults (s : Session) : Session :=
  if hooked s then updateButtons s else s.

Section Handlers.

(** The names an object answers to before anything is stored in it, those
    of [Object.prototype]: for them [profs[name]] is truthy although no
    profile is stored.  A stored profile is an object, hence truthy. *)
Variable inherited : string -> bool.

(** Whether ['option[value="' + name + '"]'] is not a selector, so that
    [querySelector] raises [SyntaxError] (1983): so it is for a name that
    holds a double quote followed by anything but the rest of a selector
    list. *)
Variable badSelector : string -> bool.

(** [profs[name]] used as a condition. *)
Definition answersTo (profs : Profiles) (name : string) : bool :=
  match profs !! name with
  | Some _ => true
  | None => inherited name
  end.

(** The session with the current mode's storage and the manager replaced;
    the save button is as [updateButtons] then leaves it. *)
Definition withStore (ms : ModeStore) (pm : Manager) (s : Session)
  : Session :=
  updateButtons
    {| storage := setModeStore (isTriggerMode (live s)) ms (storage s);
       manager := pm;
       live := live s;
       saveDisabled := saveDisabled s;
       listeners := listeners s;
       hooked := hooked s |}.

(** The click listener of the save button.  [confirmed] is what [confirm]
    answers, [typed] what [prompt] returns ([None] when it is cancelled). *)
Definition onSaveClick (confirmed : bool) (typed : option string)
           (s : Session) : Session :=
  let ms := modeStore (isTriggerMode (live s)) (storage s) in
  let selectedName := selected (manager s) in
  let curState := getState (live s) in
  if negb (Str.isEmpty selectedName) then
    if confirmed then
      withStore (saveProfiles (<[selectedName := curState]> (profiles ms)) ms)
                {| selected := selectedName;
                   currentProfileState := Some curState |} s
    else s
  else
    match typed with
    | Some name =>
        if negb (Str.isEmpty name) && negb (Str.isEmpty (Str.trim name)) then
          let trimmed := Str.trim name in
          if answersTo (profiles ms) trimmed then s
          else
            withStore (saveProfiles (<[trimmed := curState]> (profiles ms)) ms)
                      {| selected := trimmed;
                         currentProfileState := Some curState |} s
        else s
    | None => s
    end.

(** The click listener of the rename button.  A name that is selected but
    not stored has no value to move: [JSON.stringify] leaves the new key
    out. *)
Definition onRenameClick (typed : option string) (s : Session) : Session :=
  let ms := modeStore (isTriggerMode (live s)) (storage s) in
  let selectedName := selected (manager s) in
  if Str.isEmpty selectedName then s
  else
    match typed with
    | None => s
    | Some newName =>
        if Str.isEmpty newName || Str.isEmpty (Str.trim newName)
           || String.eqb newName selectedName then s
        else
          let trimmed := Str.trim newName in
          if answersTo (profiles ms) trimmed then s
          else
            let val := profiles ms !! selectedName in
            let profs :=
              match val with
              | Some v => <[trimmed := v]> (delete selectedName (profiles ms))
              | None => delete selectedName (profiles ms)
              end in
            let ms1 :=
              if String.eqb (defaultName ms) selectedName
              then saveDefaultProfileName trimmed ms else ms in
            withStore (saveProfiles profs ms1)
                      {| selected := trimmed; currentProfileState := val |} s
    end.

(** [SyntaxError], raised by [querySelector] for text that is not a
    selector. *)
Definition syntaxError : string := "SyntaxError".

(** The click listener of the delete button.  The profile is removed from
    storage first (1977-1981); where the selector built from the name is
    not one, [querySelector] raises and the rest (1984-1993) does not run:
    the default name, the selection, the remembered state and the save
    button stay as they were. *)
Definition onDeleteClick (confirmed : bool) (s : Session)
  : Session * Ending :=
  let mode := isTriggerMode (live s) in
  let ms := modeStore mode (storage s) in
  let selectedName := selected (manager s) in
  if Str.isEmpty selectedName then (s, Returns)
  else if confirmed then
    let ms1 :=
      if answersTo (profiles ms) selectedName
      then saveProfiles (delete selectedName (profiles ms)) ms else ms in
    if badSelector selectedName then
      ({| storage := setModeStore mode ms1 (storage s);
          manager := manager s;
          live := live s;
          saveDisabled := saveDisabled s;
          listeners := listeners s;
          hooked := hooked s |}, Throws syntaxError)
    else
      let ms2 :=
        if String.eqb (defaultName ms1) selectedName
        then saveDefaultProfileName "" ms1 else ms1 in
      (withStore ms2 {| selected := ""; currentProfileState := None |} s,
       Returns)
  else (s, Returns).

(** The click listener of the set-default button. *)
Definition onSetDefaultClick (s : Session) : Session :=
  let mode := isTriggerMode (live s) in
  let ms := modeStore mode (storage s) in
  let selectedName := selected (manager s) in
  if Str.isEmpty selectedName then s
  else
    {| storage :=
         setModeStore mode (saveDefaultProfileName selectedName ms)
                      (storage s);
       manager := manager s;
       live := live s;
       saveDisabled := saveDisabled s;
       listeners := listeners s;
       hooked := hooked s |}.

(** The session after [currentProfileState = st; applyState(st)] with the
    selector on [name] (1873-1876, 1895-1897): the state is remembered,
    the filter variables are assigned, and the exception of [applyState]
    escapes, so that nothing after the call runs. *)
Definition load (name : string) (st : ProfileState) (s : Session)
  : Session * Ending :=
  ({| storage := storage s;
      manager := {| selected := name; currentProfileState := Some st |};
      live := fst (applyState st (live s));
      saveDisabled := saveDisabled s;
      listeners := listeners s;
      hooked := hooked s |},
   snd (applyState st (live s))).

(** The change listener of the selector, the user having picked [name].
    The names offered are stored ones, which are not inherited names.
    With the empty name the selection is cleared and [updateButtons] runs
    (1886-1890); with a stored name the profile is loaded, which raises
    before any button is looked at; with a name that is no longer stored
    nothing is done. *)
Definition onSelectChange (name : string) (s : Session)
  : Session * Ending :=
  let ms := modeStore (isTriggerMode (live s)) (storage s) in
  if Str.isEmpty name then
    (updateButtons
       {| storage := storage s;
          manager := {| selected := ""; currentProfileState := None |};
          live := live s;
          saveDisabled := saveDisabled s;
          listeners := listeners s;
          hooked := hooked s |}, Returns)
  else
    match profiles ms !! name with
    | Some st => load name st s
    | None =>
        ({| storage := storage s;
            manager := {| selected := name;
                          currentProfileState :=
                            currentProfileState (manager s) |};
            live := live s;
            saveDisabled := saveDisabled s;
            listeners := listeners s;
            hooked := hooked s |}, Returns)
    end.

(** [initUI()], the two buttons and the selector being there.  A default
    name is one a profile was created or renamed to, which the two
    listeners refuse for the inherited names.  When the default name is set
    and stored, the profile is loaded (1872-1876): [applyState] raises, and
    neither the listeners (1884-2005) nor the hook (2012-2032) are set up,
    nor does [updateButtons] (2034) run.  Otherwise the selection is
    cleared, the listeners are registered once more,
    [window.__updateResults] is wrapped and [updateButtons] runs. *)
Definition initUI (s : Session) : Session * Ending :=
  let ms := modeStore (isTriggerMode (live s)) (storage s) in
  let name := defaultName ms in
  match (if Str.isEmpty name then None else profiles ms !! name) with
  | Some st => load name st s
  | None =>
      (updateButtons
         {| storage := storage s;
            manager := {| selected := ""; currentProfileState := None |};
            live := live s;
            saveDisabled := saveDisabled s;
            listeners := S (listeners s);
            hooked := true |}, Returns)
  end.

(** What happens to the profile controls: one run of a listener of
    [initUI], with the answers given to its dialogs, or a call of [initUI].
    A click runs the listeners registered for it one after the other, as
    many as calls of [initUI] have come to register them, and none before
    that. *)
Inductive ProfileAction : Type :=
| SaveClick (confirmed : bool) (typed : option string)
| RenameClick (typed : option string)
| DeleteClick (confirmed : bool)
| SetDefaultClick
| SelectChange (name : string)
| Reload.                             (* [initUI] runs again *)

(** The listener or the call an action stands for, on the session [s]. *)
Definition dispatch (a : ProfileAction) (s : Session)
  : Session * Ending :=
  match a with
  | SaveClick confirmed typed => (onSaveClick confirmed typed s, Returns)
  | RenameClick typed => (onRenameClick typed s, Returns)
  | DeleteClick confirmed => onDeleteClick confirmed s
  | SetDefaultClick => (onSetDefaultClick s, Returns)
  | SelectChange name => onSelectChange name s
  | Reload => initUI s
  end.

(** A listener can run once [initUI] has registered it. *)
Definition registered (a : ProfileAction) (s : Session) : bool :=
  match a with
  | Reload => true
  | _ => negb (Nat.eqb (listeners s) 0)
  end.

(** The session an action leaves; an exception that escapes a listener is
    reported by the page, which goes on. *)
Definition profileStep (s : Session) (a : ProfileAction) : Session :=
  if registered a s then fst (dispatch a s) else s.

End Handlers.

(** [Object.prototype] as Chromium has it. *)
Definition objectPrototype (name : string) : bool :=
  includes name
    ["constructor"; "__defineGetter__"; "__defineSetter__";
     "hasOwnProperty"; "__lookupGetter__"; "__lookupSetter__";
     "isPrototypeOf"; "propertyIsEnumerable"; "toString"; "valueOf";
     "__proto__"; "toLocaleString"].

(** The name holds a double quote.  It stands for [badSelector] in the
    examples, none of whose names with a double quote makes a selector. *)
Definition holdsQuote (name : string) : bool :=
  negb (Str.all (fun a => negb (Ascii.eqb a "034")) name).

Definition noneStored : ModeStore :=
  {| profiles := ∅; defaultName := "" |}.

(** A page in ancestor mode as [initializeUI] leaves it, nothing being
    stored: no bound set, [initUI] not yet called, the save button as the
    document has it. *)
Definition loadedPage : Session :=
  {| storage := {| ancestorKeys := noneStored; triggerKeys := noneStored |};
     manager := noProfile;
     live := neutral false None;
     saveDisabled := false;
     listeners := 0;
     hooked := false |}.

(** That page after [initUI], a price bound typed in and a batch of
    records appended: nothing stored, no profile selected, the save button
    enabled. *)
Definition freshSession : Session :=
  __updateResults
    (onFacetInput (withPriceMin (Some 100%Q)) (fst (initUI loadedPage))).

(** The fresh page after its filters have been saved as ["mine"] and that
    profile has been made the default. *)
Definition mineAsDefault : Session :=
  onSetDefaultClick
    (onSaveClick objectPrototype false (Some "mine") freshSession).

(** A profile name with a double quote in it: an a, the quote, a b. *)
Definition quoteName : string := String "a" (String "034" (String "b" "")).

(** The fresh page after its filters have been saved under that name and
    the profile has been made the default. *)
Definition quoteAsDefault : Session :=
  onSetDefaultClick
    (onSaveClick objectPrototype false (Some quoteName) freshSession).

(** The page with two profiles stored, ["mine"] before ["other"], and
    ["mine"] selected. *)
Definition twoProfiles : Session :=
  fst (onSelectChange "mine"
         (onSaveClick objectPrototype false (Some "other")
            (fst (onSelectChange ""
                    (onSaveClick objectPrototype false (Some "mine")
                       freshSession))))).

(** The fresh page with its filters saved as ["mine"], that profile being
    selected. *)
Definition mineSelected : Session :=
  onSaveClick objectPrototype false (Some "mine") freshSession.

(** A page loaded while ["mine"] is stored as the default profile, before
    [initUI] is called. *)
Definition storedDefault : Session :=
  {| storage := storage mineAsDefault;
     manager := noProfile;
     live := neutral false None;
     saveDisabled := false;
     listeners := 0;
     hooked := false |}.



(* ===================================================================== *)
(** * Words of a line                                                     *)
(* ===================================================================== *)

Module Words.

(** [s.substring(n)], [s.slice(n)] *)
Fixpoint drop (n : nat) (s : string) : string :=
  match n, s with
  | S n', String _ s' => drop n' s'
  | _, _ => s
  end.

(** [s.split(c)[0]]: the text before the first [c]. *)
Fixpoint before (c : ascii) (s : string) : string :=
  match s with
  | EmptyString => EmptyString
  | String a s' => if Ascii.eqb a c then EmptyString
                   else String a (before c s')
  end.

(** [s.split(/\s+/)]: the pieces between maximal runs of whitespace, an
    empty piece in front of a leading run and after a trailing one.
    [inRun] says the previous character was whitespace, [cur] is the piece
    read so far. *)
Fixpoint splitFrom (inRun : bool) (cur : string) (s : string)
  : list string :=
  match s with
  | EmptyString => [cur]
  | String a s' =>
      if Str.isSpace a then
        if inRun then splitFrom true cur s'
        else cur :: splitFrom true EmptyString s'
      else splitFrom false (cur ++ String a EmptyString) s'
  end.

Definition split (s : string) : list string :=
  splitFrom false EmptyString s.

(** [parts.join(sep)] *)
Fixpoint join (sep : string) (parts : list string) : string :=
  match parts with
  | [] => EmptyString
  | [x] => x
  | x :: rest => x ++ sep ++ join sep rest
  end.

End Words.

(* ===================================================================== *)
(** * main.js: the option lines of a listing                              *)
(* ===================================================================== *)

(** One [.item__details .option] element: the [textContent] of its
    [.option-name] and [.option-value] children, where they exist. *)
Record OptionEl : Type := mkOption {
  optionName : option string;
  optionValue : option string
}.

(** [raw.startsWith('(+)') || raw.startsWith('(-)')] *)
Definition signed (s : string) : bool :=
  Str.startsWith "(+)" s || Str.startsWith "(-)" s.

(** [{ raw, positive, negative, value }] as [parseAncestor] pushes it for
    an option whose name reads [raw] once trimmed. *)
Definition ancestorStat (raw value : string) : Stat :=
  {| stat_raw := raw;
     stat_positive := Str.startsWith "(+)" raw;
     stat_negative := Str.startsWith "(-)" raw;
     stat_value := value |}.

(** [{ raw: label + ' ' + value, positive: false, negative: false,
      value }] as [parseTrigger] pushes it. *)
Definition triggerStat (label value : string) : Stat :=
  {| stat_raw := label ++ " " ++ value;
     stat_positive := false; stat_negative := false;
     stat_value := value |}.

(** The attribute name [parseAncestor] takes from the trimmed text of an
    option name. *)
Definition ancestorAttr (raw : string) : string :=
  let attr := if signed raw then Str.trim (Words.drop 3 raw) else raw in
  Str.trim (Words.before "[" attr).

(** Body of [optionEls.forEach] in [parseAncestor], on the pair
    ([attributes], [stats]). *)
Definition ancestorOption (acc : list string * list Stat) (opt : OptionEl)
  : list string * list Stat :=
  match optionName opt with
  | None => acc
  | Some text =>
      let raw := Str.trim text in
      let attr := ancestorAttr raw in
      let attributes :=
        if negb (Str.isEmpty attr) && negb (includes attr (fst acc))
        then (fst acc ++ [attr])%list else fst acc in
      let value := match optionValue opt with
                   | Some v => Str.trim v
                   | None => EmptyString
                   end in
      (attributes, (snd acc ++ [ancestorStat raw value])%list)
  end.

Definition ancestorOptions (opts : list OptionEl)
  : list string * list Stat :=
  fold_left ancestorOption opts ([], []).

(** The attribute name [parseTrigger] takes from the trimmed text of an
    option name. *)
Definition triggerAttr (label : string) : string :=
  Str.trim (Words.before "(" label).

(** Body of [optionEls.forEach] in [parseTrigger]. *)
Definition triggerOption (acc : list string * list Stat) (opt : OptionEl)
  : list string * list Stat :=
  let label := match optionName opt with
               | Some text => Str.trim text
               | None => EmptyString
               end in
  let value := match optionValue opt with
               | Some v => Str.trim v
               | None => EmptyString
               end in
  let attr := triggerAttr label in
  let attributes :=
    if negb (Str.isEmpty attr) && negb (includes attr (fst acc))
    then (fst acc ++ [attr])%list else fst acc in
  (attributes, (snd acc ++ [triggerStat label value])%list).

Definition triggerOptions (opts : list OptionEl)
  : list string * list Stat :=
  fold_left triggerOption opts ([], []).

(* ===================================================================== *)
(** * helper.js: what is read from the [stats] of a record                *)
(* ===================================================================== *)

(** [s.match(r)] without the [g] flag, with the text that follows the
    match. *)
Fixpoint searchRest (r : regex) (s : string) : option (captures * string) :=
  match run r s [] (fun s' c => Some (c, s')) with
  | Some x => Some x
  | None =>
      match s with
      | String _ s' => searchRest r s'
      | EmptyString => None
      end
  end.

(** [s.match(r)] with the [g] flag, for a pattern that matches no empty
    text: the matched texts from left to right.  Each match uses up a
    character, which bounds their number. *)
Fixpoint matchAllFrom (fuel : nat) (r : regex) (s : string) : list string :=
  match fuel with
  | O => []
  | S fuel' =>
      match searchRest (Grp 0 r) s with
      | Some (c, rest) => group 0 c :: matchAllFrom fuel' r rest
      | None => []
      end
  end.

Definition matchAll (r : regex) (s : string) : list string :=
  matchAllFrom (S (String.length s)) r s.

(** [-?[0-9]+(?:\.[0-9]+)?] *)
Definition signedNumberRe : regex := Seq (Opt (Lit "-")) numberRe.

(** [parseFloat] of a text matched by [signedNumberRe]. *)
Definition parseFloatSigned (s : string) : option Q :=
  match s with
  | String "-" s' => option_map Qopp (Num.parseFloat s')
  | _ => Num.parseFloat s
  end.

(** [parseFloat(valStr.match(/-?[0-9]+(?:\.[0-9]+)?/)[0])], [None] when
    there is no match. *)
Definition firstNumber (s : string) : option Q :=
  match search (Grp 0 signedNumberRe) s with
  | Some c => parseFloatSigned (group 0 c)
  | None => None
  end.

(** [sum] after [matches.forEach]. *)
Definition sumOf (matches : list string) : Q :=
  fold_left (fun sum n => match parseFloatSigned n with
                          | Some f => (sum + f)%Q
                          | None => sum
                          end) matches 0%Q.

(** The fallback: the mean of the numbers in the range token. *)
Definition average (lastToken : string) : option Q :=
  match matchAll signedNumberRe lastToken with
  | [] => None
  | matches =>
      Some (sumOf matches / inject_Z (Z.of_nat (List.length matches)))%Q
  end.

(** [avg] of a stat: the first number in its value when there is one,
    else the mean of the numbers in the last token of its line. *)
Definition statAverage (value lastToken : string) : option Q :=
  let valStr :=
    if negb (Str.isEmpty value) && negb (Str.isEmpty (Str.trim value))
    then Str.trim value else EmptyString in
  match (if Str.isEmpty valStr then None else firstNumber valStr) with
  | Some v => Some v
  | None => average lastToken
  end.

(** [parts = raw.split(/\s+/); lastToken = parts.pop();
     label = parts.join(' ')]: the label and the last token. *)
Definition splitStat (raw : string) : string * string :=
  let parts := Words.split raw in
  (Words.join " " (removelast parts), List.last parts EmptyString).

(** Attribute name and value of a stat, as [appendModules] works them out
    (lines 1479-1512); [None] where the loop body returns early. *)
Definition attrEntry (stat : Stat) : option (string * option Q) :=
  let raw := Str.trim (stat_raw stat) in
  if Str.isEmpty raw then None
  else
    let '(label, lastToken) := splitStat raw in
    let cleanLabel :=
      if signed label then Str.trim (Words.drop 3 label) else label in
    let attrName := Str.trim (Words.before "[" cleanLabel) in
    if Str.isEmpty attrName then None
    else Some (attrName, statAverage (stat_value stat) lastToken).

(** The same name as [initializeUI] works it out (lines 123-139): the
    sign is cut off without trimming. *)
Definition attrNameInit (stat : Stat) : option string :=
  let raw := Str.trim (stat_raw stat) in
  if Str.isEmpty raw then None
  else
    let label := fst (splitStat raw) in
    let cleanLabel := if signed label then Words.drop 3 label else label in
    let attrName := Str.trim (Words.before "[" cleanLabel) in
    if Str.isEmpty attrName then None else Some attrName.

(** Name under which [appendModules] lists a negative stat (lines
    1459-1476). *)
Definition negEntry (stat : Stat) : option string :=
  if stat_negative stat then
    let raw := Str.trim (stat_raw stat) in
    if Str.isEmpty raw then None
    else
      let label := fst (splitStat raw) in
      let attrName := Str.trim (Words.before "[" label) in
      let attrName :=
        if signed attrName then Str.trim (Words.drop 3 attrName)
        else attrName in
      if Str.isEmpty attrName then None else Some attrName
  else None.

(** Name and value of a trigger option ([buildTriggerFilters], and lines
    1560-1569 of [appendModules]). *)
Definition triggerEntry (stat : Stat) : option (string * option Q) :=
  let raw := Str.trim (stat_raw stat) in
  if Str.isEmpty raw then None
  else
    let '(label, valueStr) := splitStat raw in
    let attrName := Str.trim (Words.before "(" label) in
    let numVal :=
      match search (Grp 1 numberRe) valueStr with
      | Some c => Num.parseFloat (group 1 c)
      | None => None
      end in
    Some (attrName, numVal).

(** [mod.negAttributes] after the first loop over the stats. *)
Definition negAttrsOf (m : ModuleRecord) : list string :=
  fold_left (fun acc stat =>
               match negEntry stat with
               | Some a => if includes a acc then acc else (acc ++ [a])%list
               | None => acc
               end) (stats m) (negAttributes m).

Definition setEntries (entry : Stat -> option (string * option Q))
           (sts : list Stat) (vals : gmap string (option Q))
  : gmap string (option Q) :=
  fold_left (fun acc stat =>
               match entry stat with
               | Some (a, v) => <[a := v]> acc
               | None => acc
               end) sts vals.

(** [mod.attrValues] after the second loop. *)
Definition attrValuesOf (m : ModuleRecord) : gmap string (option Q) :=
  setEntries attrEntry (stats m) (attrValues m).

(** [mod.triggerValues] after the loop run in trigger mode. *)
Definition triggerValuesOf (m : ModuleRecord) : gmap string (option Q) :=
  setEntries triggerEntry (stats m) (triggerValues m).

(** The update of [attrRangeMap[attrName]] and of
    [triggerAttrMap[attrName]] by one value: a first value opens the range,
    a later one that is a number widens it. *)
Definition noteRange (a : string) (avg : option Q) (t : gmap string Range)
  : gmap string Range :=
  match t !! a with
  | None => <[a := mkRange avg avg]> t
  | Some range =>
      match avg with
      | None => t
      | Some v =>
          <[a := {| rmin := match rmin range with
                            | Some lo => if Num.ltb v lo then Some v
                                         else Some lo
                            | None => Some v
                            end;
                    rmax := match rmax range with
                            | Some hi => if Num.gtb v hi then Some v
                                         else Some hi
                            | None => Some v
                            end |}]> t
      end
  end.

Definition noteRanges (entry : Stat -> option (string * option Q))
           (sts : list Stat) (t : gmap string Range) : gmap string Range :=
  fold_left (fun acc stat =>
               match entry stat with
               | Some (a, v) => noteRange a v acc
               | None => acc
               end) sts t.

(** [if (!triggerFilterValues[attrName])
       triggerFilterValues[attrName] = { min: null, max: null }] *)
Definition ensureFilter (a : string) (t : RangeTable) : RangeTable :=
  if existsb (fun e => String.eqb (fst e) a) t then t
  else (t ++ [(a, mkRange None None)])%list.

(** The tables [appendModules] keeps beside the records: the names in
    [negAttributes] (shown in the order of [localeCompare]),
    [attrRangeMap], [triggerAttrMap] (empty while it is [null]) and
    [triggerFilterValues]. *)
Record Tables : Type := mkTables {
  tbl_negAttributes : gset string;
  tbl_attrRangeMap : gmap string Range;
  tbl_triggerAttrMap : gmap string Range;
  tbl_triggerFilterValues : RangeTable
}.

(** What one appended record adds to the tables. *)
Definition learnStats (trigger : bool) (t : Tables) (m : ModuleRecord)
  : Tables :=
  {| tbl_negAttributes :=
       fold_left (fun acc stat =>
                    match negEntry stat with
                    | Some a => {[ a ]} ∪ acc
                    | None => acc
                    end) (stats m) (tbl_negAttributes t);
     tbl_attrRangeMap := noteRanges attrEntry (stats m) (tbl_attrRangeMap t);
     tbl_triggerAttrMap :=
       if trigger
       then noteRanges triggerEntry (stats m) (tbl_triggerAttrMap t)
       else tbl_triggerAttrMap t;
     tbl_triggerFilterValues :=
       if trigger
       then fold_left (fun acc stat =>
                         match triggerEntry stat with
                         | Some (a, _) => ensureFilter a acc
                         | None => acc
                         end) (stats m) (tbl_triggerFilterValues t)
       else tbl_triggerFilterValues t |}.

(** [appendModules] with what it reads from the stats. *)
Definition appendStats (trigger : bool) (s : Store Tables)
           (newData : list ModuleRecord) : Store Tables :=
  appendModules negAttrsOf attrValuesOf triggerValuesOf (learnStats trigger)
                trigger s newData.

(** The range recorded for [a] has both ends set and holds [v]. *)
Definition covers (t : gmap string Range) (a : string) (v : Q) : Prop :=
  exists range lo hi,
    t !! a = Some range /\ rmin range = Some lo /\ rmax range = Some hi
    /\ (lo <= v)%Q /\ (v <= hi)%Q.

(** The tables account for a stored record: each of its attribute values
    lies in the recorded range, each of its negative attribute names is
    listed, and in trigger mode each of its trigger values lies in the
    recorded range and has a filter entry. *)
Definition accounted (trigger : bool) (t : Tables) (m : ModuleRecord)
  : Prop :=
  (forall a v, attrValues m !! a = Some (Some v) ->
               covers (tbl_attrRangeMap t) a v)
  /\ (forall a, In a (negAttributes m) -> a ∈ tbl_negAttributes t)
  /\ (trigger = true ->
      forall a x, triggerValues m !! a = Some x ->
                  In a (map fst (tbl_triggerFilterValues t))
                  /\ forall v, x = Some v ->
                               covers (tbl_triggerAttrMap t) a v).

(** A record as the main process sends it: nothing attached yet. *)
Definition bare (m : ModuleRecord) : Prop :=
  negAttributes m = [] /\ attrValues m = ∅ /\ triggerValues m = ∅.

Definition noTables : Tables :=
  {| tbl_negAttributes := ∅; tbl_attrRangeMap := ∅;
     tbl_triggerAttrMap := ∅; tbl_triggerFilterValues := [] |}.

(** A listing with one positive and one negative line. *)
Definition skillPower : ModuleRecord :=
  {| name := "Ajax"; category := "Ancestors"; socketType := "Rutile";
     requiredRank := "12"; price := "1,500"; platform := "Steam";
     rerollCount := "2"; sellerName := "alice"; sellerStatus := "Online";
     sellerRank := "20"; regDate := "3 days ago";
     attributes := ["Skill Power"; "Skill Cost"];
     stats := [ {| stat_raw := "(+) Skill Power [37.2~140.3]%";
                   stat_positive := true; stat_negative := false;
                   stat_value := "88.5%" |};
                {| stat_raw := "(-) Skill Cost [1.5~4.5]%";
                   stat_positive := false; stat_negative := true;
                   stat_value := "" |} ];
     negAttributes := []; attrValues := ∅; triggerValues := ∅;
     __mrVal := None; __rerollVal := None;
     __ageDays := None; __ageHours := None |}.


(* ===================================================================== *)
(** * Shapes of text                                                      *)
(* ===================================================================== *)

Definition notSpace (a : ascii) : bool := negb (Str.isSpace a).

Definition notChar (c a : ascii) : bool := negb (Ascii.eqb a c).

(** The first character is whitespace. *)
Definition startsBlank (s : string) : bool :=
  match s with
  | String a _ => Str.isSpace a
  | EmptyString => false
  end.

(** No whitespace in front and none at the end. *)
Definition tidy (s : string) : bool :=
  negb (startsBlank s) && negb (startsBlank (Str.rev s)).

(** A word: not empty, no whitespace in it. *)
Definition isWord (w : string) : bool :=
  negb (Str.isEmpty w) && Str.all notSpace w.


(** [attrs] lists, each once, the names among [names] that are not
    empty. *)
Definition listed (names attrs : list string) : Prop :=
  List.NoDup attrs /\ (forall a, In a attrs <-> a <> "" /\ In a names).

(** [label] and [value] of an option in [parseTrigger]. *)
Definition labelOf (opt : OptionEl) : string :=
  match optionName opt with
  | Some text => Str.trim text
  | None => EmptyString
  end.

Definition valueOf (opt : OptionEl) : string :=
  match optionValue opt with
  | Some v => Str.trim v
  | None => EmptyString
  end.

(* ===================================================================== *)
(** * main.js: the [stop-search] handler                                  *)
(* ===================================================================== *)

(** [stop-search] on an existing entry: the entry it leaves, and the two
    messages it sends to the hub, a terminal snapshot of [entry.data]
    without an error and the stop notice.  The loop of a search that is
    still going on is not told. *)
Definition stopSearch (e : Entry) : Entry * list TabInput :=
  ({| running := false; entryData := entryData e; windowClosed := true |},
   [FromMain (SearchUpdated (entryData e) true None); SearchStopped]).

(** A tab that no longer shows its search as going on: the stop button is
    disabled, and the tab shows either the failure status with the retry
    controls, or the finished status with the number of records last
    handed to the view and no retry controls. *)
Definition settled (t : Tab) : Prop :=
  stopDisabled t = true
  /\ ((In Failing (statusEl t) /\ statusText t = Literally "Failed"
       /\ retryBtnShown t = true /\ retryMsgShown t = true)
      \/ (In Finished (statusEl t)
          /\ statusText t = Complete (List.length (List.last (posted t) []))
          /\ retryBtnShown t = false /\ retryMsgShown t = false)).


(* ===================================================================== *)
(** * The identity of a listing in the two stores                         *)
(* ===================================================================== *)

(** The name and the price of [m] hold no [|], the separator of the key
    string of the loop. *)
Definition plainKey (m : ModuleRecord) : bool :=
  Str.all (notChar "|") (name m) && Str.all (notChar "|") (price m).

(** Number of records of [l] with the name, the price and the seller of
    [m], compared field by field as [modules.some] does. *)
Definition held (m : ModuleRecord) (l : list ModuleRecord) : nat :=
  List.length (List.filter (fun x => sameListing x m) l).

(** A listing read from an element without a name. *)
Definition nameless : ModuleRecord :=
  {| name := ""; category := "Ancestors"; socketType := "";
     requiredRank := ""; price := "500"; platform := "Steam";
     rerollCount := ""; sellerName := "Ajax"; sellerStatus := "Online";
     sellerRank := ""; regDate := "3 days ago";
     attributes := []; stats := [];
     negAttributes := []; attrValues := ∅; triggerValues := ∅;
     __mrVal := None; __rerollVal := None;
     __ageDays := None; __ageHours := None |}.

(** Two listings that differ in name and in price and have the same key
    string, ["A|B|1|Ajax"]. *)
Definition pipeInPrice : ModuleRecord :=
  {| name := "A"; category := "Ancestors"; socketType := "";
     requiredRank := ""; price := "B|1"; platform := "Steam";
     rerollCount := ""; sellerName := "Ajax"; sellerStatus := "Online";
     sellerRank := ""; regDate := "3 days ago";
     attributes := []; stats := [];
     negAttributes := []; attrValues := ∅; triggerValues := ∅;
     __mrVal := None; __rerollVal := None;
     __ageDays := None; __ageHours := None |}.

Definition pipeInName : ModuleRecord :=
  {| name := "A|B"; category := "Ancestors"; socketType := "";
     requiredRank := ""; price := "1"; platform := "Steam";
     rerollCount := ""; sellerName := "Ajax"; sellerStatus := "Online";
     sellerRank := ""; regDate := "3 days ago";
     attributes := []; stats := [];
     negAttributes := []; attrValues := ∅; triggerValues := ∅;
     __mrVal := None; __rerollVal := None;
     __ageDays := None; __ageHours := None |}.


(* ===================================================================== *)
(** * Properties: strings, numerals and the age pattern                   *)
(* ===================================================================== *)

(** First character of a string satisfies [p]. *)
Definition headIs (p : ascii -> bool) (s : string) : bool :=
  match s with
  | String a _ => p a
  | EmptyString => false
  end.

Lemma append_nil (t : string) : "" ++ t = t.
Proof. reflexivity. Qed.

Lemma append_cons (a : ascii) (s t : string) :
  String a s ++ t = String a (s ++ t).
Proof. reflexivity. Qed.

(** Push [++] through the constructors of its first argument. *)
Ltac sapp := rewrite ?append_cons, ?append_nil in *.

Lemma length_append (a b : string) :
  String.length (a ++ b) = (String.length a + String.length b)%nat.
Proof. induction a as [|c a IH]; sapp; simpl; [reflexivity | now rewrite IH]. Qed.

Lemma append_empty_r (a : string) : a ++ "" = a.
Proof. induction a as [|c a IH]; sapp; simpl; [reflexivity | now rewrite IH]. Qed.

Lemma append_assoc (a b c : string) : (a ++ b) ++ c = a ++ (b ++ c).
Proof. induction a as [|x a IH]; sapp; simpl; [reflexivity | now rewrite IH]. Qed.

Lemma take_append (a b : string) :
  Str.take (String.length (a ++ b) - String.length b) (a ++ b) = a.
Proof.
  rewrite length_append.
  replace (String.length a + String.length b - String.length b)%nat
    with (String.length a) by lia.
  induction a as [|c a IH]; sapp; simpl.
  - destruct b; reflexivity.
  - now rewrite IH.
Qed.

Lemma isDigit_not_upper (a : ascii) :
  Str.isDigit a = true -> Str.isUpper a = false.
Proof.
  unfold Str.isDigit, Str.isUpper. intros H.
  apply andb_true_iff in H as [_ H]. apply Nat.leb_le in H.
  apply andb_false_iff. left. apply Nat.leb_gt. lia.
Qed.

Lemma toLowerCase_append (a b : string) :
  Str.toLowerCase (a ++ b) = Str.toLowerCase a ++ Str.toLowerCase b.
Proof. induction a as [|c a IH]; sapp; simpl; [reflexivity | now rewrite IH]. Qed.

Lemma toLowerCase_digits (s : string) :
  Str.all Str.isDigit s = true -> Str.toLowerCase s = s.
Proof.
  induction s as [|c s IH]; simpl; [reflexivity |].
  intros H. apply andb_true_iff in H as [Hc Hs].
  unfold Str.lowerChar. rewrite (isDigit_not_upper _ Hc). now rewrite IH.
Qed.

Lemma span_append (p : ascii -> bool) (x rest : string) :
  Str.all p x = true -> headIs p rest = false ->
  Num.span p (x ++ rest) = (x, rest).
Proof.
  intros Hx Hr. induction x as [|c x IH]; sapp; simpl in *.
  - destruct rest as [|a rest]; simpl in *; [reflexivity | now rewrite Hr].
  - apply andb_true_iff in Hx as [Hc Hx]. rewrite Hc, (IH Hx). reflexivity.
Qed.

Section RegexFacts.
Context {R : Type}.
Implicit Types (K : string -> captures -> option R).

(** A greedy run over [x] followed by text that does not continue the run
    hands exactly that text to the continuation. *)
Lemma star_append p x rest c K y :
  Str.all p x = true -> headIs p rest = false ->
  K rest c = Some y ->
  star p (x ++ rest) c K = Some y.
Proof.
  intros Hx Hr HK. induction x as [|a x IH]; sapp; simpl in *.
  - destruct rest as [|b rest]; simpl in *; [exact HK | now rewrite Hr].
  - apply andb_true_iff in Hx as [Ha Hx]. rewrite Ha, (IH Hx). reflexivity.
Qed.

Lemma star_stop p s c K : headIs p s = false -> star p s c K = K s c.
Proof. destruct s as [|a s]; simpl; [reflexivity | now intros ->]. Qed.

Lemma plus_append p x rest c K y :
  x <> "" -> Str.all p x = true -> headIs p rest = false ->
  K rest c = Some y ->
  run (Plus p) (x ++ rest) c K = Some y.
Proof.
  intros Hne Hx Hr HK. destruct x as [|a x]; [congruence |].
  sapp. simpl in *. apply andb_true_iff in Hx as [Ha Hx]. rewrite Ha.
  now apply star_append.
Qed.

Lemma run_Lit t s c K :
  run (Lit t) s c K
  = match Str.stripPrefix t s with Some s' => K s' c | None => None end.
Proof. reflexivity. Qed.

Lemma run_Seq r1 r2 s c K :
  run (Seq r1 r2) s c K = run r1 s c (fun s' c' => run r2 s' c' K).
Proof. reflexivity. Qed.

Lemma run_Opt r s c K :
  run (Opt r) s c K
  = match run r s c K with Some x => Some x | None => K s c end.
Proof. reflexivity. Qed.

Lemma run_Star p s c K : run (Star p) s c K = star p s c K.
Proof. reflexivity. Qed.

Lemma star_cons p a s c K :
  star p (String a s) c K
  = if p a then match star p s c K with Some x => Some x
                                      | None => K (String a s) c end
    else K (String a s) c.
Proof. reflexivity. Qed.

Lemma run_Grp n r s c K :
  run (Grp n r) s c K
  = run r s c (fun s' c' =>
      K s' ((n, Str.take (String.length s - String.length s') s) :: c')).
Proof. reflexivity. Qed.

(** The number group on an integer numeral. *)
Lemma run_number_int ip rest c K y :
  ip <> "" -> Str.all Str.isDigit ip = true ->
  headIs Str.isDigit rest = false ->
  headIs (Ascii.eqb ".") rest = false ->
  K rest ((1%nat, ip) :: c) = Some y ->
  run (Grp 1 numberRe) (ip ++ rest) c K = Some y.
Proof.
  intros Hne Hd Hr Hdot HK.
  rewrite run_Grp. unfold numberRe. rewrite run_Seq.
  apply plus_append; try assumption.
  rewrite run_Opt, run_Seq, run_Lit.
  assert (Str.stripPrefix "." rest = None) as ->.
  { destruct rest as [|a rest]; simpl in *; [reflexivity | now rewrite Hdot]. }
  now rewrite take_append.
Qed.

(** The number group on a numeral with a fraction. *)
Lemma run_number_frac ip fp rest c K y :
  ip <> "" -> Str.all Str.isDigit ip = true ->
  fp <> "" -> Str.all Str.isDigit fp = true ->
  headIs Str.isDigit rest = false ->
  K rest ((1%nat, ip ++ "." ++ fp) :: c) = Some y ->
  run (Grp 1 numberRe) (ip ++ "." ++ fp ++ rest) c K = Some y.
Proof.
  intros Hne Hd Hfne Hfd Hr HK.
  rewrite run_Grp. unfold numberRe. rewrite run_Seq.
  apply plus_append; try assumption; [reflexivity |].
  rewrite run_Opt, run_Seq, run_Lit. sapp. simpl Str.stripPrefix.
  lazy beta iota.
  erewrite plus_append; [reflexivity | assumption .. |].
  replace (ip ++ String "." (fp ++ rest)) with ((ip ++ String "." fp) ++ rest)
    by (rewrite !append_assoc; now sapp).
  now rewrite take_append.
Qed.

End RegexFacts.

Lemma search_here r s y :
  run r s [] (fun _ c => Some c) = Some y -> search r s = Some y.
Proof. intros H. destruct s; simpl; now rewrite H. Qed.

Lemma isEmpty_append_l (a b : string) : a <> "" -> Str.isEmpty (a ++ b) = false.
Proof. destruct a; [congruence | reflexivity]. Qed.

Lemma span_all (p : ascii -> bool) (x : string) :
  Str.all p x = true -> Num.span p x = (x, "").
Proof.
  intros H. rewrite <- (append_empty_r x) at 1.
  now apply span_append.
Qed.

Lemma parseFloat_int (ip : string) :
  ip <> "" -> Str.all Str.isDigit ip = true ->
  Num.parseFloat ip = Some (Num.decimal ip "").
Proof.
  intros Hne Hd. unfold Num.parseFloat. rewrite (span_all _ _ Hd).
  destruct ip; [congruence | reflexivity].
Qed.

Lemma parseFloat_frac (ip fp : string) :
  ip <> "" -> Str.all Str.isDigit ip = true ->
  Str.all Str.isDigit fp = true ->
  Num.parseFloat (ip ++ "." ++ fp) = Some (Num.decimal ip fp).
Proof.
  intros Hne Hd Hf. unfold Num.parseFloat.
  rewrite (span_append Str.isDigit ip ("." ++ fp) Hd eq_refl).
  sapp. rewrite (span_all _ _ Hf).
  destruct ip; [congruence | reflexivity].
Qed.

Lemma parseFloat_numeral (ip fp : string) :
  ip <> "" -> Str.all Str.isDigit ip = true ->
  Str.all Str.isDigit fp = true ->
  Num.parseFloat (numeral ip fp) = Some (Num.decimal ip fp).
Proof.
  intros Hne Hd Hf. unfold numeral. destruct fp as [|a fp].
  - now apply parseFloat_int.
  - now apply parseFloat_frac.
Qed.

(** The age pattern matches a numeral followed by a unit at the start of
    the text and captures the numeral and the singular unit. *)
Lemma search_age (ip fp unit tail : string) :
  ip <> "" -> Str.all Str.isDigit ip = true ->
  Str.all Str.isDigit fp = true ->
  run (Grp 2 unitRe) (unit ++ tail) [(1%nat, numeral ip fp)]
      (fun _ c => Some c) = Some [(2%nat, unit); (1%nat, numeral ip fp)] ->
  headIs Str.isSpace (unit ++ tail) = false ->
  search ageRe (numeral ip fp ++ " " ++ unit ++ tail)
  = Some [(2%nat, unit); (1%nat, numeral ip fp)].
Proof.
  intros Hne Hd Hf Hunit Hsp. apply search_here.
  unfold ageRe. rewrite run_Seq.
  assert (run (Seq (Star Str.isSpace) (Grp 2 unitRe)) (" " ++ unit ++ tail)
            [(1%nat, numeral ip fp)] (fun _ c => Some c)
          = Some [(2%nat, unit); (1%nat, numeral ip fp)]) as HK.
  { rewrite run_Seq, run_Star. sapp. rewrite star_cons.
    change (Str.isSpace " ") with true. cbn iota.
    rewrite (star_stop _ _ _ _ Hsp), Hunit. reflexivity. }
  unfold numeral in *. destruct fp as [|a fp]; simpl Str.isEmpty in *; cbn iota in *.
  - apply run_number_int; try assumption; reflexivity.
  - rewrite !append_assoc. apply run_number_frac; try assumption.
    + discriminate.
    + reflexivity.
Qed.

Lemma times24_zero (v : Q) : (v * 24 == 0)%Q <-> (v == 0)%Q.
Proof. unfold Qeq, Qmult. cbn [Qnum Qden]. lia. Qed.

(** C8.  For a registration date written as a number N (digits, with or
    without a point and further digits) followed by [" days ago"],
    [parseAgeToHours] returns N times 24, and for N followed by
    [" hours ago"] it returns N.  The hour value of a day-phrased entry is
    thus 24 times the number [parseFloat] reads, not the zero announced by
    the comment above the function: it is zero only where the number read
    is. *)
Theorem parseAgeToHours_numeral (ip fp : string) :
  ip <> "" -> Str.all Str.isDigit ip = true ->
  Str.all Str.isDigit fp = true ->
  parseAgeToHours (numeral ip fp ++ " days ago")
    = Some (Num.decimal ip fp * 24)%Q
  /\ parseAgeToHours (numeral ip fp ++ " hours ago")
    = Some (Num.decimal ip fp)
  /\ (forall h, parseAgeToHours (numeral ip fp ++ " days ago") = Some h ->
        exists v, Num.parseFloat (numeral ip fp) = Some v
                  /\ h = (v * 24)%Q
                  /\ ((h == 0)%Q <-> (v == 0)%Q)).
Proof.
  intros Hne Hd Hf.
  assert (Hnum : numeral ip fp <> "").
  { unfold numeral. destruct fp; simpl; [assumption |].
    destruct ip; [congruence | discriminate]. }
  assert (Hlow : forall t, Str.toLowerCase (numeral ip fp ++ t)
                           = numeral ip fp ++ Str.toLowerCase t).
  { intros t. rewrite toLowerCase_append. f_equal.
    unfold numeral. destruct fp as [|a fp]; simpl Str.isEmpty; cbn iota.
    - now apply toLowerCase_digits.
    - rewrite !toLowerCase_append, (toLowerCase_digits ip Hd),
        (toLowerCase_digits _ Hf). reflexivity. }
  assert (Hdays : parseAgeToHours (numeral ip fp ++ " days ago")
                  = Some (Num.decimal ip fp * 24)%Q).
  { unfold parseAgeToHours.
    rewrite (isEmpty_append_l _ _ Hnum), Hlow.
    change (Str.toLowerCase " days ago") with (" " ++ "day" ++ "s ago").
    rewrite (search_age ip fp "day" "s ago" Hne Hd Hf eq_refl eq_refl).
    cbn [group Nat.eqb]. rewrite (parseFloat_numeral ip fp Hne Hd Hf).
    reflexivity. }
  split; [exact Hdays | split].
  - unfold parseAgeToHours.
    rewrite (isEmpty_append_l _ _ Hnum), Hlow.
    change (Str.toLowerCase " hours ago") with (" " ++ "hour" ++ "s ago").
    rewrite (search_age ip fp "hour" "s ago" Hne Hd Hf eq_refl eq_refl).
    cbn [group Nat.eqb]. rewrite (parseFloat_numeral ip fp Hne Hd Hf).
    reflexivity.
  - intros h Hh. rewrite Hdays in Hh. injection Hh as <-.
    exists (Num.decimal ip fp).
    split; [now apply parseFloat_numeral | split; [reflexivity |]].
    apply times24_zero.
Qed.

Lemma parseAgeToHours_numeral_witness :
  parseAgeToHours (numeral "3" "" ++ " days ago")
  = Some (Num.decimal "3" "" * 24)%Q
  /\ parseAgeToHours (numeral "1" "5" ++ " hours ago")
     = Some (Num.decimal "1" "5").
Proof.
  split.
  - exact (proj1 (parseAgeToHours_numeral "3" "" ltac:(discriminate)
                    eq_refl eq_refl)).
  - exact (proj1 (proj2 (parseAgeToHours_numeral "1" "5" ltac:(discriminate)
                           eq_refl eq_refl))).
Defined.

(* ===================================================================== *)
(** * Properties: the filter of [updateResults]                           *)
(* ===================================================================== *)

Lemma ltb_false_iff (x y : Q) : Num.ltb x y = false <-> (y <= x)%Q.
Proof.
  unfold Num.ltb. rewrite negb_false_iff. apply Qle_bool_iff.
Qed.

Lemma gtb_false_iff (x y : Q) : Num.gtb x y = false <-> (x <= y)%Q.
Proof. unfold Num.gtb. apply ltb_false_iff. Qed.

Lemma ltb_true_iff (x y : Q) : Num.ltb x y = true <-> (x < y)%Q.
Proof.
  unfold Num.ltb. rewrite negb_true_iff. split.
  - intros H. apply Qnot_le_lt. intros Hle.
    apply Qle_bool_iff in Hle. congruence.
  - intros H. destruct (Qle_bool y x) eqn:E; [| reflexivity].
    apply Qle_bool_iff in E. exfalso. exact (Qlt_not_le _ _ H E).
Qed.

(** One selected attribute: the record must carry it, and a parsed value,
    when there is one, must lie between the bounds that are set, ends
    included. *)
Lemma attrOk_spec (ranges : RangeTable) (m : ModuleRecord) (attr : string) :
  attrOk ranges m attr = true <->
  includes attr (attributes m) = true
  /\ forall v, attrValue m attr = Some v ->
       (forall lo, rmin (rangeOf attr ranges) = Some lo -> (lo <= v)%Q)
       /\ (forall hi, rmax (rangeOf attr ranges) = Some hi -> (v <= hi)%Q).
Proof.
  unfold attrOk.
  destruct (includes attr (attributes m)); simpl;
    [| split; [discriminate | intros [? _]; discriminate]].
  destruct (attrValue m attr) as [v|].
  - destruct (rmin (rangeOf attr ranges)) as [lo|],
             (rmax (rangeOf attr ranges)) as [hi|];
      rewrite ?andb_true_iff, ?negb_true_iff, ?ltb_false_iff, ?gtb_false_iff;
      split.
    + intros [H1 H2]. split; [reflexivity |].
      intros v' [= <-]. split; intros ? [= <-]; assumption.
    + intros [_ H]. destruct (H v eq_refl) as [H1 H2]. auto.
    + intros [H1 _]. split; [reflexivity |].
      intros v' [= <-]. split; [intros ? [= <-]; assumption | discriminate].
    + intros [_ H]. destruct (H v eq_refl) as [H1 _]. auto.
    + intros [_ H2]. split; [reflexivity |].
      intros v' [= <-]. split; [discriminate | intros ? [= <-]; assumption].
    + intros [_ H]. destruct (H v eq_refl) as [_ H2]. auto.
    + intros _. split; [reflexivity |].
      intros v' [= <-]. split; discriminate.
    + intros _. split; reflexivity.
  - destruct (rmin (rangeOf attr ranges)), (rmax (rangeOf attr ranges));
      simpl; (split; [intros _; split; [reflexivity | discriminate]
                     | reflexivity]).
Qed.

Lemma attrMatch_spec (f : Filters) (m : ModuleRecord) :
  attrMatch f m = true <->
  forall attr, In attr (selectedAttrs f) ->
    includes attr (attributes m) = true
    /\ forall v, attrValue m attr = Some v ->
         (forall lo, rmin (rangeOf attr (selectedAttrRanges f)) = Some lo ->
                     (lo <= v)%Q)
         /\ (forall hi, rmax (rangeOf attr (selectedAttrRanges f)) = Some hi ->
                        (v <= hi)%Q).
Proof.
  unfold attrMatch. rewrite forallb_forall. split.
  - intros H attr Hin. apply attrOk_spec. now apply H.
  - intros H attr Hin. apply attrOk_spec. now apply H.
Qed.

(** C4.  In [updateResults] a record matches the selected attributes
    exactly when it carries each of them and, for each one with a parsed
    value, that value lies within the bounds typed for it, ends included;
    a missing ([null]) value is never a reason to drop the record.  So a
    record with value 10.0 for ["Power"] is shown under the range
    [10.0, 10.0] and not under [10.01, 20], and a record with a [null]
    value is shown under any range. *)
Theorem attr_range_inclusive_and_null_passes :
  (forall (f : Filters) (m : ModuleRecord),
     attrMatch f m = true <->
     forall attr, In attr (selectedAttrs f) ->
       includes attr (attributes m) = true
       /\ forall v, attrValue m attr = Some v ->
            (forall lo, rmin (rangeOf attr (selectedAttrRanges f)) = Some lo ->
                        (lo <= v)%Q)
            /\ (forall hi, rmax (rangeOf attr (selectedAttrRanges f)) = Some hi ->
                           (v <= hi)%Q))
  /\ (filtered (powerOnly (mkRange (Some 10%Q) (Some 10%Q))) [powerTen]
      = [powerTen]
      /\ filtered (powerOnly (mkRange (Some (1001 # 100)) (Some 20%Q)))
                  [powerTen] = [])
  /\ (forall range : Range,
        filtered (powerOnly range) [powerNull] = [powerNull]).
Proof.
  split; [exact attrMatch_spec |]. split.
  - split; reflexivity.
  - intros [lo hi]. destruct lo, hi; reflexivity.
Qed.

(** In trigger mode the rank and reroll bounds are not read. *)
Lemma passes_withRankFilters (a b c d : option Z) (f : Filters)
      (m : ModuleRecord) :
  isTriggerMode f = true ->
  passes (withRankFilters a b c d f) m = passes f m.
Proof.
  intros Ht. unfold passes, mrMatch, rerollMatch.
  cbn [withRankFilters isTriggerMode]. rewrite Ht. reflexivity.
Qed.

(** C5.  In trigger mode the records shown by [updateResults] are the
    same whatever the four values of the required-rank and reroll-count
    bounds: two filter states that differ only there select the same
    records. *)
Theorem trigger_mode_ignores_rank_and_rerolls
        (a b c d : option Z) (f : Filters) (modules : list ModuleRecord) :
  isTriggerMode f = true ->
  filtered (withRankFilters a b c d f) modules = filtered f modules.
Proof.
  intros Ht. unfold filtered. apply filter_ext.
  intros m. now apply passes_withRankFilters.
Qed.

Lemma trigger_mode_ignores_rank_and_rerolls_witness :
  filtered (withRankFilters (Some 5) (Some 7) (Some 1) (Some 2)
                            triggerNeutral) [powerBeyond]
  = filtered triggerNeutral [powerBeyond].
Proof.
  exact (trigger_mode_ignores_rank_and_rerolls
           (Some 5) (Some 7) (Some 1) (Some 2)
           triggerNeutral [powerBeyond] eq_refl).
Defined.

Lemma triggerOk_no_value (m : ModuleRecord) (attr : string) (range : Range) :
  triggerValue m attr = None ->
  rmin range <> None \/ rmax range <> None ->
  triggerOk m (attr, range) = false.
Proof.
  intros Hv Hset. unfold triggerOk. rewrite Hv.
  destruct range as [[lo|] [hi|]]; simpl in *; try reflexivity.
  destruct Hset; congruence.
Qed.

(** C10.  In trigger mode, with the trigger filters built, a record whose
    [triggerValues] has no entry, or a [null] entry, for an attribute is
    dropped as soon as a minimum or a maximum is set for that attribute. *)
Theorem trigger_filter_drops_missing_value
        (f : Filters) (m : ModuleRecord) (attr : string) (range : Range)
        (modules : list ModuleRecord) :
  isTriggerMode f = true ->
  triggerAttrMap f <> None ->
  In (attr, range) (triggerFilterValues f) ->
  rmin range <> None \/ rmax range <> None ->
  triggerValues m !! attr = None \/ triggerValues m !! attr = Some None ->
  passes f m = false /\ ~ In m (filtered f modules).
Proof.
  intros Ht Hmap Hin Hset Hval.
  assert (Hv : triggerValue m attr = None).
  { unfold triggerValue. destruct Hval as [-> | ->]; reflexivity. }
  assert (Hp : passes f m = false).
  { assert (Htm : triggerMatch f m = false).
    { unfold triggerMatch. rewrite Ht.
      destruct (triggerAttrMap f); [| congruence].
      apply not_true_is_false. intros Hall.
      rewrite forallb_forall in Hall. specialize (Hall _ Hin).
      rewrite (triggerOk_no_value m attr range Hv Hset) in Hall.
      discriminate. }
    unfold passes. rewrite Htm.
    repeat (rewrite ?andb_false_r; simpl). reflexivity. }
  split; [exact Hp |].
  unfold filtered. rewrite filter_In. intros [_ H]. congruence.
Qed.

Lemma trigger_filter_drops_missing_value_witness :
  passes firearmAtLeast5 powerBeyond = false
  /\ ~ In powerBeyond (filtered firearmAtLeast5 [powerBeyond]).
Proof.
  apply (trigger_filter_drops_missing_value firearmAtLeast5 powerBeyond
           "Firearm ATK" (mkRange (Some 5%Q) None) [powerBeyond]).
  - reflexivity.
  - discriminate.
  - left. reflexivity.
  - left. discriminate.
  - left. reflexivity.
Defined.

(* ===================================================================== *)
(** * Properties: the record stores                                       *)
(* ===================================================================== *)

Lemma storeOk_init : storeOk initLoop.
Proof.
  split; simpl; [constructor |]. intros k. split; [| tauto].
  intros H. exfalso. revert H. apply not_elem_of_empty.
Qed.

Lemma mergeModule_seen (st : LoopState) (m : ModuleRecord) :
  key m ∈ seen st -> mergeModule st m = st.
Proof.
  intros H. unfold mergeModule. now rewrite bool_decide_eq_true_2.
Qed.

Lemma mergeModule_fresh (st : LoopState) (m : ModuleRecord) :
  key m ∉ seen st ->
  mergeModule st m
  = {| seen := {[ key m ]} ∪ seen st; deduped := deduped st ++ [m];
       lastCount := lastCount st; stable := stable st |}.
Proof.
  intros H. unfold mergeModule. now rewrite bool_decide_eq_false_2.
Qed.

Lemma NoDup_snoc {A : Type} (l : list A) (x : A) :
  List.NoDup l -> ~ In x l -> List.NoDup (l ++ [x]).
Proof.
  induction l as [|a l IH]; simpl; intros Hnd Hx.
  - constructor; [tauto | constructor].
  - inversion Hnd as [|? ? Ha Hl]; subst. constructor.
    + rewrite in_app_iff. simpl. intros [H | [H | []]]; [tauto |].
      apply Hx. now left.
    + apply IH; [assumption |]. intros H. apply Hx. now right.
Qed.

Lemma storeOk_mergeModule (st : LoopState) (m : ModuleRecord) :
  storeOk st -> storeOk (mergeModule st m).
Proof.
  intros [Hnd Hseen]. destruct (decide (key m ∈ seen st)) as [Hin | Hout].
  - rewrite mergeModule_seen by assumption. now split.
  - rewrite mergeModule_fresh by assumption. split; simpl.
    + rewrite map_app. simpl. apply NoDup_snoc; [assumption |].
      intros H. apply Hout. now apply Hseen.
    + intros k. rewrite map_app, in_app_iff, elem_of_union,
        elem_of_singleton, Hseen. simpl. intuition congruence.
Qed.

Lemma storeOk_mergeModules (ms : list ModuleRecord) :
  forall st, storeOk st -> storeOk (mergeModules st ms).
Proof.
  unfold mergeModules. induction ms as [|m ms IH]; intros st H; simpl.
  - exact H.
  - apply IH. now apply storeOk_mergeModule.
Qed.

Lemma storeOk_updateStability (c : Z) (st : LoopState) :
  storeOk st -> storeOk (updateStability c st).
Proof.
  unfold storeOk, updateStability.
  now destruct (c =? lastCount st).
Qed.

Lemma mergeModule_key_seen (st : LoopState) (m : ModuleRecord) :
  key m ∈ seen (mergeModule st m).
Proof.
  destruct (decide (key m ∈ seen st)) as [Hin | Hout].
  - now rewrite mergeModule_seen.
  - rewrite mergeModule_fresh by assumption. simpl. set_solver.
Qed.

Lemma stored_app (m : ModuleRecord) (l1 l2 : list ModuleRecord) :
  stored m (l1 ++ l2) = (stored m l1 + stored m l2)%nat.
Proof. unfold stored. now rewrite List.filter_app, List.length_app. Qed.

Lemma stored_zero (m : ModuleRecord) (l : list ModuleRecord) :
  ~ In (key m) (map key l) -> stored m l = 0%nat.
Proof.
  unfold stored. induction l as [|x l IH]; simpl; [reflexivity |].
  intros H. destruct (String.eqb_spec (key x) (key m)) as [E | _].
  - exfalso. apply H. now left.
  - apply IH. intros Hin. apply H. now right.
Qed.

Lemma stored_one (m : ModuleRecord) (l : list ModuleRecord) :
  List.NoDup (map key l) -> In (key m) (map key l) -> stored m l = 1%nat.
Proof.
  unfold stored. induction l as [|x l IH]; simpl; [tauto |].
  intros Hnd Hin. apply List.NoDup_cons_iff in Hnd as [Hx Hnd].
  destruct (String.eqb_spec (key x) (key m)) as [E | Hne].
  - simpl. f_equal. apply (stored_zero m l). now rewrite <- E.
  - apply IH; [assumption |]. destruct Hin; [congruence | assumption].
Qed.

Lemma key_same (a b : ModuleRecord) :
  name a = name b -> price a = price b -> sellerName a = sellerName b ->
  key a = key b.
Proof. unfold key. now intros -> -> ->. Qed.

Lemma sameListing_iff (a b : ModuleRecord) :
  sameListing a b = true <->
  name a = name b /\ price a = price b /\ sellerName a = sellerName b.
Proof.
  unfold sameListing. rewrite !andb_true_iff, !String.eqb_eq. tauto.
Qed.

Lemma existsb_sameListing (l : list ModuleRecord) (m : ModuleRecord) :
  existsb (fun x => sameListing x m) l = true <->
  exists x, In x l /\ name x = name m /\ price x = price m
            /\ sellerName x = sellerName m.
Proof.
  rewrite existsb_exists. split; intros [x [Hin H]]; exists x;
    (split; [assumption |]); now apply sameListing_iff.
Qed.

Lemma existsb_pointwise {A : Type} (p q : A -> bool) (l : list A) :
  (forall x, p x = q x) -> existsb p l = existsb q l.
Proof.
  intros H. induction l as [|a l IH]; simpl; [reflexivity |].
  now rewrite H, IH.
Qed.

Section StoreFacts.
Variable negAttrsOf : ModuleRecord -> list string.
Variable attrValuesOf : ModuleRecord -> gmap string (option Q).
Variable triggerValuesOf : ModuleRecord -> gmap string (option Q).
Variable Schema : Type.
Variable learn : Schema -> ModuleRecord -> Schema.
Variable trigger : bool.

Local Abbreviation annotate' :=
  (annotate negAttrsOf attrValuesOf triggerValuesOf trigger).
Local Abbreviation append' :=
  (appendModule negAttrsOf attrValuesOf triggerValuesOf learn trigger).

Lemma annotate_extracted (m : ModuleRecord) :
  extracted (annotate' m) = extracted m.
Proof. reflexivity. Qed.

Lemma appendModule_existing (s : Store Schema) (m : ModuleRecord) :
  existsb (fun x => sameListing x m) (modules s) = true -> append' s m = s.
Proof.
  intros H. unfold appendModule. rewrite H. now destruct (Str.isEmpty _).
Qed.

Lemma appendModule_new (s : Store Schema) (m : ModuleRecord) :
  Str.isEmpty (name m) = false ->
  existsb (fun x => sameListing x m) (modules s) = false ->
  append' s m
  = {| modules := modules s ++ [annotate' m];
       schema := learn (schema s) (annotate' m) |}.
Proof. intros H1 H2. unfold appendModule. now rewrite H1, H2. Qed.

Lemma appendModule_twice (s : Store Schema) (m m' : ModuleRecord) :
  name m' = name m -> price m' = price m -> sellerName m' = sellerName m ->
  append' (append' s m) m' = append' s m.
Proof.
  intros Hn Hp Hs.
  assert (Hsame : forall x, sameListing x m' = sameListing x m).
  { intros x. unfold sameListing. now rewrite Hn, Hp, Hs. }
  destruct (Str.isEmpty (name m)) eqn:En.
  - unfold appendModule at 2. rewrite En.
    unfold appendModule. now rewrite Hn, En.
  - destruct (existsb (fun x => sameListing x m) (modules s)) eqn:Ex.
    + rewrite (appendModule_existing s m Ex).
      apply appendModule_existing.
      rewrite <- Ex. apply existsb_pointwise. intros x; apply Hsame.
    + rewrite (appendModule_new s m En Ex).
      apply appendModule_existing. cbn [modules].
      rewrite existsb_app. cbn [existsb]. rewrite Hsame.
      assert (sameListing (annotate' m) m = true) as ->.
      { apply sameListing_iff. repeat split. }
      now rewrite orb_true_r.
Qed.

End StoreFacts.

(** Text cut at its first [|]: the part in front and the part behind are
    determined when the part in front holds none. *)
Lemma cut_at_pipe (x y r r' : string) :
  Str.all (notChar "|") x = true -> Str.all (notChar "|") y = true ->
  x ++ "|" ++ r = y ++ "|" ++ r' -> x = y /\ r = r'.
Proof.
  revert y. induction x as [|a x IH]; intros [|b y] Hx Hy; sapp; intros E.
  - injection E as E. now split.
  - injection E as <- _. simpl in Hy. discriminate.
  - injection E as -> _. simpl in Hx. discriminate.
  - injection E as -> E. simpl in Hx, Hy.
    apply andb_true_iff in Hx as [_ Hx]. apply andb_true_iff in Hy as [_ Hy].
    destruct (IH y Hx Hy E) as [-> ->]. now split.
Qed.

(** Where names and prices hold no [|], the key string tells listings
    apart as the three fields do. *)
Lemma key_plain (a b : ModuleRecord) :
  plainKey a = true -> plainKey b = true -> key a = key b ->
  name a = name b /\ price a = price b /\ sellerName a = sellerName b.
Proof.
  unfold plainKey, key. intros Ha Hb E.
  apply andb_true_iff in Ha as [Ha1 Ha2]. apply andb_true_iff in Hb as [Hb1 Hb2].
  apply cut_at_pipe in E as [En E]; [| assumption ..].
  apply cut_at_pipe in E as [Ep Es]; [| assumption ..].
  now repeat split.
Qed.

Lemma sameListing_key (a b : ModuleRecord) :
  plainKey a = true -> plainKey b = true ->
  sameListing a b = String.eqb (key a) (key b).
Proof.
  intros Ha Hb. destruct (String.eqb_spec (key a) (key b)) as [E | N].
  - apply sameListing_iff. now apply key_plain.
  - apply not_true_is_false. intros H. apply sameListing_iff in H.
    apply N. now apply key_same.
Qed.

Lemma held_stored (m : ModuleRecord) (l : list ModuleRecord) :
  plainKey m = true -> Forall (fun x => plainKey x = true) l ->
  held m l = stored m l.
Proof.
  intros Hm Hl. unfold held, stored. f_equal.
  induction Hl as [|x l Hx Hl IH]; simpl; [reflexivity |].
  now rewrite (sameListing_key x m Hx Hm), IH.
Qed.

Lemma held_app (m : ModuleRecord) (l1 l2 : list ModuleRecord) :
  held m (l1 ++ l2) = (held m l1 + held m l2)%nat.
Proof. unfold held. now rewrite List.filter_app, List.length_app. Qed.

Lemma held_zero (m : ModuleRecord) (l : list ModuleRecord) :
  existsb (fun x => sameListing x m) l = false <-> held m l = 0%nat.
Proof.
  unfold held. induction l as [|x l IH]; simpl; [tauto |].
  destruct (sameListing x m); simpl; [| exact IH].
  split; discriminate.
Qed.

Lemma plainKey_mergeModule (st : LoopState) (m : ModuleRecord) :
  Forall (fun x => plainKey x = true) (deduped st) -> plainKey m = true ->
  Forall (fun x => plainKey x = true) (deduped (mergeModule st m)).
Proof.
  intros Hst Hm. unfold mergeModule. destruct (bool_decide _); simpl;
    [exact Hst |].
  apply Forall_app. split; [exact Hst |]. now constructor.
Qed.

(** C6 (as amended).  Insertion into either record store is idempotent,
    on the key string [name|price|sellerName] in the loop of [runSearch]
    and on the three fields in [appendModules]; whether the listing is
    then stored depends on its texts.

    In the loop of [runSearch] ([seen] holding the keys of [deduped], each
    once, as throughout a search): a record whose three fields equal those
    of a stored record leaves the store as it is; merging a record and then
    another with the same three fields leaves what the first merge left,
    with exactly one stored record under their key string, the record
    itself when the key string was new.  Where no name and no price,
    stored or merged, holds a [|], that is exactly one stored record with
    their three fields, and the first of the two when no stored record had
    them.

    In [appendModules] ([modules]): a record matching a stored one on the
    three fields leaves the store as it is; appending a record and then
    another with the same three fields leaves what the first append left.
    A record without a name is never stored: the two appends leave the
    store as it was.  For a named record the store then holds exactly one
    record with the three fields when it held at most one before, and when
    it held none that is the old records followed by the first of the two,
    its extracted fields unchanged. *)
Theorem record_insertion_idempotent
        (negAttrsOf : ModuleRecord -> list string)
        (attrValuesOf triggerValuesOf : ModuleRecord -> gmap string (option Q))
        (Schema : Type) (learn : Schema -> ModuleRecord -> Schema)
        (trigger : bool)
        (st : LoopState) (s : Store Schema) (m m' : ModuleRecord) :
  storeOk st ->
  name m' = name m -> price m' = price m -> sellerName m' = sellerName m ->
  let stored_before (l : list ModuleRecord) :=
    exists x, In x l /\ name x = name m /\ price x = price m
              /\ sellerName x = sellerName m in
  let append := appendModule negAttrsOf attrValuesOf triggerValuesOf learn
                             trigger in
  let m1 := annotate negAttrsOf attrValuesOf triggerValuesOf trigger m in
  let plain := Forall (fun x => plainKey x = true) (deduped st)
               /\ plainKey m = true in
  (* main.js *)
  (stored_before (deduped st) -> mergeModule st m = st)
  /\ mergeModule (mergeModule st m) m' = mergeModule st m
  /\ stored m (deduped (mergeModule (mergeModule st m) m')) = 1%nat
  /\ (key m ∉ seen st ->
      deduped (mergeModule (mergeModule st m) m')
      = (deduped st ++ [m])%list)
  /\ (plain ->
      held m (deduped (mergeModule (mergeModule st m) m')) = 1%nat
      /\ (~ stored_before (deduped st) ->
          deduped (mergeModule (mergeModule st m) m')
          = (deduped st ++ [m])%list))
  (* helper.js *)
  /\ (stored_before (modules s) -> append s m = s)
  /\ append (append s m) m' = append s m
  /\ (name m = "" -> append (append s m) m' = s)
  /\ (name m <> "" -> (held m (modules s) <= 1)%nat ->
      held m (modules (append (append s m) m')) = 1%nat)
  /\ (name m <> "" -> ~ stored_before (modules s) ->
      modules (append (append s m) m') = (modules s ++ [m1])%list
      /\ extracted m1 = extracted m).
Proof.
  intros Hok Hn Hp Hs stored_before append m1 plain.
  assert (Hkey : key m' = key m) by now apply key_same.
  assert (Htwice : mergeModule (mergeModule st m) m' = mergeModule st m).
  { apply mergeModule_seen. rewrite Hkey. apply mergeModule_key_seen. }
  assert (Hone : stored m (deduped (mergeModule st m)) = 1%nat).
  { pose proof (storeOk_mergeModule st m Hok) as [Hnd Hseen].
    apply stored_one; [exact Hnd |]. apply Hseen, mergeModule_key_seen. }
  assert (Happ2 : append (append s m) m' = append s m)
    by now apply appendModule_twice.
  assert (Hnew : name m <> "" -> ~ stored_before (modules s) ->
                 append s m
                 = {| modules := modules s ++ [m1];
                      schema := learn (schema s) m1 |}).
  { intros Hname Hno. apply appendModule_new.
    - destruct (name m); [congruence | reflexivity].
    - apply not_true_is_false. intros H. apply Hno.
      now apply existsb_sameListing. }
  split; [| split; [exact Htwice | split; [| split; [| split; [| split;
    [| split; [exact Happ2 | split; [| split]]]]]]]].
  - intros [x [Hin [H1 [H2 H3]]]]. apply mergeModule_seen.
    apply (proj2 Hok). rewrite <- (key_same x m H1 H2 H3).
    now apply in_map.
  - now rewrite Htwice.
  - intros Hfresh. rewrite Htwice, mergeModule_fresh by assumption.
    reflexivity.
  - intros [Hst Hm]. rewrite Htwice. split.
    + rewrite held_stored; [exact Hone | exact Hm |].
      now apply plainKey_mergeModule.
    + intros Hno. rewrite mergeModule_fresh; [reflexivity |].
      intros Hin. apply (proj2 Hok) in Hin.
      apply in_map_iff in Hin as [x [Hx Hin]]. apply Hno. exists x.
      split; [exact Hin |]. apply key_plain; [| exact Hm | exact Hx].
      exact (proj1 (List.Forall_forall _ _) Hst x Hin).
  - intros H. apply appendModule_existing. now apply existsb_sameListing.
  - intros Hname. rewrite Happ2. unfold append, appendModule.
    now rewrite Hname.
  - intros Hname Hle. rewrite Happ2.
    destruct (existsb (fun x => sameListing x m) (modules s)) eqn:Ex.
    + unfold append. rewrite (appendModule_existing _ _ _ _ _ _ s m Ex).
      destruct (held m (modules s)) as [|[|n]] eqn:Eh; [| reflexivity | lia].
      apply held_zero in Eh. congruence.
    + rewrite Hnew; [| exact Hname |].
      * cbn [modules]. rewrite held_app.
        apply held_zero in Ex. rewrite Ex. unfold held. cbn [List.filter].
        assert (sameListing m1 m = true) as ->; [| reflexivity].
        apply sameListing_iff. repeat split.
      * intros H. apply existsb_sameListing in H. congruence.
  - intros Hname Hno. rewrite Happ2, Hnew by assumption.
    split; reflexivity.
Qed.

(* ===================================================================== *)
(** * Properties: the polling loop of [runSearch]                         *)
(* ===================================================================== *)

Lemma polls_send ev w : polls (send ev w) = polls w.
Proof. reflexivity. Qed.

Lemma polls_sendIf b ev w : polls (sendIf b ev w) = polls w.
Proof. now destruct b. Qed.

Lemma polls_processBatch mn p r st w st1 w1 :
  processBatch mn p r st w = inr (st1, w1) -> polls w1 = polls w.
Proof.
  unfold processBatch. destruct (pr_modules r); [| | discriminate].
  - now intros [= _ <-].
  - destruct (hub p); [| discriminate]. now intros [= _ <-].
Qed.

Lemma polls_processBatch_raise mn p r st w message w1 :
  processBatch mn p r st w = inl (message, w1) -> polls w1 = polls w.
Proof.
  unfold processBatch. destruct (pr_modules r); [discriminate | |].
  - destruct (hub p); [discriminate |]. now intros [= _ <-].
  - now intros [= _ <-].
Qed.

(** The loop runs at most [fuel] parse passes. *)
Lemma pollLoop_polls mn env fuel :
  forall i st w,
    (polls (snd (pollLoop mn env fuel i st w)) <= polls w + fuel)%nat.
Proof.
  induction fuel as [|fuel IH]; intros i st w; simpl; [lia |].
  destruct (parse (env i)) as [r | msg]; simpl; [| lia].
  destruct (processBatch mn (env i) r st (countPoll w))
    as [[message w1] | [st1 w1]] eqn:Eb; simpl.
  - apply polls_processBatch_raise in Eb. simpl in Eb. lia.
  - apply polls_processBatch in Eb. simpl in Eb.
    destruct (stableExit _ _); simpl; [lia |].
    destruct (zeroTimedOut _ _); simpl.
    + unfold timeOut. rewrite polls_sendIf. simpl. lia.
    + destruct (scroll (env i)); simpl; [| lia].
      specialize (IH (S i) (updateStability (pr_itemCount r) st1) w1). lia.
Qed.

Lemma polls_finish mn out : polls (finish mn out) = polls (snd out).
Proof.
  destruct out as [[[alive | | message alive] st] w]; simpl;
    [unfold finalize | reflexivity | unfold catch];
    now rewrite polls_sendIf.
Qed.

Lemma running_finish mn env fuel :
  forall i st w,
    running (entry (finish mn (pollLoop mn env fuel i st w))) = false.
Proof.
  induction fuel as [|fuel IH]; intros i st w.
  - simpl. unfold finalize, sendIf. now destruct (hub (env i)).
  - cbn [pollLoop].
    destruct (parse (env i)) as [r | msg];
      [| simpl; unfold finalize, sendIf; now destruct (hub (env i))].
    destruct (processBatch mn (env i) r st (countPoll w))
      as [[message w1] | [st1 w1]];
      [simpl; unfold catch, sendIf; now destruct (hub (env i)) |].
    destruct (stableExit _ _);
      [simpl; unfold finalize, sendIf; now destruct (hub (env i)) |].
    destruct (zeroTimedOut _ _);
      [simpl; unfold timeOut, sendIf; now destruct (hub (env i)) |].
    destruct (scroll (env i));
      [apply IH | simpl; unfold catch, sendIf; now destruct (hub (env i))].
Qed.

(** C9.  Whatever the page surface answers (parse results, failures, clock
    readings, hub window open or closed), one search runs at most 60 parse
    passes and ends marked as not running: the loop always comes to an end,
    by stability, by the zero-result timeout, by an error or by the cap. *)
Theorem polling_loop_bounded (moduleName : string) (su : Setup)
        (env : nat -> Poll) :
  (polls (runSearch moduleName su env) <= 60)%nat
  /\ running (entry (runSearch moduleName su env)) = false.
Proof.
  unfold runSearch.
  destruct (selectModuleType su);
    [| unfold catch, sendIf; destruct (hubDuringSetup su); simpl;
       (split; [lia | reflexivity]) ].
  destruct (enterSearch su);
    [| unfold catch, sendIf; destruct (hubDuringSetup su); simpl;
       (split; [lia | reflexivity]) ].
  destruct (selectPlatform su);
    [| unfold catch, sendIf; destruct (hubDuringSetup su); simpl;
       (split; [lia | reflexivity]) ].
  unfold polling. split; [| apply running_finish].
  rewrite polls_finish.
  etransitivity; [apply pollLoop_polls |].
  rewrite !polls_sendIf. simpl. unfold maxIterations. lia.
Qed.

Lemma mergeModule_counters (st : LoopState) (m : ModuleRecord) :
  lastCount (mergeModule st m) = lastCount st
  /\ stable (mergeModule st m) = stable st.
Proof. unfold mergeModule. now destruct (bool_decide _). Qed.

Lemma mergeModules_counters (ms : list ModuleRecord) :
  forall st, lastCount (mergeModules st ms) = lastCount st
             /\ stable (mergeModules st ms) = stable st.
Proof.
  unfold mergeModules. induction ms as [|m ms IH]; intros st; simpl.
  - now split.
  - destruct (IH (mergeModule st m)) as [-> ->].
    apply mergeModule_counters.
Qed.

(** Merging never removes a stored record. *)
Lemma mergeModule_grows (st : LoopState) (m : ModuleRecord) :
  deduped st <> [] -> deduped (mergeModule st m) <> [].
Proof.
  unfold mergeModule. destruct (bool_decide _); simpl; [tauto |].
  intros _. now destruct (deduped st).
Qed.

Lemma mergeModules_grows (ms : list ModuleRecord) :
  forall st, deduped st <> [] -> deduped (mergeModules st ms) <> [].
Proof.
  unfold mergeModules. induction ms as [|m ms IH]; intros st H; simpl.
  - exact H.
  - apply IH. now apply mergeModule_grows.
Qed.

Lemma mergeModules_init_nonempty (ms : list ModuleRecord) :
  ms <> [] -> deduped (mergeModules initLoop ms) <> [].
Proof.
  destruct ms as [|m ms]; [congruence |]. intros _.
  unfold mergeModules. simpl. apply (mergeModules_grows ms).
  rewrite mergeModule_fresh by apply not_elem_of_empty. discriminate.
Qed.

Lemma updateStability_facts (c : Z) (st : LoopState) :
  lastCount (updateStability c st) = c
  /\ stable (updateStability c st)
     = (if c =? lastCount st then S (stable st) else 0%nat)
  /\ deduped (updateStability c st) = deduped st
  /\ seen (updateStability c st) = seen st.
Proof.
  unfold updateStability. destruct (Z.eqb_spec c (lastCount st)); simpl; auto.
Qed.

Lemma zeroTimedOut_nonempty (p : Poll) (st : LoopState) :
  deduped st <> [] -> zeroTimedOut p st = false.
Proof. unfold zeroTimedOut. now destruct (deduped st). Qed.

(** One iteration that goes on to the next: the batch is merged, one
    incremental snapshot is sent, the page is scrolled. *)
Lemma pollLoop_continue mn env fuel i st w r ms :
  parse (env i) = Ok r -> pr_modules r = Items ms ->
  hub (env i) = true -> scroll (env i) = Ok tt ->
  stableExit r (updateStability (pr_itemCount r) (mergeModules st ms)) = false ->
  deduped (mergeModules st ms) <> [] ->
  exists w' d,
    pollLoop mn env (S fuel) i st w
    = pollLoop mn env fuel (S i)
        (updateStability (pr_itemCount r) (mergeModules st ms)) w'
    /\ polls w' = S (polls w)
    /\ events w' = (events w ++ [SearchUpdated d false None])%list.
Proof.
  intros Hp Hm Hh Hs Hst Hne.
  eexists _, _. cbn [pollLoop]. unfold processBatch.
  rewrite Hp, Hm, Hh, Hst, Hs.
  rewrite zeroTimedOut_nonempty
    by (now rewrite (proj1 (proj2 (proj2 (updateStability_facts _ _))))).
  split; [reflexivity | split; reflexivity].
Qed.

(** One iteration that leaves the loop by stability. *)
Lemma pollLoop_stable mn env fuel i st w r ms :
  parse (env i) = Ok r -> pr_modules r = Items ms ->
  hub (env i) = true ->
  stableExit r (updateStability (pr_itemCount r) (mergeModules st ms)) = true ->
  exists w' d,
    pollLoop mn env (S fuel) i st w
    = (Finalize true,
       updateStability (pr_itemCount r) (mergeModules st ms), w')
    /\ polls w' = S (polls w)
    /\ events w' = (events w ++ [SearchUpdated d false None])%list.
Proof.
  intros Hp Hm Hh Hst.
  eexists _, _. cbn [pollLoop]. unfold processBatch.
  rewrite Hp, Hm, Hh, Hst.
  split; [reflexivity | split; reflexivity].
Qed.

Lemma stable_after (c : Z) (st : LoopState) (ms : list ModuleRecord) :
  stable (updateStability c (mergeModules st ms))
  = (if c =? lastCount st then S (stable st) else 0%nat).
Proof.
  destruct (updateStability_facts c (mergeModules st ms)) as (_ & -> & _).
  now destruct (mergeModules_counters ms st) as [-> ->].
Qed.

Lemma lastCount_after (c : Z) (st : LoopState) (ms : list ModuleRecord) :
  lastCount (updateStability c (mergeModules st ms)) = c.
Proof. apply updateStability_facts. Qed.

Lemma deduped_after (c : Z) (st : LoopState) (ms : list ModuleRecord) :
  deduped st <> [] ->
  deduped (updateStability c (mergeModules st ms)) <> [].
Proof.
  intros H. destruct (updateStability_facts c (mergeModules st ms))
    as (_ & _ & -> & _).
  now apply mergeModules_grows.
Qed.

(** C1.  When the first four parse passes each return an item count of 5
    (the first with its five listings), the loader is hidden from the
    second pass on and the scrolls in between succeed, the polling loop
    runs exactly four parse passes: it sends four incremental snapshots
    and then the final one, without an error.  It does not stop after the
    first, second or third pass. *)
Theorem stability_stops_after_fourth_poll
        (moduleName : string) (env : nat -> Poll) (w : World)
        (ms0 ms1 ms2 ms3 : list ModuleRecord) (loader0 : bool)
        (t0 t1 t2 t3 : Z) (sc3 : Outcome unit) :
  List.length ms0 = 5%nat ->
  env 0%nat = pollOf ms0 5 loader0 t0 (Ok tt) ->
  env 1%nat = pollOf ms1 5 false t1 (Ok tt) ->
  env 2%nat = pollOf ms2 5 false t2 (Ok tt) ->
  env 3%nat = pollOf ms3 5 false t3 sc3 ->
  polls (polling moduleName env w) = (polls w + 4)%nat
  /\ exists d0 d1 d2 d3 d4,
       events (polling moduleName env w)
       = (events w ++ [SearchUpdated d0 false None;
                       SearchUpdated d1 false None;
                       SearchUpdated d2 false None;
                       SearchUpdated d3 false None;
                       SearchUpdated d4 true None])%list.
Proof.
  intros Hlen H0 H1 H2 H3. unfold polling, maxIterations.
  assert (Hne0 : deduped (mergeModules initLoop ms0) <> []).
  { apply mergeModules_init_nonempty. now destruct ms0. }
  (* first pass: the count changes from 0 to 5 *)
  destruct (pollLoop_continue moduleName env 59 0 initLoop w
              (mkParse (Items ms0) 5 loader0) ms0)
    as (w1 & d0 & E1 & P1 & V1);
    try (rewrite H0; reflexivity); [reflexivity | | exact Hne0 |].
  { unfold stableExit. now rewrite stable_after. }
  rewrite E1. clear E1. cbn [pr_itemCount].
  set (s1 := updateStability 5 (mergeModules initLoop ms0)).
  assert (L1 : lastCount s1 = 5) by apply lastCount_after.
  assert (S1 : stable s1 = 0%nat) by (unfold s1; now rewrite stable_after).
  assert (D1 : deduped s1 <> []).
  { unfold s1. now rewrite (proj1 (proj2 (proj2 (updateStability_facts _ _)))). }
  (* second pass *)
  destruct (pollLoop_continue moduleName env 58 1 s1 w1
              (mkParse (Items ms1) 5 false) ms1)
    as (w2 & d1 & E2 & P2 & V2);
    try (rewrite H1; reflexivity);
    [reflexivity | | now apply mergeModules_grows |].
  { unfold stableExit. rewrite stable_after. cbn [pr_itemCount].
    now rewrite L1, S1. }
  rewrite E2. clear E2. cbn [pr_itemCount].
  set (s2 := updateStability 5 (mergeModules s1 ms1)).
  assert (L2 : lastCount s2 = 5) by apply lastCount_after.
  assert (S2 : stable s2 = 1%nat)
    by (unfold s2; now rewrite stable_after, L1, S1).
  assert (D2 : deduped s2 <> []) by now apply deduped_after.
  (* third pass *)
  destruct (pollLoop_continue moduleName env 57 2 s2 w2
              (mkParse (Items ms2) 5 false) ms2)
    as (w3 & d2 & E3 & P3 & V3);
    try (rewrite H2; reflexivity);
    [reflexivity | | now apply mergeModules_grows |].
  { unfold stableExit. rewrite stable_after. cbn [pr_itemCount].
    now rewrite L2, S2. }
  rewrite E3. clear E3. cbn [pr_itemCount].
  set (s3 := updateStability 5 (mergeModules s2 ms2)).
  assert (L3 : lastCount s3 = 5) by apply lastCount_after.
  assert (S3 : stable s3 = 2%nat)
    by (unfold s3; now rewrite stable_after, L2, S2).
  (* fourth pass: three unchanged counts in a row, loader hidden *)
  destruct (pollLoop_stable moduleName env 56 3 s3 w3
              (mkParse (Items ms3) 5 false) ms3)
    as (w4 & d3 & E4 & P4 & V4);
    try (rewrite H3; reflexivity); [reflexivity | |].
  { unfold stableExit. rewrite stable_after. cbn [pr_itemCount].
    now rewrite L3, S3. }
  rewrite E4. clear E4. cbn [finish pr_itemCount].
  unfold finalize, sendIf, send, setEntry.
  cbn [polls events]. split; [lia |].
  exists d0, d1, d2, d3,
    (nameFilter moduleName
       (deduped (updateStability 5 (mergeModules s3 ms3)))).
  rewrite V4, V3, V2, V1. rewrite <- !app_assoc. reflexivity.
Qed.

Lemma nameFilter_nil (mn : string) : nameFilter mn [] = [].
Proof. unfold nameFilter. now destruct (Str.isEmpty _). Qed.

(** C3 (as amended).  At an iteration of the loop where no record is
    stored, the parse pass finds none, more than 30000 ms have passed
    since polling began and the stability exit does not apply (fewer than
    three unchanged counts, or the loader still visible), the controller
    closes the search window, marks the search as not running and sends
    the terminal snapshot with error ["timeout"] and [finished = true];
    this is its last message and the iteration is its last parse pass,
    however many iterations were left. *)
Theorem zero_result_timeout
        (moduleName : string) (env : nat -> Poll) (fuel i : nat)
        (st : LoopState) (w : World) (r : ParseResult) :
  deduped st = [] ->
  parse (env i) = Ok r ->
  noRecords r = true ->
  hub (env i) = true ->
  30000 < elapsed (env i) ->
  stableExit r (updateStability (pr_itemCount r) st) = false ->
  let out := finish moduleName (pollLoop moduleName env (S fuel) i st w) in
  polls out = S (polls w)
  /\ (exists pre,
        events out = (events w ++ pre ++ [timeoutSnapshot])%list
        /\ (pre = [] \/ pre = [SearchUpdated [] false None]))
  /\ running (entry out) = false
  /\ windowClosed (entry out) = true.
Proof.
  intros Hd Hp Hn Hh Ht Hs out. subst out.
  assert (Hz : zeroTimedOut (env i) (updateStability (pr_itemCount r) st)
               = true).
  { unfold zeroTimedOut.
    rewrite (proj1 (proj2 (proj2 (updateStability_facts _ _)))), Hd.
    apply Z.ltb_lt in Ht. now rewrite Ht. }
  cbn [pollLoop]. rewrite Hp. unfold processBatch, noRecords in *.
  destruct (pr_modules r) as [| [|m ms] | msg]; try discriminate.
  - rewrite Hs, Hz. cbn [finish]. unfold timeOut. rewrite Hh.
    cbn. repeat split. exists []. split; [reflexivity | now left].
  - rewrite Hh. unfold mergeModules. cbn [fold_left].
    rewrite Hs, Hz. cbn [finish]. unfold timeOut. rewrite Hh.
    cbn. repeat split.
    exists [SearchUpdated [] false None]. rewrite Hd, nameFilter_nil.
    split; [now rewrite <- app_assoc | now right].
Qed.

(** C3, as first stated, fails: with [emptyAfterLoader] no record is ever
    collected and the 44th parse pass comes 30150 ms after polling began,
    yet the loop is left by the stability exit, which is tested first, and
    the terminal snapshot carries no error. *)
Lemma no_timeout_when_stability_exit_applies :
  30000 < elapsed (emptyAfterLoader 43)
  /\ events (runSearch "" setupOk emptyAfterLoader)
     = ([SearchProgress "enterName"; SearchProgress "setPlatform";
         SearchProgress "waiting"]
        ++ repeat (SearchUpdated [] false None) 44
        ++ [SearchUpdated [] true None])%list
  /\ polls (runSearch "" setupOk emptyAfterLoader) = 44%nat.
Proof. split; [reflexivity | split; vm_compute; reflexivity]. Qed.

(** C2 (as amended).  With the hub window open:
    - an exception while a setup action is injected, while a batch is
      walked, or while the page is scrolled ends the search with the
      terminal snapshot [finished = true], no records and [error] set to
      the message of the exception;
    - a parse pass that throws, or whose output [JSON.parse] rejects,
      leaves the loop by [break]: the terminal snapshot is the ordinary
      final one, [finished = true] with the records stored so far and no
      [error] field. *)
Theorem terminal_snapshot_on_exception
        (moduleName : string) (su : Setup) (env : nat -> Poll)
        (fuel i : nat) (st : LoopState) (w : World) (message : string) :
  hubDuringSetup su = true ->
  hub (env i) = true ->
  let run := runSearch moduleName su env in
  let out := finish moduleName (pollLoop moduleName env (S fuel) i st w) in
  (* setup *)
  (selectModuleType su = Throw message ->
   events run = [errorSnapshot message] /\ polls run = 0%nat)
  /\ (selectModuleType su = Ok tt -> enterSearch su = Throw message ->
      events run = [errorSnapshot message] /\ polls run = 0%nat)
  /\ (selectModuleType su = Ok tt -> enterSearch su = Ok tt ->
      selectPlatform su = Throw message ->
      events run = [SearchProgress "enterName"; errorSnapshot message]
      /\ polls run = 0%nat)
  (* walking the batch *)
  /\ (forall r, parse (env i) = Ok r -> pr_modules r = Malformed message ->
      events out = (events w ++ [errorSnapshot message])%list)
  (* scrolling *)
  /\ (forall r st1 w1,
        parse (env i) = Ok r ->
        processBatch moduleName (env i) r st (countPoll w) = inr (st1, w1) ->
        stableExit r (updateStability (pr_itemCount r) st1) = false ->
        zeroTimedOut (env i) (updateStability (pr_itemCount r) st1) = false ->
        scroll (env i) = Throw message ->
        events out = (events w1 ++ [errorSnapshot message])%list)
  (* the parse pass *)
  /\ (parse (env i) = Throw message ->
      events out = (events w ++ [finalSnapshot moduleName st])%list
      /\ polls out = S (polls w)).
Proof.
  intros Hsu Hh run out. subst run out. unfold runSearch.
  split; [| split; [| split; [| split; [| split]]]].
  - intros H1. rewrite H1. unfold catch. rewrite Hsu. split; reflexivity.
  - intros H1 H2. rewrite H1, H2. unfold catch. rewrite Hsu.
    split; reflexivity.
  - intros H1 H2 H3. rewrite H1, H2, H3. unfold catch. rewrite Hsu.
    split; reflexivity.
  - intros r Hp Hm. cbn [pollLoop]. rewrite Hp. unfold processBatch.
    rewrite Hm. cbn [finish]. unfold catch. rewrite Hh. reflexivity.
  - intros r st1 w1 Hp Hb Hs Hz Hsc. cbn [pollLoop].
    rewrite Hp, Hb, Hs, Hz, Hsc. cbn [finish]. unfold catch.
    rewrite Hh. reflexivity.
  - intros Hp. cbn [pollLoop]. rewrite Hp. cbn [finish]. unfold finalize.
    rewrite Hh. split; reflexivity.
Qed.

(** C2, as first stated, fails: when the first parse pass throws, the
    search ends with a terminal snapshot that has no [error] field. *)
Lemma parse_failure_ends_without_error :
  parse (parseFails 0%nat) = Throw "Unexpected token < in JSON at position 0"
  /\ events (runSearch "" setupOk parseFails)
     = [SearchProgress "enterName"; SearchProgress "setPlatform";
        SearchProgress "waiting"; SearchUpdated [] true None].
Proof. split; reflexivity. Qed.

(* ===================================================================== *)
(** * Properties: the profile manager                                     *)
(* ===================================================================== *)

Lemma optEqb_refl {A : Type} (eqb : A -> A -> bool) (x : option A) :
  (forall a, eqb a a = true) -> optEqb eqb x x = true.
Proof. intros H. destruct x; simpl; auto. Qed.

Lemma listEqb_refl {A : Type} (eqb : A -> A -> bool) (l : list A) :
  (forall a, eqb a a = true) -> listEqb eqb l l = true.
Proof. intros H. induction l as [|a l IH]; simpl; [| rewrite H, IH]; auto. Qed.

Lemma rangeEqb_refl (r : Range) : rangeEqb r r = true.
Proof.
  unfold rangeEqb. now rewrite !optEqb_refl by apply Qeq_bool_refl.
Qed.

Lemma tableEqb_refl (t : RangeTable) : tableEqb t t = true.
Proof.
  apply listEqb_refl. intros [k r]. simpl.
  now rewrite String.eqb_refl, rangeEqb_refl.
Qed.

Lemma sameJson_refl (s : ProfileState) : sameJson s s = true.
Proof.
  unfold sameJson.
  rewrite !(optEqb_refl Qeq_bool) by apply Qeq_bool_refl.
  rewrite !(optEqb_refl Z.eqb) by apply Z.eqb_refl.
  rewrite !(listEqb_refl String.eqb) by apply String.eqb_refl.
  rewrite String.eqb_refl, tableEqb_refl.
  rewrite (optEqb_refl tableEqb) by apply tableEqb_refl.
  rewrite (optEqb_refl String.eqb) by apply String.eqb_refl.
  reflexivity.
Qed.

Lemma isSet_true {A : Type} (x : option A) : isSet x = true <-> x <> None.
Proof. destruct x; simpl; split; congruence. Qed.

Lemma nonEmpty_true {A : Type} (l : list A) : nonEmpty l = true <-> l <> [].
Proof. destruct l; simpl; split; congruence. Qed.

Lemma isEmpty_false (s : string) : Str.isEmpty s = false <-> s <> "".
Proof. destruct s; simpl; split; congruence. Qed.

Lemma hasAnyFilterSet_spec (f : Filters) :
  hasAnyFilterSet f = true <-> someFilterSet f.
Proof.
  unfold hasAnyFilterSet, someFilterSet. cbn [getState priceMin priceMax
    mrMin mrMax rerollMin rerollMax ageMin ageMax ageHoursMin ageHoursMax
    seller statuses attributes_ negAttributes_ moduleNames triggerFilters].
  rewrite !orb_true_iff, !andb_true_iff, !orb_true_iff, !isSet_true,
    !nonEmpty_true, negb_true_iff, negb_true_iff, isEmpty_false.
  assert (Htrig :
    (isTriggerMode f = true
     /\ match (if isTriggerMode f then Some (triggerFilterValues f) else None)
        with
        | Some t =>
            existsb (fun e => isSet (rmin e.2) || isSet (rmax e.2)) t
        | None => false
        end = true)
    <-> (isTriggerMode f = true
         /\ exists attr range, In (attr, range) (triggerFilterValues f)
                               /\ (rmin range <> None \/ rmax range <> None))).
  { destruct (isTriggerMode f); [| split; intros [? _]; discriminate].
    rewrite existsb_exists. split; intros [_ H]; (split; [reflexivity |]).
    - destruct H as [[attr range] [Hin H]]. exists attr, range.
      split; [assumption |]. simpl in H.
      now rewrite orb_true_iff, !isSet_true in H.
    - destruct H as (attr & range & Hin & H). exists (attr, range).
      split; [assumption |]. simpl.
      now rewrite orb_true_iff, !isSet_true. }
  rewrite Htrig. tauto.
Qed.

(** The assignments of [applyState] restore a snapshot: applying the
    snapshot of [f] to the variables [g] and taking the snapshot again
    gives the snapshot of [f], when [f] and [g] are in the same mode, the
    snapshot carries a sort key, and the rank and reroll bounds are
    restored or already as saved. *)
Lemma getState_applyState (f g : Filters) :
  isTriggerMode g = isTriggerMode f ->
  truthy (sortVal f) = true ->
  rankAsSaved f g ->
  getState (fst (applyState (getState f) g)) = getState f.
Proof.
  intros Hmode Hsort Hrank.
  unfold getState, applyState.
  cbn [fst isTriggerMode priceMinVal priceMaxVal mrMinVal mrMaxVal
       rerollMinVal rerollMaxVal ageMinVal ageMaxVal ageHoursMinVal
       ageHoursMaxVal sellerFilterVal selectedStatuses selectedAttrs
       selectedAttrRanges selectedNegAttrs selectedModuleNames
       triggerFilterValues sortVal priceMin priceMax mrMin mrMax
       rerollMin rerollMax ageMin ageMax ageHoursMin ageHoursMax seller
       statuses attributes_ attributeRanges negAttributes_ moduleNames
       triggerFilters sort].
  rewrite Hsort, Hmode.
  destruct Hrank as [Ht | (-> & -> & -> & ->)].
  - rewrite Ht. reflexivity.
  - destruct (isTriggerMode f); reflexivity.
Qed.

(* ===================================================================== *)
(** * Instances                                                           *)
(* ===================================================================== *)

Lemma stability_stops_after_fourth_poll_witness :
  polls (polling "" steadyFive startWorld) = (polls startWorld + 4)%nat.
Proof.
  exact (proj1 (stability_stops_after_fourth_poll "" steadyFive startWorld
                  fiveListings fiveListings fiveListings fiveListings
                  false 50 750 1450 2150 (Ok tt)
                  eq_refl eq_refl eq_refl eq_refl eq_refl)).
Defined.

Lemma terminal_snapshot_on_exception_witness :
  events (finish "" (pollLoop "" parseFails 60 0 initLoop startWorld))
  = (events startWorld ++ [finalSnapshot "" initLoop])%list.
Proof.
  destruct (terminal_snapshot_on_exception "" setupOk parseFails 59 0
              initLoop startWorld "Unexpected token < in JSON at position 0"
              eq_refl eq_refl) as (_ & _ & _ & _ & _ & H).
  exact (proj1 (H eq_refl)).
Defined.

Lemma zero_result_timeout_witness :
  polls (finish "" (pollLoop "" loaderStuck 17 43 stuckAt43 startWorld))
  = S (polls startWorld).
Proof.
  exact (proj1 (zero_result_timeout "" loaderStuck 16 43 stuckAt43 startWorld
                  {| pr_modules := Items []; pr_itemCount := 0;
                     pr_loaderVisible := true |}
                  eq_refl eq_refl eq_refl eq_refl eq_refl eq_refl)).
Defined.

Lemma record_insertion_idempotent_witness :
  held ajaxOnline
       (deduped (mergeModule (mergeModule initLoop ajaxOnline) ajaxOffline))
  = 1%nat
  /\ held ajaxOnline
       (modules (appendModule negAttrsOf attrValuesOf triggerValuesOf
                   (learnStats false) false
                   (appendModule negAttrsOf attrValuesOf triggerValuesOf
                      (learnStats false) false (mkStore [] noTables)
                      ajaxOnline)
                   ajaxOffline))
     = 1%nat.
Proof.
  destruct (record_insertion_idempotent
              negAttrsOf attrValuesOf triggerValuesOf Tables
              (learnStats false) false initLoop (mkStore [] noTables)
              ajaxOnline ajaxOffline
              storeOk_init eq_refl eq_refl eq_refl)
    as (_ & _ & _ & _ & H1 & _ & _ & _ & H2 & _).
  split.
  - apply H1. split; [constructor | reflexivity].
  - apply H2; [discriminate | vm_compute; lia].
Defined.

(** C6, as first stated, fails in both stores.  [appendModules] skips a
    record without a name, so inserting it twice stores it zero times.
    The loop of [runSearch] compares key strings: after a listing named
    [A] and priced [B|1], a listing named [A|B] and priced [1] by the same
    seller has the same key string and is dropped, though no stored record
    has its name and price. *)
Lemma record_insertion_can_store_none :
  modules (appendStats false (appendStats false (mkStore [] noTables)
                                [nameless]) [nameless]) = []
  /\ storeOk (mergeModule initLoop pipeInPrice)
  /\ deduped (mergeModule (mergeModule (mergeModule initLoop pipeInPrice)
                             pipeInName) pipeInName) = [pipeInPrice]
  /\ held pipeInName
          (deduped (mergeModule (mergeModule (mergeModule initLoop pipeInPrice)
                                   pipeInName) pipeInName)) = 0%nat.
Proof.
  split; [reflexivity |].
  split; [apply storeOk_mergeModule, storeOk_init |].
  split; vm_compute; reflexivity.
Qed.

(** The worked cases of the sources' comments and of the design notes. *)

Example parseAgeToHours_examples :
  parseAgeToHours "3 days ago" = Some (3 * 24)%Q
  /\ parseAgeToHours "19 hours ago" = Some 19%Q
  /\ parseAgeToHours "2 Days Ago" = Some (2 * 24)%Q
  /\ parseAgeToHours "yesterday" = None
  /\ parseAgeToHours "" = None.
Proof. repeat split. Qed.

(** Five listings that stay, no loader: four parse passes. *)
Example steadyFive_run :
  events (runSearch "" setupOk steadyFive)
  = [SearchProgress "enterName"; SearchProgress "setPlatform";
     SearchProgress "waiting";
     SearchUpdated fiveListings false None;
     SearchUpdated fiveListings false None;
     SearchUpdated fiveListings false None;
     SearchUpdated fiveListings false None;
     SearchUpdated fiveListings true None]
  /\ polls (runSearch "" setupOk steadyFive) = 4%nat.
Proof. split; vm_compute; reflexivity. Qed.

(** A loader that never goes away and no listing: the timeout, at the
    first pass later than 30000 ms. *)
Example loaderStuck_run :
  events (runSearch "" setupOk loaderStuck)
  = ([SearchProgress "enterName"; SearchProgress "setPlatform";
      SearchProgress "waiting"]
     ++ repeat (SearchUpdated [] false None) 44
     ++ [timeoutSnapshot])%list
  /\ polls (runSearch "" setupOk loaderStuck) = 44%nat
  /\ windowClosed (entry (runSearch "" setupOk loaderStuck)) = true.
Proof. repeat split; vm_compute; reflexivity. Qed.

(** An item count that never settles: the cap of 60 passes is reached. *)
Example neverSettles_run :
  polls (runSearch "" setupOk neverSettles) = 60%nat
  /\ List.last (events (runSearch "" setupOk neverSettles))
               (SearchProgress "")
     = SearchUpdated [ajaxOnline] true None.
Proof. split; vm_compute; reflexivity. Qed.

(** The listing seen again with the seller offline is not stored again. *)
Example first_seen_status_kept :
  deduped (mergeModules initLoop [ajaxOnline; ajaxOffline]) = [ajaxOnline].
Proof. vm_compute. reflexivity. Qed.

(* ===================================================================== *)
(** * Properties: the messages of a search                                *)
(* ===================================================================== *)

Lemma NoDup_map_filter {A B : Type} (f : A -> B) (p : A -> bool)
      (l : list A) :
  List.NoDup (map f l) -> List.NoDup (map f (List.filter p l)).
Proof.
  induction l as [|a l IH]; simpl; intros H; [constructor |].
  apply List.NoDup_cons_iff in H as [Ha Hl].
  destruct (p a); simpl; [| now apply IH].
  constructor; [| now apply IH].
  intros Hin. apply Ha. apply in_map_iff in Hin as [x [Hx Hin]].
  apply List.filter_In in Hin as [Hin _]. rewrite <- Hx. now apply in_map.
Qed.

Lemma nameFilter_distinct (mn : string) (l : list ModuleRecord) :
  distinctKeys l -> distinctKeys (nameFilter mn l).
Proof.
  unfold distinctKeys, nameFilter. destruct (Str.isEmpty _); [tauto |].
  apply NoDup_map_filter.
Qed.

Lemma distinctKeys_nil : distinctKeys [].
Proof. constructor. Qed.

Lemma distinctWorld_send (e : Event) (w : World) :
  distinctKeys (snapshotData e) -> distinctWorld w -> distinctWorld (send e w).
Proof.
  intros He [Hev Hen]. split; simpl; [| exact Hen].
  apply Forall_app. split; [exact Hev | now constructor].
Qed.

Lemma distinctWorld_sendIf (b : bool) (e : Event) (w : World) :
  distinctKeys (snapshotData e) -> distinctWorld w ->
  distinctWorld (sendIf b e w).
Proof. destruct b; simpl; [apply distinctWorld_send | tauto]. Qed.

Lemma distinctWorld_setEntry (e : Entry) (w : World) :
  distinctKeys (entryData e) -> distinctWorld w ->
  distinctWorld (setEntry e w).
Proof. intros He [Hev _]. now split. Qed.

Lemma distinctWorld_countPoll (w : World) :
  distinctWorld w -> distinctWorld (countPoll w).
Proof. now intros [? ?]. Qed.

Lemma distinctWorld_processBatch mn p r st w :
  storeOk st -> distinctWorld w ->
  match processBatch mn p r st w with
  | inl (_, w1) => distinctWorld w1
  | inr (st1, w1) => storeOk st1 /\ distinctWorld w1
  end.
Proof.
  intros Hst Hw. unfold processBatch.
  destruct (pr_modules r) as [| ms | message]; [now split | | exact Hw].
  pose proof (storeOk_mergeModules ms st Hst) as Hst'.
  assert (Hshown : distinctKeys (nameFilter mn (deduped (mergeModules st ms)))).
  { apply nameFilter_distinct. exact (proj1 Hst'). }
  assert (Hrec : distinctWorld
                   (recordBatch (nameFilter mn (deduped (mergeModules st ms))) w)).
  { unfold recordBatch. now apply distinctWorld_setEntry. }
  destruct (hub p); [| exact Hrec].
  split; [exact Hst' |]. now apply distinctWorld_send.
Qed.

Lemma distinctWorld_pollLoop mn env fuel :
  forall i st w,
    storeOk st -> distinctWorld w ->
    storeOk (snd (fst (pollLoop mn env fuel i st w)))
    /\ distinctWorld (snd (pollLoop mn env fuel i st w)).
Proof.
  induction fuel as [|fuel IH]; intros i st w Hst Hw; [now split |].
  cbn [pollLoop].
  apply distinctWorld_countPoll in Hw.
  destruct (parse (env i)) as [r | msg]; [| now split].
  pose proof (distinctWorld_processBatch mn (env i) r st _ Hst Hw) as Hb.
  destruct (processBatch mn (env i) r st (countPoll w))
    as [[message w1] | [st1 w1]]; [now split |].
  destruct Hb as [Hst1 Hw1].
  pose proof (storeOk_updateStability (pr_itemCount r) st1 Hst1) as Hst2.
  destruct (stableExit _ _); [now split |].
  destruct (zeroTimedOut _ _).
  - split; [exact Hst2 |]. unfold timeOut.
    apply distinctWorld_sendIf; [apply distinctKeys_nil |].
    apply distinctWorld_setEntry; [exact (proj2 Hw1) | exact Hw1].
  - destruct (scroll (env i)); [now apply IH | now split].
Qed.

Lemma distinctWorld_catch message alive w :
  distinctWorld w -> distinctWorld (catch message alive w).
Proof.
  intros Hw. unfold catch.
  apply distinctWorld_sendIf; [apply distinctKeys_nil |].
  apply distinctWorld_setEntry; [exact (proj2 Hw) | exact Hw].
Qed.

Lemma distinctWorld_start : distinctWorld startWorld.
Proof. split; constructor. Qed.

(** X1.  In every search, whatever the page answers, no message sent to
    the renderer and no list recorded on the search entry holds two records
    with the same key [name|price|sellerName]: incremental snapshots, the
    final snapshot and the error snapshots alike. *)
Theorem snapshots_hold_each_key_once (moduleName : string) (su : Setup)
        (env : nat -> Poll) :
  Forall (fun e => distinctKeys (snapshotData e))
         (events (runSearch moduleName su env))
  /\ distinctKeys (entryData (entry (runSearch moduleName su env))).
Proof.
  change (distinctWorld (runSearch moduleName su env)).
  unfold runSearch.
  destruct (selectModuleType su);
    [| apply distinctWorld_catch, distinctWorld_start].
  destruct (enterSearch su);
    [| apply distinctWorld_catch, distinctWorld_start].
  assert (H1 : distinctWorld
                 (sendIf (hubDuringSetup su) (SearchProgress "enterName")
                    startWorld)).
  { apply distinctWorld_sendIf; [apply distinctKeys_nil | apply distinctWorld_start]. }
  destruct (selectPlatform su); [| now apply distinctWorld_catch].
  unfold polling.
  match goal with
  | |- distinctWorld (finish _ (pollLoop ?mn ?e ?f ?i ?st ?w)) =>
      assert (Hw : distinctWorld w);
      [ do 2 (apply distinctWorld_sendIf; [apply distinctKeys_nil |]); exact H1
      | pose proof (distinctWorld_pollLoop mn e f i st w storeOk_init Hw)
          as [Hst' Hw'];
        destruct (pollLoop mn e f i st w) as [[ex st'] w'] ]
  end.
  simpl in Hst', Hw'.
  destruct ex as [alive | | message alive]; simpl.
  - unfold finalize. apply distinctWorld_sendIf.
    + apply nameFilter_distinct. exact (proj1 Hst').
    + apply distinctWorld_setEntry; [exact (proj1 Hst') | exact Hw'].
  - exact Hw'.
  - now apply distinctWorld_catch.
Qed.

(** X2.  Merging a batch never drops or reorders what is stored: the
    stored list after the merge is the stored list before it followed by
    records of the batch, in the order the batch has them. *)
Theorem merge_appends_batch_records (st : LoopState)
        (ms : list ModuleRecord) :
  exists added,
    deduped (mergeModules st ms) = (deduped st ++ added)%list
    /\ sublist added ms.
Proof.
  revert st. unfold mergeModules.
  induction ms as [|m ms IH]; intros st; simpl.
  - exists []. split; [now rewrite app_nil_r | constructor].
  - destruct (IH (mergeModule st m)) as [added [Heq Hsub]].
    destruct (decide (key m ∈ seen st)) as [Hin | Hout].
    + rewrite mergeModule_seen in Heq |- * by assumption.
      exists added. split; [exact Heq | now apply sublist_cons].
    + rewrite mergeModule_fresh in Heq |- * by assumption.
      simpl in Heq. exists (m :: added). split.
      * rewrite Heq, <- app_assoc. reflexivity.
      * now apply sublist_skip.
Qed.

Lemma mergeModule_seen_mono (st : LoopState) (m : ModuleRecord) (k : string) :
  k ∈ seen st -> k ∈ seen (mergeModule st m).
Proof.
  intros H. unfold mergeModule. destruct (bool_decide _); simpl;
    [exact H | set_solver].
Qed.

Lemma mergeModules_seen_mono (ms : list ModuleRecord) (k : string) :
  forall st, k ∈ seen st -> k ∈ seen (mergeModules st ms).
Proof.
  unfold mergeModules. induction ms as [|m ms IH]; intros st H; simpl.
  - exact H.
  - apply IH. now apply mergeModule_seen_mono.
Qed.

Lemma mergeModules_key_seen (ms : list ModuleRecord) (m : ModuleRecord) :
  forall st, In m ms -> key m ∈ seen (mergeModules st ms).
Proof.
  unfold mergeModules. induction ms as [|x ms IH]; intros st H; simpl.
  - destruct H.
  - destruct H as [-> | H].
    + apply (mergeModules_seen_mono ms). apply mergeModule_key_seen.
    + now apply IH.
Qed.

Lemma plainKey_mergeModules (ms : list ModuleRecord) :
  forall st,
    Forall (fun x => plainKey x = true) (deduped st) ->
    Forall (fun x => plainKey x = true) ms ->
    Forall (fun x => plainKey x = true) (deduped (mergeModules st ms)).
Proof.
  unfold mergeModules. induction ms as [|m ms IH]; intros st Hst Hms; simpl.
  - exact Hst.
  - inversion Hms as [|? ? Hm Hms']; subst.
    apply IH; [| exact Hms']. now apply plainKey_mergeModule.
Qed.

(** X3.  After a batch is merged, each of its records has exactly one
    stored record under its key string, provided the store was in order
    before ([seen] holding the keys of [deduped], each once), as it is
    throughout a search.  Where no name and no price, stored or of the
    batch, holds a [|], that is exactly one stored record with the name,
    the price and the seller of the record: no listing of the batch is lost
    and none is stored twice.  (With a [|] in a name or a price two
    listings can share a key string, and the later one is dropped.) *)
Theorem batch_record_stored_once (st : LoopState) (ms : list ModuleRecord)
        (m : ModuleRecord) :
  storeOk st -> In m ms ->
  stored m (deduped (mergeModules st ms)) = 1%nat
  /\ (Forall (fun x => plainKey x = true) (deduped st) ->
      Forall (fun x => plainKey x = true) ms ->
      held m (deduped (mergeModules st ms)) = 1%nat).
Proof.
  intros Hok Hin.
  destruct (storeOk_mergeModules ms st Hok) as [Hnd Hseen].
  assert (Hone : stored m (deduped (mergeModules st ms)) = 1%nat).
  { apply stored_one; [exact Hnd |].
    apply Hseen. now apply mergeModules_key_seen. }
  split; [exact Hone |]. intros Hst Hms.
  rewrite held_stored; [exact Hone | |].
  - exact (proj1 (List.Forall_forall _ _) Hms m Hin).
  - now apply plainKey_mergeModules.
Qed.

Lemma mergeModules_empty (ms : list ModuleRecord) (st : LoopState) :
  deduped (mergeModules st ms) = [] -> deduped st = [].
Proof.
  intros H. destruct (deduped st) eqn:E; [reflexivity |].
  exfalso. apply (mergeModules_grows ms st); [now rewrite E | exact H].
Qed.

Lemma zeroTimedOut_empty (p : Poll) (st : LoopState) :
  zeroTimedOut p st = true -> deduped st = [].
Proof. unfold zeroTimedOut. now destruct (deduped st). Qed.

(** X4.  The zero-result timeout is taken only by a search that never
    stored a record: when the loop is left by the timeout return, the store
    was empty when the loop was entered and is empty still, every message
    the loop sent carries no record, and the search window has been
    closed. *)
Theorem timeout_only_without_records (moduleName : string)
        (env : nat -> Poll) (fuel i : nat) (st : LoopState) (w : World) :
  fst (fst (pollLoop moduleName env fuel i st w)) = Returned ->
  deduped st = []
  /\ deduped (snd (fst (pollLoop moduleName env fuel i st w))) = []
  /\ windowClosed (entry (snd (pollLoop moduleName env fuel i st w))) = true
  /\ exists evs,
       sentBetween w (snd (pollLoop moduleName env fuel i st w)) evs
       /\ Forall (fun e => snapshotData e = []) evs.
Proof.
  revert i st w. induction fuel as [|fuel IH]; intros i st w;
    [discriminate |].
  cbn [pollLoop].
  destruct (parse (env i)) as [r | msg]; [| discriminate].
  unfold processBatch.
  destruct (pr_modules r) as [| ms | message]; [| | discriminate].
  - (* the result has no [modules] property *)
    destruct (stableExit _ _); [discriminate |].
    destruct (zeroTimedOut _ _) eqn:Ez.
    + intros _. cbn [fst snd].
      apply zeroTimedOut_empty in Ez.
      rewrite (proj1 (proj2 (proj2 (updateStability_facts _ _)))) in *.
      split; [exact Ez | split; [exact Ez | split]].
      * unfold timeOut, sendIf. now destruct (hub (env i)).
      * exists (if hub (env i) then [SearchUpdated [] true (Some "timeout")]
                else []).
        unfold sentBetween, timeOut, sendIf.
        destruct (hub (env i)); simpl;
          (split; [now rewrite ?app_nil_r | repeat constructor]).
    + destruct (scroll (env i)); [| discriminate].
      intros H. destruct (IH _ _ _ H) as (H1 & H2 & H3 & evs & H4 & H5).
      rewrite (proj1 (proj2 (proj2 (updateStability_facts _ _)))) in H1.
      split; [exact H1 | split; [exact H2 | split; [exact H3 |]]].
      exists evs. now split.
  - destruct (hub (env i)) eqn:Eh; [| discriminate].
    destruct (stableExit _ _); [discriminate |].
    destruct (zeroTimedOut _ _) eqn:Ez.
    + intros _. cbn [fst snd].
      apply zeroTimedOut_empty in Ez.
      rewrite (proj1 (proj2 (proj2 (updateStability_facts _ _)))) in *.
      split; [now apply (mergeModules_empty ms) | split; [exact Ez | split]].
      * unfold timeOut. now rewrite Eh.
      * exists [SearchUpdated [] false None;
                SearchUpdated [] true (Some "timeout")].
        split; [| repeat constructor].
        unfold timeOut, sentBetween. rewrite Eh, Ez, nameFilter_nil. simpl.
        now rewrite <- app_assoc.
    + destruct (scroll (env i)); [| discriminate].
      intros H. destruct (IH _ _ _ H) as (H1 & H2 & H3 & evs & H4 & H5).
      rewrite (proj1 (proj2 (proj2 (updateStability_facts _ _)))) in H1.
      rewrite H1, nameFilter_nil in H2, H3, H4 |- *.
      split; [now apply (mergeModules_empty ms) |
              split; [exact H2 | split; [exact H3 |]]].
      exists (SearchUpdated [] false None :: evs). split.
      * unfold sentBetween in *. rewrite H4. simpl.
        now rewrite <- app_assoc.
      * constructor; [reflexivity | exact H5].
Qed.

Lemma Forall_snoc {A : Type} (P : A -> Prop) (l : list A) (x : A) :
  Forall P l -> P x -> Forall P (l ++ [x]).
Proof. intros Hl Hx. apply Forall_app. split; [exact Hl | now constructor]. Qed.

(** The messages of the loop: unfinished snapshots, closed by the timeout
    snapshot when the loop is left by the timeout return and the hub window
    is open. *)
Lemma pollLoop_protocol mn env fuel :
  forall i st w,
    Forall (fun e => isTerminal e = false) (events w) ->
    match pollLoop mn env fuel i st w with
    | (Returned, _, w') =>
        exists pre fin,
          events w' = (pre ++ fin)%list
          /\ Forall (fun e => isTerminal e = false) pre
          /\ (fin = [] \/ fin = [timeoutSnapshot])
          /\ ((forall j, hub (env j) = true) -> fin = [timeoutSnapshot])
    | (Finalize alive, _, w') | (Raised _ alive, _, w') =>
        Forall (fun e => isTerminal e = false) (events w')
        /\ ((forall j, hub (env j) = true) -> alive = true)
    end.
Proof.
  induction fuel as [|fuel IH]; intros i st w Hw; [now split |].
  cbn [pollLoop].
  destruct (parse (env i)) as [r | msg]; [| now split].
  assert (Hb : match processBatch mn (env i) r st (countPoll w) with
               | inl (_, w1) | inr (_, w1) =>
                   Forall (fun e => isTerminal e = false) (events w1)
               end).
  { unfold processBatch. destruct (pr_modules r); [exact Hw | | exact Hw].
    destruct (hub (env i)); [| exact Hw]. simpl. now apply Forall_snoc. }
  destruct (processBatch mn (env i) r st (countPoll w))
    as [[message w1] | [st1 w1]]; [now split |].
  destruct (stableExit _ _); [now split |].
  destruct (zeroTimedOut _ _).
  - unfold timeOut, sendIf. destruct (hub (env i)) eqn:Eh; simpl.
    + exists (events w1), [timeoutSnapshot]. now repeat split; auto.
    + exists (events w1), []. rewrite app_nil_r.
      repeat split; auto. intros H. rewrite H in Eh. discriminate.
  - destruct (scroll (env i)); [now apply IH | now split].
Qed.

(** The messages of a whole search. *)
Lemma runSearch_protocol mn su env :
  exists pre fin,
    events (runSearch mn su env) = (pre ++ fin)%list
    /\ Forall (fun e => isTerminal e = false) pre
    /\ (fin = [] \/ exists d err, fin = [SearchUpdated d true err])
    /\ (hubOpen su env -> fin <> []).
Proof.
  assert (Hcatch : forall message w,
             Forall (fun e => isTerminal e = false) (events w) ->
             exists pre fin,
               events (catch message (hubDuringSetup su) w) = (pre ++ fin)%list
               /\ Forall (fun e => isTerminal e = false) pre
               /\ (fin = [] \/ exists d err, fin = [SearchUpdated d true err])
               /\ (hubOpen su env -> fin <> [])).
  { intros message w Hw. unfold catch, sendIf.
    destruct (hubDuringSetup su) eqn:Eh; simpl.
    - exists (events w), [SearchUpdated [] true (Some message)].
      repeat split; eauto.
    - exists (events w), []. rewrite app_nil_r. repeat split; auto.
      intros [H _]. rewrite H in Eh. discriminate. }
  unfold runSearch.
  destruct (selectModuleType su); [| apply Hcatch; constructor].
  destruct (enterSearch su); [| apply Hcatch; constructor].
  assert (H1 : Forall (fun e => isTerminal e = false)
                 (events (sendIf (hubDuringSetup su)
                            (SearchProgress "enterName") startWorld))).
  { destruct (hubDuringSetup su); repeat constructor. }
  destruct (selectPlatform su); [| now apply Hcatch].
  unfold polling.
  match goal with
  | |- context [pollLoop ?mn ?e ?f ?i ?st ?w] =>
      assert (Hw : Forall (fun e => isTerminal e = false) (events w));
      [ destruct (hubDuringSetup su); repeat constructor
      | pose proof (pollLoop_protocol mn e f i st w Hw) as Hp;
        destruct (pollLoop mn e f i st w) as [[ex st'] w'] ]
  end.
  destruct ex as [alive | | message alive]; simpl.
  - destruct Hp as [Hev Halive]. unfold finalize, sendIf.
    destruct alive; simpl.
    + eexists (events w'), [_]. repeat split; eauto.
    + exists (events w'), []. rewrite app_nil_r. repeat split; auto.
      intros [_ H]. specialize (Halive H). discriminate.
  - destruct Hp as (pre & fin & Heq & Hpre & Hfin & Hopen).
    exists pre, fin. repeat split; auto.
    + destruct Hfin as [-> | ->]; [now left | right].
      now exists [], (Some "timeout").
    + intros [_ H]. rewrite (Hopen H). discriminate.
  - destruct Hp as [Hev Halive]. unfold catch, sendIf.
    destruct alive; simpl.
    + eexists (events w'), [_]. repeat split; eauto.
    + exists (events w'), []. rewrite app_nil_r. repeat split; auto.
      intros [_ H]. specialize (Halive H). discriminate.
Qed.

(** X5.  A search sends at most one terminal snapshot ([finished: true])
    and nothing after it: its messages are progress messages and unfinished
    snapshots, followed by nothing or by one terminal snapshot. *)
Theorem at_most_one_terminal_snapshot (moduleName : string) (su : Setup)
        (env : nat -> Poll) :
  exists pre fin,
    events (runSearch moduleName su env) = (pre ++ fin)%list
    /\ Forall (fun e => isTerminal e = false) pre
    /\ (fin = [] \/ exists d err, fin = [SearchUpdated d true err]).
Proof.
  destruct (runSearch_protocol moduleName su env)
    as (pre & fin & H1 & H2 & H3 & _).
  now exists pre, fin.
Qed.

(** X6.  With the hub window open at every reading, a search always tells
    the renderer that it has ended: the last message is a terminal
    snapshot, whichever way the search ends (stability, the cap, a failed
    parse pass, the timeout, an exception). *)
Theorem open_hub_gets_terminal_snapshot (moduleName : string) (su : Setup)
        (env : nat -> Poll) :
  hubOpen su env ->
  exists pre d err,
    events (runSearch moduleName su env)
    = (pre ++ [SearchUpdated d true err])%list
    /\ Forall (fun e => isTerminal e = false) pre.
Proof.
  intros Hopen.
  destruct (runSearch_protocol moduleName su env)
    as (pre & fin & H1 & H2 & H3 & H4).
  destruct H3 as [-> | (d & err & ->)]; [now destruct (H4 Hopen) |].
  now exists pre, d, err.
Qed.

Lemma open_hub_gets_terminal_snapshot_witness :
  hubOpen setupOk steadyFive
  /\ exists pre d err,
       events (runSearch "" setupOk steadyFive)
       = (pre ++ [SearchUpdated d true err])%list
       /\ Forall (fun e => isTerminal e = false) pre.
Proof.
  assert (H : hubOpen setupOk steadyFive).
  { split; [reflexivity | intros j; reflexivity]. }
  split; [exact H | exact (open_hub_gets_terminal_snapshot "" _ _ H)].
Defined.

Lemma batch_record_stored_once_witness :
  held ajaxOffline (deduped (mergeModules initLoop [ajaxOnline; ajaxOffline]))
  = 1%nat.
Proof.
  apply (batch_record_stored_once initLoop [ajaxOnline; ajaxOffline]
           ajaxOffline storeOk_init).
  - simpl. right. left. reflexivity.
  - constructor.
  - repeat constructor.
Defined.

Lemma timeout_only_without_records_witness :
  fst (fst (pollLoop "" loaderStuck 60 0 initLoop startWorld)) = Returned
  /\ deduped (snd (fst (pollLoop "" loaderStuck 60 0 initLoop startWorld)))
     = [].
Proof.
  assert (H : fst (fst (pollLoop "" loaderStuck 60 0 initLoop startWorld))
              = Returned) by (vm_compute; reflexivity).
  split; [exact H |].
  exact (proj1 (proj2 (timeout_only_without_records "" loaderStuck 60 0
                         initLoop startWorld H))).
Defined.

(* ===================================================================== *)
(** * Properties: the status display of a search tab                      *)
(* ===================================================================== *)

Lemma StatusClass_eqb_eq (a b : StatusClass) :
  StatusClass_eqb a b = true <-> a = b.
Proof. destruct a, b; simpl; split; congruence. Qed.

Lemma In_classRemove (c x : StatusClass) (l : list StatusClass) :
  In x (classRemove c l) <-> In x l /\ x <> c.
Proof.
  unfold classRemove. rewrite List.filter_In, negb_true_iff.
  rewrite <- not_true_iff_false, StatusClass_eqb_eq. tauto.
Qed.

Lemma In_classAdd (c x : StatusClass) (l : list StatusClass) :
  In x (classAdd c l) <-> x = c \/ In x l.
Proof.
  unfold classAdd. destruct (existsb _ l) eqn:E.
  - apply existsb_exists in E as [y [Hy E]].
    apply StatusClass_eqb_eq in E. subst y.
    split; [tauto |]. intros [-> | H]; assumption.
  - rewrite in_app_iff. simpl. split.
    + intros [H | [H | []]]; auto.
    + intros [-> | H]; auto.
Qed.

Lemma In_setStatus (c a b d e x : StatusClass) (l : list StatusClass) :
  In x (setStatus c [a; b; d; e] l)
  <-> x = c \/ (In x l /\ x <> a /\ x <> b /\ x <> d /\ x <> e).
Proof.
  unfold setStatus. simpl. rewrite In_classAdd, !In_classRemove. tauto.
Qed.

Lemma tab_status_unique (t : Tab) (i : TabInput) :
  exists c,
    c <> Indicator
    /\ (forall x, x <> Indicator ->
                  (In x (statusEl (tabStep t i)) <-> x = c))
    /\ (forall x, x <> Indicator ->
                  (In x (statusTextClasses (tabStep t i)) <-> x = c)).
Proof.
  assert (H : forall c a b d e l x,
             (forall y, y = Indicator \/ y = c \/ y = a \/ y = b \/ y = d
                        \/ y = e) ->
             x <> Indicator ->
             (In x (setStatus c [a; b; d; e] l) <-> x = c)).
  { intros c a b d e l x Hall Hx. rewrite In_setStatus.
    destruct (Hall x) as [? | [? | [? | [? | [? | ?]]]]]; tauto. }
  destruct i as [[stage | data finished error] | |]; simpl.
  - exists Sending. split; [discriminate |].
    split; intros x Hx; apply H; try assumption;
      intros []; auto 10.
  - unfold onSearchUpdated.
    destruct (errorSet error); [| destruct finished]; simpl;
      [exists Failing | exists Finished | exists Running];
      (split; [discriminate |]);
      (split; intros x Hx; apply H; try assumption; intros []; auto 10).
  - exists Stopped. split; [discriminate |].
    split; intros x Hx; apply H; try assumption; intros []; auto 10.
  - exists Sending. split; [discriminate |].
    split; intros x Hx; apply H; try assumption; intros []; auto 10.
Qed.

(** X7.  Whatever a tab showed before, after any message from the main
    process or a click on retry it shows exactly one of the five status
    classes, the same on the status dot and on the status text. *)
Theorem tab_shows_one_status (t : Tab) (i : TabInput) :
  exists c,
    c <> Indicator
    /\ (forall x, x <> Indicator ->
                  (In x (statusEl (tabStep t i)) <-> x = c))
    /\ (forall x, x <> Indicator ->
                  (In x (statusTextClasses (tabStep t i)) <-> x = c)).
Proof. apply tab_status_unique. Qed.

Lemma deliver_snoc (evs : list Event) (e : Event) (t : Tab) :
  deliver (evs ++ [e]) t = tabStep (deliver evs t) (FromMain e).
Proof. unfold deliver. now rewrite map_app, fold_left_app. Qed.

Lemma last_snoc {A : Type} (l : list A) (x d : A) :
  List.last (l ++ [x]) d = x.
Proof.
  induction l as [|a l IH]; [reflexivity |].
  simpl. destruct (l ++ [x])%list eqn:E; [now destruct l | exact IH].
Qed.

(** A terminal snapshot settles the tab, whatever it showed before. *)
Lemma terminal_settles (d : list ModuleRecord) (err : option string)
      (t : Tab) :
  settled (onSearchUpdated d true err t).
Proof.
  unfold settled, onSearchUpdated. destruct (errorSet err); simpl.
  - split; [reflexivity | left].
    split; [apply In_setStatus; now left | auto].
  - split; [reflexivity | right].
    split; [apply In_setStatus; now left |].
    now rewrite last_snoc.
Qed.

(** The messages a search with the hub window open has still to send, as
    long as there are any, settle the tab. *)
Lemma later_messages_settle mn su env (earlier later : list Event)
      (t : Tab) :
  hubOpen su env ->
  events (runSearch mn su env) = (earlier ++ later)%list -> later <> [] ->
  settled (deliver later t).
Proof.
  intros Hopen Hev Hne.
  destruct (runSearch_protocol mn su env)
    as (pre & fin & H1 & _ & H3 & H4).
  destruct H3 as [-> | (d & err & ->)]; [now destruct (H4 Hopen) |].
  destruct (exists_last Hne) as (later' & e & ->).
  rewrite H1, app_assoc in Hev.
  apply app_inj_tail in Hev as [_ <-].
  rewrite deliver_snoc. apply terminal_settles.
Qed.

(** X8.  When messages of a search run with the hub window open are
    delivered to its tab up to the last one, the tab no longer shows the
    search as going on, whatever it showed before and whichever messages
    it had already got: the stop button is disabled and the tab shows
    either the failure status with ['Failed'] and the retry controls, or
    the finished status with ['Complete (n)'], n being the number of
    records last handed to the view, and no retry controls. *)
Theorem tab_settles_after_search (moduleName : string) (su : Setup)
        (env : nat -> Poll) (earlier later : list Event) (t : Tab) :
  hubOpen su env ->
  events (runSearch moduleName su env) = (earlier ++ later)%list ->
  later <> [] ->
  settled (deliver later t).
Proof. apply later_messages_settle. Qed.

Lemma tab_settles_after_search_witness :
  settled
    (deliver (events (runSearch "" setupOk loaderStuck)) createSearchTab).
Proof.
  apply (tab_settles_after_search "" setupOk loaderStuck []
           (events (runSearch "" setupOk loaderStuck)) createSearchTab).
  - split; [reflexivity | intros j; reflexivity].
  - reflexivity.
  - intros H. vm_compute in H. discriminate.
Defined.

(** X30.  A stop does not last on the tab of a search whose loop is still
    going on: the two messages of [stop-search] leave the tab showing
    ['Aborted'], and the messages the search still sends afterwards (its
    loop is not told of the stop) put the failure or the finished status
    in its place. *)
Theorem stop_is_overridden_by_running_search (moduleName : string)
        (su : Setup) (env : nat -> Poll) (earlier later : list Event)
        (e : Entry) (t : Tab) :
  hubOpen su env ->
  events (runSearch moduleName su env) = (earlier ++ later)%list ->
  later <> [] ->
  let stopped := fold_left tabStep (snd (stopSearch e)) (deliver earlier t) in
  let final := deliver later stopped in
  (statusText stopped = Literally "Aborted" /\ In Stopped (statusEl stopped)
   /\ stopDisabled stopped = true)
  /\ settled final
  /\ ~ In Stopped (statusEl final)
  /\ statusText final <> Literally "Aborted".
Proof.
  intros Hopen Hev Hne stopped final.
  split; [| split; [| split]].
  - subst stopped. cbn [stopSearch snd fold_left tabStep onSearchStopped
                        statusText statusEl stopDisabled].
    split; [reflexivity | split; [| reflexivity]].
    apply In_setStatus. now left.
  - now apply (later_messages_settle moduleName su env earlier).
  - subst final. destruct (exists_last Hne) as (later' & ev & ->).
    rewrite deliver_snoc.
    destruct (tab_status_unique (deliver later' stopped) (FromMain ev))
      as (c & Hc & Hel & _).
    pose proof (later_messages_settle moduleName su env earlier
                  (later' ++ [ev]) stopped Hopen Hev Hne) as [_ Hs].
    rewrite deliver_snoc in Hs. intros Hin.
    apply Hel in Hin; [| discriminate].
    destruct Hs as [(Hf & _) | (Hf & _)];
      apply Hel in Hf; try discriminate; congruence.
  - pose proof (later_messages_settle moduleName su env earlier later
                  stopped Hopen Hev Hne) as [_ Hs].
    fold final in Hs.
    destruct Hs as [(_ & -> & _) | (_ & -> & _)]; discriminate.
Qed.

Lemma stop_is_overridden_by_running_search_witness :
  settled
    (deliver (skipn 3 (events (runSearch "" setupOk steadyFive)))
       (fold_left tabStep (snd (stopSearch (entry startWorld)))
          (deliver (firstn 3 (events (runSearch "" setupOk steadyFive)))
             createSearchTab))).
Proof.
  refine (proj1 (proj2 (stop_is_overridden_by_running_search
                          "" setupOk steadyFive
                          (firstn 3 (events (runSearch "" setupOk steadyFive)))
                          (skipn 3 (events (runSearch "" setupOk steadyFive)))
                          (entry startWorld) createSearchTab _ _ _))).
  - split; [reflexivity | intros j; reflexivity].
  - symmetry. apply firstn_skipn.
  - intros H. vm_compute in H. discriminate.
Defined.

(* ===================================================================== *)
(** * Properties: the two age parsers                                      *)
(* ===================================================================== *)

Lemma startsWith_hour_not_day (u : string) :
  Str.startsWith "hour" u = true -> Str.startsWith "day" u = false.
Proof.
  destruct u as [|a u]; [discriminate |].
  cbn [Str.startsWith].
  destruct (Ascii.eqb_spec "h" a) as [<- | _];
    [intros _; reflexivity | discriminate].
Qed.

(** X9.  The two age parsers agree on every text: they return [null] on
    the same texts, and where they return a number the age in hours is the
    age in days times 24 (numbers being exact). *)
Theorem age_in_hours_is_24_times_age_in_days (str : string) :
  match parseAgeToHours str, parseAgeToDays str with
  | Some h, Some d => (h == d * 24)%Q
  | None, None => True
  | _, _ => False
  end.
Proof.
  unfold parseAgeToHours, parseAgeToDays.
  destruct (Str.isEmpty str); [exact I |].
  destruct (search ageRe (Str.toLowerCase str)) as [m |]; [| exact I].
  destruct (Num.parseFloat (group 1 m)) as [val |]; [| exact I].
  destruct (Str.startsWith "hour" (group 2 m)) eqn:Eh.
  - rewrite (startsWith_hour_not_day _ Eh). field.
  - destruct (Str.startsWith "day" (group 2 m)); [reflexivity | exact I].
Qed.

Lemma stripPrefix_append (t rest : string) :
  Str.stripPrefix t (t ++ rest) = Some rest.
Proof.
  induction t as [|a t IH]; sapp; simpl; [now destruct rest |].
  now rewrite Ascii.eqb_refl.
Qed.

Lemma run_Alt {R : Type} r1 r2 s c (K : string -> captures -> option R) :
  run (Alt r1 r2) s c K
  = match run r1 s c K with Some x => Some x | None => run r2 s c K end.
Proof. reflexivity. Qed.

Lemma run_unit_day tail c :
  run (Grp 2 unitRe) ("day" ++ tail) c (fun _ c' => Some c')
  = Some ((2%nat, "day") :: c).
Proof.
  rewrite run_Grp. unfold unitRe. rewrite run_Alt, run_Lit.
  rewrite stripPrefix_append. now rewrite take_append.
Qed.

Lemma run_unit_hour tail c :
  run (Grp 2 unitRe) ("hour" ++ tail) c (fun _ c' => Some c')
  = Some ((2%nat, "hour") :: c).
Proof.
  rewrite run_Grp. unfold unitRe. rewrite run_Alt, run_Lit.
  change (Str.stripPrefix "day" ("hour" ++ tail)) with (@None string).
  rewrite run_Alt, run_Lit.
  change (Str.stripPrefix "days" ("hour" ++ tail)) with (@None string).
  rewrite run_Alt, run_Lit.
  rewrite stripPrefix_append. now rewrite take_append.
Qed.

Lemma toLowerCase_numeral (ip fp : string) :
  Str.all Str.isDigit ip = true -> Str.all Str.isDigit fp = true ->
  Str.toLowerCase (numeral ip fp) = numeral ip fp.
Proof.
  intros Hd Hf. unfold numeral. destruct fp as [|a fp]; simpl Str.isEmpty;
    cbn iota.
  - now apply toLowerCase_digits.
  - rewrite !toLowerCase_append, (toLowerCase_digits ip Hd),
      (toLowerCase_digits _ Hf). reflexivity.
Qed.

Lemma numeral_nonempty (ip fp : string) : ip <> "" -> numeral ip fp <> "".
Proof.
  intros Hne. unfold numeral. destruct fp; simpl; [assumption |].
  destruct ip; [congruence | discriminate].
Qed.

(** X10.  [parseAgeToDays] on a numeral N followed by a space and a text
    that starts with [day] (["3 days ago"], ["1 day ago"]) returns N; on a
    numeral followed by a space and a text that starts with [hour] it
    returns N divided by 24; whatever follows the unit. *)
Theorem parseAgeToDays_numeral (ip fp tail : string) :
  ip <> "" -> Str.all Str.isDigit ip = true ->
  Str.all Str.isDigit fp = true ->
  parseAgeToDays (numeral ip fp ++ " day" ++ tail)
    = Some (Num.decimal ip fp)
  /\ parseAgeToDays (numeral ip fp ++ " hour" ++ tail)
    = Some (Num.decimal ip fp / 24)%Q.
Proof.
  intros Hne Hd Hf.
  pose proof (numeral_nonempty ip fp Hne) as Hnum.
  split.
  - unfold parseAgeToDays.
    rewrite (isEmpty_append_l _ _ Hnum), !toLowerCase_append,
      (toLowerCase_numeral ip fp Hd Hf).
    change (Str.toLowerCase " day") with (" " ++ "day").
    rewrite append_assoc.
    rewrite (search_age ip fp "day" (Str.toLowerCase tail) Hne Hd Hf
               (run_unit_day _ _) eq_refl).
    cbn [group Nat.eqb]. rewrite (parseFloat_numeral ip fp Hne Hd Hf).
    reflexivity.
  - unfold parseAgeToDays.
    rewrite (isEmpty_append_l _ _ Hnum), !toLowerCase_append,
      (toLowerCase_numeral ip fp Hd Hf).
    change (Str.toLowerCase " hour") with (" " ++ "hour").
    rewrite append_assoc.
    rewrite (search_age ip fp "hour" (Str.toLowerCase tail) Hne Hd Hf
               (run_unit_hour _ _) eq_refl).
    cbn [group Nat.eqb]. rewrite (parseFloat_numeral ip fp Hne Hd Hf).
    reflexivity.
Qed.

Lemma parseAgeToDays_numeral_witness :
  parseAgeToDays (numeral "12" "5" ++ " hour" ++ "s ago")
  = Some (Num.decimal "12" "5" / 24)%Q.
Proof.
  exact (proj2 (parseAgeToDays_numeral "12" "5" "s ago" ltac:(discriminate)
                  eq_refl eq_refl)).
Defined.

(* ===================================================================== *)
(** * Properties: [appendModules] on whole batches                        *)
(* ===================================================================== *)

Lemma sameListing_identity (a b : ModuleRecord) :
  sameListing a b = true <-> identity a = identity b.
Proof.
  rewrite sameListing_iff. unfold identity.
  split; [intros (-> & -> & ->); reflexivity | intros [= -> -> ->]; auto].
Qed.

Lemma existsb_identity (l : list ModuleRecord) (m : ModuleRecord) :
  existsb (fun x => sameListing x m) l = true
  <-> In (identity m) (map identity l).
Proof.
  rewrite existsb_exists, in_map_iff.
  split; intros [x [H1 H2]]; exists x.
  - split; [now apply sameListing_identity | assumption].
  - split; [assumption | now apply sameListing_identity].
Qed.

Section BatchFacts.
Variable negAttrsOf : ModuleRecord -> list string.
Variable attrValuesOf : ModuleRecord -> gmap string (option Q).
Variable triggerValuesOf : ModuleRecord -> gmap string (option Q).
Variable Schema : Type.
Variable learn : Schema -> ModuleRecord -> Schema.
Variable trigger : bool.

Local Abbreviation annotate1 :=
  (annotate negAttrsOf attrValuesOf triggerValuesOf trigger).
Local Abbreviation append1 :=
  (appendModule negAttrsOf attrValuesOf triggerValuesOf learn trigger).
Local Abbreviation appendAll :=
  (appendModules negAttrsOf attrValuesOf triggerValuesOf learn trigger).

Lemma appendAll_cons (s : Store Schema) (m : ModuleRecord)
      (l : list ModuleRecord) :
  appendAll s (m :: l) = appendAll (append1 s m) l.
Proof. reflexivity. Qed.

Lemma appendAll_app (s : Store Schema) (l1 l2 : list ModuleRecord) :
  appendAll s (l1 ++ l2) = appendAll (appendAll s l1) l2.
Proof. unfold appendModules. apply fold_left_app. Qed.

(** One record: the store is left as it is, or the annotated record is
    put at the end. *)
Lemma append1_cases (s : Store Schema) (m : ModuleRecord) :
  (append1 s m = s
   /\ (name m = "" \/ In (identity m) (map identity (modules s))))
  \/ (modules (append1 s m) = (modules s ++ [annotate1 m])%list
      /\ name m <> ""
      /\ ~ In (identity m) (map identity (modules s))).
Proof.
  unfold appendModule. destruct (Str.isEmpty (name m)) eqn:En.
  - left. split; [reflexivity | left]. now destruct (name m).
  - destruct (existsb _ (modules s)) eqn:Ex.
    + left. split; [reflexivity | right]. now apply existsb_identity.
    + right. split; [reflexivity | split].
      * now apply isEmpty_false.
      * intros H. apply existsb_identity in H. congruence.
Qed.

Lemma append1_keeps (s : Store Schema) (m : ModuleRecord)
      (i : string * string * string) :
  In i (map identity (modules s)) ->
  In i (map identity (modules (append1 s m))).
Proof.
  intros H. destruct (append1_cases s m) as [[-> _] | [-> _]];
    [exact H |]. rewrite map_app, in_app_iff. now left.
Qed.

Lemma appendAll_keeps (l : list ModuleRecord)
      (i : string * string * string) :
  forall s, In i (map identity (modules s)) ->
            In i (map identity (modules (appendAll s l))).
Proof.
  induction l as [|m l IH]; intros s H; [exact H |].
  rewrite appendAll_cons. apply IH. now apply append1_keeps.
Qed.

(** After a batch, each of its records is nameless or stored. *)
Lemma appendAll_covers (l : list ModuleRecord) :
  forall s m, In m l ->
    name m = "" \/ In (identity m) (map identity (modules (appendAll s l))).
Proof.
  induction l as [|x l IH]; intros s m H; [destruct H |].
  rewrite appendAll_cons. destruct H as [-> | H]; [| now apply IH].
  destruct (append1_cases s m) as [[Heq [Hn | Hin]] | (Heq & Hn & Hnew)].
  - now left.
  - right. apply appendAll_keeps. now rewrite Heq.
  - right. apply appendAll_keeps. rewrite Heq, map_app, in_app_iff.
    right. now left.
Qed.

(** A batch whose records are all nameless or stored changes nothing. *)
Lemma appendAll_absorbs (l : list ModuleRecord) (s : Store Schema) :
  (forall m, In m l ->
     name m = "" \/ In (identity m) (map identity (modules s))) ->
  appendAll s l = s.
Proof.
  induction l as [|x l IH]; intros H; [reflexivity |].
  rewrite appendAll_cons.
  assert (Hx : append1 s x = s).
  { unfold appendModule. destruct (H x (or_introl eq_refl)) as [Hn | Hin].
    - now rewrite Hn.
    - apply existsb_identity in Hin. rewrite Hin.
      now destruct (Str.isEmpty _). }
  rewrite Hx. apply IH. intros m Hm. apply H. now right.
Qed.

Lemma appendAll_snapshots (s : Store Schema) (l l2 : list ModuleRecord) :
  appendAll (appendAll s l) (l ++ l2) = appendAll s (l ++ l2).
Proof.
  rewrite (appendAll_app (appendAll s l)), (appendAll_app s). f_equal.
  apply appendAll_absorbs. intros m Hm. now apply appendAll_covers.
Qed.

Lemma appendAll_order (l : list ModuleRecord) :
  forall s,
    List.NoDup (map identity (modules s)) ->
    Forall (fun m => name m <> "") (modules s) ->
    (exists added,
        modules (appendAll s l) = (modules s ++ added)%list
        /\ sublist (map extracted added) (map extracted l))
    /\ List.NoDup (map identity (modules (appendAll s l)))
    /\ Forall (fun m => name m <> "") (modules (appendAll s l)).
Proof.
  induction l as [|x l IH]; intros s Hnd Hnamed.
  - split; [| now split]. exists []. split; [now rewrite app_nil_r |].
    constructor.
  - rewrite appendAll_cons.
    destruct (append1_cases s x) as [[Heq _] | (Heq & Hn & Hnew)].
    + rewrite Heq. destruct (IH s Hnd Hnamed) as [[added [H1 H2]] H3].
      split; [| exact H3]. exists added. split; [exact H1 |].
      simpl. now apply sublist_cons.
    + assert (Hnd' : List.NoDup (map identity (modules (append1 s x)))).
      { rewrite Heq, map_app. simpl. now apply NoDup_snoc. }
      assert (Hnamed' : Forall (fun m => name m <> "") (modules (append1 s x))).
      { rewrite Heq. apply Forall_app. split; [exact Hnamed |].
        constructor; [exact Hn | constructor]. }
      destruct (IH _ Hnd' Hnamed') as [[added [H1 H2]] H3].
      split; [| exact H3]. exists (annotate1 x :: added). split.
      * rewrite H1, Heq, <- app_assoc. reflexivity.
      * simpl. now apply sublist_skip.
Qed.

End BatchFacts.

(** X11.  Feeding [appendModules] the growing snapshots of a search one
    after the other leaves the same store as feeding it the last snapshot
    alone: a batch that repeats an earlier batch and goes on adds only what
    goes on.  In particular a batch given twice is stored once. *)
Theorem appendModules_growing_snapshots
        (negAttrsOf : ModuleRecord -> list string)
        (attrValuesOf triggerValuesOf : ModuleRecord -> gmap string (option Q))
        (Schema : Type) (learn : Schema -> ModuleRecord -> Schema)
        (trigger : bool) (s : Store Schema) (l l2 : list ModuleRecord) :
  let appendAll := appendModules negAttrsOf attrValuesOf triggerValuesOf
                                 learn trigger in
  appendAll (appendAll s l) (l ++ l2)%list = appendAll s (l ++ l2)%list
  /\ appendAll (appendAll s l) l = appendAll s l.
Proof.
  intros appendAll. split; [apply appendAll_snapshots |].
  pose proof (appendAll_snapshots negAttrsOf attrValuesOf triggerValuesOf
                Schema learn trigger s l []) as H.
  now rewrite app_nil_r in H.
Qed.

(** X12.  [appendModules] keeps the helper's store in order: the records
    held before stay where they are, what is added are records of the
    batch, their extracted fields unchanged and in the order of the batch;
    and when no two stored records agreed on name, price and seller and
    none was nameless, that is still so afterwards. *)
Theorem appendModules_keeps_store_in_order
        (negAttrsOf : ModuleRecord -> list string)
        (attrValuesOf triggerValuesOf : ModuleRecord -> gmap string (option Q))
        (Schema : Type) (learn : Schema -> ModuleRecord -> Schema)
        (trigger : bool) (s : Store Schema) (l : list ModuleRecord) :
  List.NoDup (map identity (modules s)) ->
  Forall (fun m => name m <> "") (modules s) ->
  let s' := appendModules negAttrsOf attrValuesOf triggerValuesOf learn
                          trigger s l in
  (exists added,
      modules s' = (modules s ++ added)%list
      /\ sublist (map extracted added) (map extracted l))
  /\ List.NoDup (map identity (modules s'))
  /\ Forall (fun m => name m <> "") (modules s').
Proof. intros Hnd Hnamed. now apply appendAll_order. Qed.

Lemma appendModules_keeps_store_in_order_witness :
  List.NoDup
    (map identity
       (modules (appendModules (fun _ => []) (fun _ => ∅) (fun _ => ∅)
                   (fun _ _ => tt) false emptyStore
                   [ajaxOnline; ajaxOffline]))).
Proof.
  exact (proj1 (proj2 (appendModules_keeps_store_in_order
                         (fun _ => []) (fun _ => ∅) (fun _ => ∅)
                         unit (fun _ _ => tt) false emptyStore
                         [ajaxOnline; ajaxOffline]
                         (List.NoDup_nil _) (List.Forall_nil _)))).
Defined.

(* ===================================================================== *)
(** * Properties: filter and sort of [updateResults]                      *)
(* ===================================================================== *)

Lemma filter_all {A : Type} (p : A -> bool) (l : list A) :
  (forall x, p x = true) -> List.filter p l = l.
Proof.
  intros H. induction l as [|a l IH]; simpl; [reflexivity |].
  now rewrite H, IH.
Qed.

Lemma forallb_all {A : Type} (p : A -> bool) (l : list A) :
  (forall x, In x l -> p x = true) -> forallb p l = true.
Proof. intros H. now apply forallb_forall. Qed.

(** X13.  When [hasAnyFilterSet] finds no filter value set, no category,
    socket or platform is selected and the seller text is kept trimmed (as
    its input handler and [applyState] leave it), [updateResults] hides
    nothing: every record passes the filter. *)
Theorem no_filter_set_hides_nothing (f : Filters)
        (ms : list ModuleRecord) :
  hasAnyFilterSet f = false ->
  activeCats f = [] -> selectedSockets f = [] -> selectedPlatforms f = [] ->
  Str.trim (sellerFilterVal f) = sellerFilterVal f ->
  filtered f ms = ms.
Proof.
  intros Hnone Hc Hs Hp Htrim. apply filter_all. intros m.
  unfold hasAnyFilterSet in Hnone.
  cbn [getState priceMin priceMax mrMin mrMax rerollMin rerollMax ageMin
       ageMax ageHoursMin ageHoursMax seller statuses attributes_
       negAttributes_ moduleNames triggerFilters] in Hnone.
  rewrite !orb_false_iff in Hnone.
  destruct Hnone as [[[[[[[[[[[[Hpmin Hpmax] Hrank] Hamin] Hamax] Hhmin]
                             Hhmax] Hseller] Hstat] Hattr] Hneg] Hmod] Htrig].
  rewrite Htrim in Hseller. apply negb_false_iff in Hseller.
  unfold passes, catMatch, attrMatch, socketMatch, platformMatch, priceMatch,
    mrMatch, rerollMatch, statusMatch, ageMatch, ageHoursMatch, triggerMatch,
    negFilterMatch, sellerMatch, moduleMatch.
  rewrite Hc, Hs, Hp, Hseller.
  destruct (priceMinVal f); [discriminate |].
  destruct (priceMaxVal f); [discriminate |].
  destruct (ageMinVal f); [discriminate |].
  destruct (ageMaxVal f); [discriminate |].
  destruct (ageHoursMinVal f); [discriminate |].
  destruct (ageHoursMaxVal f); [discriminate |].
  destruct (selectedStatuses f); [| discriminate].
  destruct (selectedAttrs f); [| discriminate].
  destruct (selectedNegAttrs f); [| discriminate].
  destruct (selectedModuleNames f); [| discriminate].
  assert (Hprice : match priceNum m with
                   | Some _ => negb false && negb false
                   | None => true
                   end = true) by now destruct (priceNum m).
  rewrite Hprice. simpl.
  destruct (isTriggerMode f) eqn:Et; simpl in *.
  - destruct (triggerAttrMap f); [| reflexivity].
    rewrite !andb_true_r. apply forallb_all. intros [attr rg] Hin.
    assert (H : isSet (rmin rg) || isSet (rmax rg) = false).
    { apply not_true_is_false. intros H.
      assert (existsb (fun e => isSet (rmin (snd e)) || isSet (rmax (snd e)))
                (triggerFilterValues f) = true); [| congruence].
      apply existsb_exists. now exists (attr, rg). }
    apply orb_false_iff in H as [H1 H2]. unfold triggerOk.
    destruct (rmin rg); [discriminate |]. destruct (rmax rg); [discriminate |].
    reflexivity.
  - rewrite !orb_false_iff in Hrank. destruct Hrank as [[[H1 H2] H3] H4].
    destruct (mrMinVal f); [discriminate |].
    destruct (mrMaxVal f); [discriminate |].
    destruct (rerollMinVal f); [discriminate |].
    destruct (rerollMaxVal f); [discriminate |].
    reflexivity.
Qed.

Lemma no_filter_set_hides_nothing_witness :
  filtered (neutral false None) fiveListings = fiveListings.
Proof.
  apply (no_filter_set_hides_nothing (neutral false None) fiveListings);
    reflexivity.
Defined.

Section SortFacts.
Variable cmp : ModuleRecord -> ModuleRecord -> Q.

Lemma insertCard_perm (x : ModuleRecord) (l : list ModuleRecord) :
  Permutation (insertCard cmp x l) (x :: l).
Proof.
  induction l as [|y l IH]; simpl; [reflexivity |].
  destruct (Qle_bool (cmp x y) 0); [reflexivity |].
  rewrite IH. apply perm_swap.
Qed.

Lemma sortCards_perm (l : list ModuleRecord) :
  Permutation (sortCards cmp l) l.
Proof.
  induction l as [|x l IH]; simpl; [reflexivity |].
  rewrite insertCard_perm. now constructor.
Qed.

(** The comparator read as an order. *)
Variable R : ModuleRecord -> ModuleRecord -> Prop.
Hypothesis R_cmp : forall a b, Qle_bool (cmp a b) 0 = true <-> R a b.
Hypothesis R_total : forall a b, R a b \/ R b a.
Hypothesis R_trans : forall a b c, R a b -> R b c -> R a c.

Lemma insertCard_sorted (x : ModuleRecord) (l : list ModuleRecord) :
  ForallOrdPairs R l -> ForallOrdPairs R (insertCard cmp x l).
Proof.
  induction l as [|y l IH]; simpl; intros Hl.
  - constructor; constructor.
  - inversion Hl as [|? ? Hy Hl']; subst.
    destruct (Qle_bool (cmp x y) 0) eqn:E.
    + apply R_cmp in E. constructor; [| exact Hl].
      constructor; [exact E |].
      eapply List.Forall_impl; [| exact Hy]. intros z Hz.
      now apply (R_trans x y z).
    + assert (Hyx : R y x).
      { destruct (R_total x y) as [H | H]; [| exact H].
        apply R_cmp in H. congruence. }
      constructor; [| now apply IH].
      apply List.Forall_forall. intros z Hz.
      apply (Permutation_in _ (insertCard_perm x l)) in Hz.
      destruct Hz as [<- | Hz]; [exact Hyx |].
      rewrite List.Forall_forall in Hy. now apply Hy.
Qed.

Lemma sortCards_sorted (l : list ModuleRecord) :
  ForallOrdPairs R (sortCards cmp l).
Proof.
  induction l as [|x l IH]; simpl; [constructor |].
  now apply insertCard_sorted.
Qed.

(** A class of records the comparator does not tell apart keeps its
    order. *)
Variable cls : ModuleRecord -> bool.
Hypothesis cls_tied :
  forall a b, cls a = true -> cls b = true -> Qle_bool (cmp a b) 0 = true.

Lemma insertCard_class (x : ModuleRecord) (l : list ModuleRecord) :
  List.filter cls (insertCard cmp x l) = List.filter cls (x :: l).
Proof.
  induction l as [|y l IH]; [reflexivity |].
  cbn [insertCard]. destruct (Qle_bool (cmp x y) 0) eqn:E; [reflexivity |].
  cbn [List.filter] in *. rewrite IH.
  destruct (cls x) eqn:Ex, (cls y) eqn:Ey; try reflexivity.
  rewrite (cls_tied x y Ex Ey) in E. discriminate.
Qed.

Lemma sortCards_class (l : list ModuleRecord) :
  List.filter cls (sortCards cmp l) = List.filter cls l.
Proof.
  induction l as [|x l IH]; [reflexivity |].
  cbn [sortCards fold_right]. rewrite insertCard_class.
  cbn [List.filter]. fold (sortCards cmp l). now rewrite IH.
Qed.

End SortFacts.

Lemma Qle_bool_minus (x y : Q) : Qle_bool (x - y) 0 = true <-> (x <= y)%Q.
Proof.
  rewrite Qle_bool_iff. unfold Qle, Qminus, Qplus, Qopp. simpl. lia.
Qed.

Lemma Qeq_bool_tied (x y p : Q) :
  Qeq_bool x p = true -> Qeq_bool y p = true -> (x <= y)%Q.
Proof.
  rewrite !Qeq_bool_iff. intros -> ->. apply Qle_refl.
Qed.

(** X14.  With the sort key [priceAsc] ([priceDesc]) the cards are shown
    in ascending (descending) order of price, a price that does not parse
    counting as 0; they are the filtered records, each once; and records
    of equal price keep the order the store has them in. *)
Theorem price_sort_is_a_stable_sort
        (localeCompare : string -> string -> Z) (descending : bool)
        (f : Filters) (ms : list ModuleRecord) :
  sortVal f = Some (if descending then "priceDesc" else "priceAsc") ->
  ForallOrdPairs
    (fun a b => if descending then (parsePrice b <= parsePrice a)%Q
                else (parsePrice a <= parsePrice b)%Q)
    (shown localeCompare f ms)
  /\ Permutation (shown localeCompare f ms) (filtered f ms)
  /\ forall p, pricedAt p (shown localeCompare f ms)
               = pricedAt p (filtered f ms).
Proof.
  intros Hkey. unfold shown. rewrite Hkey.
  split; [| split; [apply sortCards_perm |]].
  - destruct descending.
    + apply sortCards_sorted.
      * intros a b. unfold compareCards. simpl. apply Qle_bool_minus.
      * intros a b. destruct (Qlt_le_dec (parsePrice a) (parsePrice b));
          [right; now apply Qlt_le_weak | now left].
      * intros a b c H1 H2. now apply (Qle_trans _ (parsePrice b)).
    + apply sortCards_sorted.
      * intros a b. unfold compareCards. simpl. apply Qle_bool_minus.
      * intros a b. destruct (Qlt_le_dec (parsePrice a) (parsePrice b));
          [left; now apply Qlt_le_weak | now right].
      * intros a b c H1 H2. now apply (Qle_trans _ (parsePrice b)).
  - intros p. unfold pricedAt. apply sortCards_class.
    intros a b Ha Hb. destruct descending; unfold compareCards; simpl;
      apply Qle_bool_minus; eapply Qeq_bool_tied; eassumption.
Qed.

Lemma price_sort_is_a_stable_sort_witness :
  Permutation
    (shown (fun _ _ => 0) (withSort "priceAsc" (neutral false None))
       fiveListings)
    (filtered (withSort "priceAsc" (neutral false None)) fiveListings).
Proof.
  exact (proj1 (proj2 (price_sort_is_a_stable_sort (fun _ _ => 0) false
                         (withSort "priceAsc" (neutral false None))
                         fiveListings eq_refl))).
Defined.

Lemma Qle_bool_inject (z : Z) : Qle_bool (inject_Z z) 0 = true <-> z <= 0.
Proof.
  rewrite Qle_bool_iff. unfold Qle, inject_Z. simpl. lia.
Qed.

(** X15.  With the sort key [nameAsc] ([nameDesc]) the cards are shown in
    ascending (descending) order of their lower-cased names as
    [localeCompare] orders them, and they are the filtered records, each
    once; provided the collation orders any two texts one way or the other
    and is transitive. *)
Theorem name_sort_orders_cards
        (localeCompare : string -> string -> Z) (descending : bool)
        (f : Filters) (ms : list ModuleRecord) :
  (forall a b, localeCompare a b <= 0 \/ localeCompare b a <= 0) ->
  (forall a b c, localeCompare a b <= 0 -> localeCompare b c <= 0 ->
                 localeCompare a c <= 0) ->
  sortVal f = Some (if descending then "nameDesc" else "nameAsc") ->
  ForallOrdPairs
    (fun a b =>
       if descending
       then localeCompare (Str.toLowerCase (name b))
                          (Str.toLowerCase (name a)) <= 0
       else localeCompare (Str.toLowerCase (name a))
                          (Str.toLowerCase (name b)) <= 0)
    (shown localeCompare f ms)
  /\ Permutation (shown localeCompare f ms) (filtered f ms).
Proof.
  intros Htotal Htrans Hkey. unfold shown. rewrite Hkey.
  split; [| apply sortCards_perm].
  destruct descending; apply sortCards_sorted.
  - intros a b. unfold compareCards. simpl. apply Qle_bool_inject.
  - intros a b. apply Htotal.
  - intros a b c H1 H2. exact (Htrans _ _ _ H2 H1).
  - intros a b. unfold compareCards. simpl. apply Qle_bool_inject.
  - intros a b. apply Htotal.
  - intros a b c H1 H2. exact (Htrans _ _ _ H1 H2).
Qed.

(** A collation that tells texts apart by their length only. *)
Lemma name_sort_orders_cards_witness :
  Permutation
    (shown (fun a b => Z.of_nat (String.length a)
                       - Z.of_nat (String.length b))
           (withSort "nameAsc" (neutral false None)) fiveListings)
    (filtered (withSort "nameAsc" (neutral false None)) fiveListings).
Proof.
  refine (proj2 (name_sort_orders_cards
                   (fun a b => Z.of_nat (String.length a)
                               - Z.of_nat (String.length b))
                   false (withSort "nameAsc" (neutral false None))
                   fiveListings _ _ eq_refl)).
  - intros a b. lia.
  - intros a b c. lia.
Defined.

(* ===================================================================== *)
(** * Properties: objects as tables                                       *)
(* ===================================================================== *)

Section ObjFacts.
Context {V : Type}.
Implicit Types (o : list (string * V)) (k : string) (v : V).

Lemma get_remove_eq k o : Obj.get k (Obj.remove k o) = None.
Proof.
  induction o as [|[k' v'] o IH]; simpl; [reflexivity |].
  destruct (String.eqb_spec k' k) as [E | N]; simpl; [exact IH |].
  now rewrite (proj2 (String.eqb_neq k' k) N).
Qed.

Lemma get_remove_ne k k' o :
  k' <> k -> Obj.get k' (Obj.remove k o) = Obj.get k' o.
Proof.
  intros Hne. induction o as [|[k0 v0] o IH]; simpl; [reflexivity |].
  destruct (String.eqb_spec k0 k) as [E | N]; simpl.
  - subst k0. now rewrite (proj2 (String.eqb_neq k k') (not_eq_sym Hne)).
  - now rewrite IH.
Qed.

Lemma remove_id k o : Obj.get k o = None -> Obj.remove k o = o.
Proof.
  induction o as [|[k' v'] o IH]; simpl; [reflexivity |].
  destruct (String.eqb k' k); [discriminate |]. simpl.
  intros H. now rewrite IH.
Qed.

Lemma get_replace_ne k k' v o :
  k' <> k -> Obj.get k' (Obj.replace k v o) = Obj.get k' o.
Proof.
  intros Hne. induction o as [|[k0 v0] o IH]; simpl; [reflexivity |].
  destruct (String.eqb_spec k0 k) as [E | N]; simpl; [| now rewrite IH].
  subst k0. now rewrite (proj2 (String.eqb_neq k k') (not_eq_sym Hne)).
Qed.

Lemma get_replace_eq k v v0 o :
  Obj.get k o = Some v0 -> Obj.get k (Obj.replace k v o) = Some v.
Proof.
  induction o as [|[k' v'] o IH]; simpl; [discriminate |].
  destruct (String.eqb k' k) eqn:E; simpl; rewrite E; [reflexivity |].
  exact IH.
Qed.

Lemma remove_replace k v o :
  Obj.remove k (Obj.replace k v o) = Obj.remove k o.
Proof.
  induction o as [|[k' v'] o IH]; simpl; [reflexivity |].
  destruct (String.eqb k' k) eqn:E; simpl; rewrite E; simpl;
    [reflexivity | now rewrite IH].
Qed.

Lemma get_place_ne k k' v o :
  k' <> k -> Obj.get k' (Obj.place k v o) = Obj.get k' o.
Proof.
  intros Hne. apply not_eq_sym, String.eqb_neq in Hne.
  induction o as [|[k0 v0] o IH]; simpl; [now rewrite Hne |].
  destruct (Obj.precedes k k0); simpl; [now rewrite Hne |].
  now rewrite IH.
Qed.

Lemma get_place_eq k v o :
  Obj.get k o = None -> Obj.get k (Obj.place k v o) = Some v.
Proof.
  induction o as [|[k' v'] o IH]; simpl; [now rewrite String.eqb_refl |].
  destruct (String.eqb k' k) eqn:E; [discriminate |]. intros H.
  destruct (Obj.precedes k k'); simpl;
    [now rewrite String.eqb_refl | rewrite E; now apply IH].
Qed.

Lemma remove_place k v o :
  Obj.get k o = None -> Obj.remove k (Obj.place k v o) = o.
Proof.
  induction o as [|[k' v'] o IH]; simpl;
    [now rewrite String.eqb_refl |].
  destruct (String.eqb k' k) eqn:E; [discriminate |]. intros H.
  destruct (Obj.precedes k k'); simpl.
  - rewrite String.eqb_refl, E. simpl. f_equal. now apply remove_id.
  - rewrite E. simpl. f_equal. now apply IH.
Qed.

Lemma place_last k v o :
  Obj.arrayIndex k = None -> Obj.place k v o = (o ++ [(k, v)])%list.
Proof.
  intros H. induction o as [|[k' v'] o IH]; simpl; [reflexivity |].
  unfold Obj.precedes. rewrite H. now rewrite IH.
Qed.

Lemma get_set_eq k v o : Obj.get k (Obj.set k v o) = Some v.
Proof.
  unfold Obj.set. destruct (Obj.get k o) eqn:E.
  - now apply get_replace_eq with (v0 := v0).
  - now apply get_place_eq.
Qed.

Lemma get_set_ne k k' v o :
  k' <> k -> Obj.get k' (Obj.set k v o) = Obj.get k' o.
Proof.
  intros Hne. unfold Obj.set. destruct (Obj.get k o).
  - now apply get_replace_ne.
  - now apply get_place_ne.
Qed.

Lemma remove_set k v o : Obj.remove k (Obj.set k v o) = Obj.remove k o.
Proof.
  unfold Obj.set. destruct (Obj.get k o) eqn:E.
  - apply remove_replace.
  - rewrite remove_place by assumption. symmetry. now apply remove_id.
Qed.

End ObjFacts.

(** The same for the stored profiles. *)
Lemma profiles_lookup_insert_eq (p : Profiles) (k : string)
      (v : ProfileState) : <[k := v]> p !! k = Some v.
Proof. apply get_set_eq. Qed.

Lemma profiles_lookup_insert_ne (p : Profiles) (k k' : string)
      (v : ProfileState) : k' <> k -> <[k := v]> p !! k' = p !! k'.
Proof. apply get_set_ne. Qed.

Lemma profiles_lookup_delete_eq (p : Profiles) (k : string) :
  delete k p !! k = None.
Proof. apply get_remove_eq. Qed.

Lemma profiles_lookup_delete_ne (p : Profiles) (k k' : string) :
  k' <> k -> delete k p !! k' = p !! k'.
Proof. apply get_remove_ne. Qed.

Lemma profiles_delete_id (p : Profiles) (k : string) :
  p !! k = None -> delete k p = p.
Proof.
  destruct p as [o]. unfold lookup, Profiles_lookup, delete, Profiles_delete.
  cbn [entries]. intros H. now rewrite remove_id.
Qed.

Lemma profiles_delete_insert (p : Profiles) (k : string) (v : ProfileState) :
  delete k (<[k := v]> p) = delete k p.
Proof.
  destruct p as [o]. unfold insert, Profiles_insert, delete, Profiles_delete.
  cbn [entries]. now rewrite remove_set.
Qed.

(* ===================================================================== *)
(** * Properties: the stored profiles                                     *)
(* ===================================================================== *)

Lemma trim_nonempty (s : string) : Str.trim s <> "" -> s <> "".
Proof. intros H ->. now apply H. Qed.

Lemma modeStore_set (trigger : bool) (ms : ModeStore) (st : Storage) :
  modeStore trigger (setModeStore trigger ms st) = ms.
Proof. now destruct trigger. Qed.

Lemma modeStore_set_other (trigger : bool) (ms : ModeStore) (st : Storage) :
  modeStore (negb trigger) (setModeStore trigger ms st)
  = modeStore (negb trigger) st.
Proof. now destruct trigger. Qed.

Lemma answersTo_false (inherited : string -> bool)
      (profs : Profiles) (name : string) :
  answersTo inherited profs name = false ->
  profs !! name = None /\ inherited name = false.
Proof. unfold answersTo. destruct (profs !! name); [discriminate | auto]. Qed.

(** X16.  Saving with no profile selected, under a typed name that is not
    blank: when the trimmed name already answers in the stored profiles
    (a stored profile, or a name every object has), nothing changes at all;
    otherwise the snapshot of the live filters is stored under the trimmed
    name, every other profile, the default name and the other mode's
    storage stay as they are, the new profile is selected and the save
    button is disabled. *)
Theorem create_profile (inherited : string -> bool) (confirmed : bool)
        (typed : string) (s : Session) :
  selected (manager s) = "" -> Str.trim typed <> "" ->
  let mode := isTriggerMode (live s) in
  let before := modeStore mode (storage s) in
  let s' := onSaveClick inherited confirmed (Some typed) s in
  if answersTo inherited (profiles before) (Str.trim typed)
  then s' = s
  else
    profiles (modeStore mode (storage s'))
    = <[Str.trim typed := getState (live s)]> (profiles before)
    /\ defaultName (modeStore mode (storage s')) = defaultName before
    /\ modeStore (negb mode) (storage s') = modeStore (negb mode) (storage s)
    /\ live s' = live s
    /\ selected (manager s') = Str.trim typed
    /\ saveEnabled (manager s') (live s') = false
    /\ saveDisabled s' = true.
Proof.
  intros Hsel Htrim mode before s'. subst s'. unfold onSaveClick.
  rewrite Hsel. cbn [Str.isEmpty negb].
  assert (Htyped : Str.isEmpty typed = false).
  { apply isEmpty_false. now apply trim_nonempty. }
  assert (Ht : Str.isEmpty (Str.trim typed) = false)
    by now apply isEmpty_false.
  rewrite Htyped, Ht. cbn [negb andb].
  fold mode. fold before.
  destruct (answersTo inherited (profiles before) (Str.trim typed));
    [reflexivity |].
  unfold withStore, updateButtons.
  cbn [storage manager live saveDisabled]. fold mode.
  rewrite modeStore_set, modeStore_set_other.
  assert (Hclean : saveEnabled
                     {| selected := Str.trim typed;
                        currentProfileState := Some (getState (live s)) |}
                     (live s) = false).
  { unfold saveEnabled. cbn [selected currentProfileState].
    rewrite Ht. cbn [negb]. unfold isCurrentStateDirty.
    now rewrite sameJson_refl. }
  rewrite Hclean. repeat split.
Qed.

Lemma create_profile_witness :
  profiles (modeStore false
              (storage (onSaveClick objectPrototype false (Some " mine ")
                          freshSession)))
  = <["mine" := getState (live freshSession)]> ∅.
Proof.
  exact (proj1 (create_profile objectPrototype false " mine " freshSession
                  eq_refl ltac:(discriminate))).
Defined.

(** What the rename listener does with a name that is not blank and differs
    from the selected one. *)
Lemma rename_moves (inherited : string -> bool) (typed : string)
        (v : ProfileState) (s : Session) :
  let mode := isTriggerMode (live s) in
  let before := modeStore mode (storage s) in
  let old := selected (manager s) in
  old <> "" -> profiles before !! old = Some v ->
  typed <> old -> Str.trim typed <> "" ->
  let s' := onRenameClick inherited (Some typed) s in
  if answersTo inherited (profiles before) (Str.trim typed)
  then s' = s
  else
    profiles (modeStore mode (storage s'))
    = <[Str.trim typed := v]> (delete old (profiles before))
    /\ defaultName (modeStore mode (storage s'))
       = (if String.eqb (defaultName before) old then Str.trim typed
          else defaultName before)
    /\ modeStore (negb mode) (storage s') = modeStore (negb mode) (storage s)
    /\ live s' = live s
    /\ manager s' = {| selected := Str.trim typed;
                       currentProfileState := Some v |}.
Proof.
  intros mode before old Hold Hv Hne Htrim s'. subst s'.
  unfold onRenameClick. fold mode. fold before. fold old.
  rewrite (proj2 (isEmpty_false old) Hold).
  rewrite (proj2 (isEmpty_false typed) (trim_nonempty _ Htrim)).
  rewrite (proj2 (isEmpty_false _) Htrim).
  rewrite (proj2 (String.eqb_neq typed old) Hne). cbn [orb].
  destruct (answersTo inherited (profiles before) (Str.trim typed));
    [reflexivity |].
  rewrite Hv. unfold withStore, updateButtons.
  cbn [storage manager live]. fold mode.
  rewrite modeStore_set, modeStore_set_other.
  destruct (String.eqb (defaultName before) old); repeat split.
Qed.

(** X17.  Renaming the selected, stored profile to a typed name that is
    not blank and differs from the old one: when the trimmed name already
    answers in the stored profiles nothing changes; otherwise the stored
    state moves from the old name to the trimmed new one, the default name
    follows when it was the old name, every other profile and the other
    mode's storage stay as they are, and the renamed profile is selected
    with its state remembered. *)
Theorem rename_profile (inherited : string -> bool) (typed : string)
        (v : ProfileState) (s : Session) :
  let mode := isTriggerMode (live s) in
  let before := modeStore mode (storage s) in
  let old := selected (manager s) in
  old <> "" -> profiles before !! old = Some v ->
  typed <> old -> Str.trim typed <> "" ->
  let s' := onRenameClick inherited (Some typed) s in
  if answersTo inherited (profiles before) (Str.trim typed)
  then s' = s
  else
    profiles (modeStore mode (storage s'))
    = <[Str.trim typed := v]> (delete old (profiles before))
    /\ defaultName (modeStore mode (storage s'))
       = (if String.eqb (defaultName before) old then Str.trim typed
          else defaultName before)
    /\ modeStore (negb mode) (storage s') = modeStore (negb mode) (storage s)
    /\ live s' = live s
    /\ manager s' = {| selected := Str.trim typed;
                       currentProfileState := Some v |}.
Proof.
  intros mode before old Hold Hv Hne Htrim s'. subst s'.
  unfold onRenameClick. fold mode. fold before. fold old.
  rewrite (proj2 (isEmpty_false old) Hold).
  rewrite (proj2 (isEmpty_false typed) (trim_nonempty _ Htrim)).
  rewrite (proj2 (isEmpty_false _) Htrim).
  rewrite (proj2 (String.eqb_neq typed old) Hne). cbn [orb].
  destruct (answersTo inherited (profiles before) (Str.trim typed));
    [reflexivity |].
  rewrite Hv. unfold withStore, updateButtons.
  cbn [storage manager live]. fold mode.
  rewrite modeStore_set, modeStore_set_other.
  destruct (String.eqb (defaultName before) old); repeat split.
Qed.

Lemma rename_profile_witness :
  profiles (modeStore false
              (storage (onRenameClick objectPrototype (Some "yours")
                          mineAsDefault)))
  = <["yours" := getState (live freshSession)]>
      (delete "mine" (<["mine" := getState (live freshSession)]> ∅))
  /\ defaultName (modeStore false
                    (storage (onRenameClick objectPrototype (Some "yours")
                                mineAsDefault)))
     = "yours".
Proof.
  pose proof (rename_profile objectPrototype "yours"
                (getState (live freshSession)) mineAsDefault
                ltac:(discriminate) eq_refl ltac:(discriminate)
                ltac:(discriminate)) as H.
  split; [exact (proj1 H) | exact (proj1 (proj2 H))].
Defined.

Lemma initUI_selects (s : Session) (name : string) :
  name <> "" ->
  profiles (modeStore (isTriggerMode (live s)) (storage s)) !! name = None ->
  selected (manager (fst (initUI s))) <> name.
Proof.
  intros Hname Hgone. unfold initUI, load.
  destruct (Str.isEmpty (defaultName _)) eqn:Ed;
    [cbn [fst updateButtons manager selected]; congruence |].
  destruct (profiles _ !! defaultName _) as [st |] eqn:Est;
    cbn [fst updateButtons manager selected]; congruence.
Qed.

(** X18.  Deleting the selected profile, once confirmed.  The profile is
    no longer stored, every other profile and the other mode's storage
    stay as they are, and a later call of [initUI] does not select the
    deleted name.  Where the name makes the text given to [querySelector]
    a selector, the listener returns, with the default name cleared when
    it was the deleted name, no profile selected and the save button as
    [updateButtons] leaves it without one.  Where it does not, the
    listener ends in [SyntaxError] once the profile is removed: the
    default name, the selection, the remembered state and the save button
    stay as they were. *)
Theorem delete_profile (inherited badSelector : string -> bool)
        (s : Session) :
  let mode := isTriggerMode (live s) in
  let before := modeStore mode (storage s) in
  let name := selected (manager s) in
  name <> "" ->
  let s' := fst (onDeleteClick inherited badSelector true s) in
  profiles (modeStore mode (storage s')) = delete name (profiles before)
  /\ modeStore (negb mode) (storage s') = modeStore (negb mode) (storage s)
  /\ live s' = live s
  /\ (if badSelector name
      then snd (onDeleteClick inherited badSelector true s)
           = Throws syntaxError
           /\ defaultName (modeStore mode (storage s')) = defaultName before
           /\ manager s' = manager s
           /\ saveDisabled s' = saveDisabled s
      else snd (onDeleteClick inherited badSelector true s) = Returns
           /\ defaultName (modeStore mode (storage s'))
              = (if String.eqb (defaultName before) name then ""
                 else defaultName before)
           /\ manager s' = noProfile
           /\ saveDisabled s' = negb (hasAnyFilterSet (live s)))
  /\ selected (manager (fst (initUI s'))) <> name.
Proof.
  intros mode before name Hname s'.
  assert (Hmain :
    profiles (modeStore mode (storage s')) = delete name (profiles before)
    /\ modeStore (negb mode) (storage s') = modeStore (negb mode) (storage s)
    /\ live s' = live s
    /\ (if badSelector name
        then snd (onDeleteClick inherited badSelector true s)
             = Throws syntaxError
             /\ defaultName (modeStore mode (storage s'))
                = defaultName before
             /\ manager s' = manager s
             /\ saveDisabled s' = saveDisabled s
        else snd (onDeleteClick inherited badSelector true s) = Returns
             /\ defaultName (modeStore mode (storage s'))
                = (if String.eqb (defaultName before) name then ""
                   else defaultName before)
             /\ manager s' = noProfile
             /\ saveDisabled s' = negb (hasAnyFilterSet (live s)))).
  { subst s'. unfold onDeleteClick. fold mode. fold before. fold name.
    rewrite (proj2 (isEmpty_false name) Hname).
    set (ms1 := if answersTo inherited (profiles before) name
                then saveProfiles (delete name (profiles before)) before
                else before).
    assert (Hp : profiles ms1 = delete name (profiles before)).
    { subst ms1. unfold answersTo.
      destruct (profiles before !! name) eqn:E; [reflexivity |].
      destruct (inherited name); [reflexivity |].
      symmetry. now apply profiles_delete_id. }
    assert (Hd : defaultName ms1 = defaultName before).
    { subst ms1. now destruct (answersTo _ _ _). }
    clearbody ms1.
    destruct (badSelector name).
    - cbn [fst snd storage manager live saveDisabled].
      rewrite modeStore_set, modeStore_set_other. repeat split; assumption.
    - unfold withStore, updateButtons.
      cbn [fst snd storage manager live saveDisabled]. fold mode.
      rewrite modeStore_set, modeStore_set_other, Hd.
      destruct (String.eqb (defaultName before) name);
        cbn [saveDefaultProfileName profiles defaultName];
        repeat split; assumption. }
  destruct Hmain as (Hp & Ho & Hl & Hrest).
  split; [exact Hp | split; [exact Ho | split; [exact Hl |
    split; [exact Hrest |]]]].
  apply initUI_selects; [exact Hname |].
  rewrite Hl. fold mode. rewrite Hp. apply profiles_lookup_delete_eq.
Qed.

Lemma delete_profile_witness :
  (snd (onDeleteClick objectPrototype holdsQuote true mineAsDefault)
   = Returns
   /\ defaultName
        (modeStore false
           (storage (fst (onDeleteClick objectPrototype holdsQuote true
                            mineAsDefault))))
      = "")
  /\ (snd (onDeleteClick objectPrototype holdsQuote true quoteAsDefault)
      = Throws syntaxError
      /\ defaultName
           (modeStore false
              (storage (fst (onDeleteClick objectPrototype holdsQuote true
                               quoteAsDefault))))
         = quoteName).
Proof.
  destruct (delete_profile objectPrototype holdsQuote mineAsDefault
              ltac:(discriminate)) as (_ & _ & _ & H1 & _).
  destruct (delete_profile objectPrototype holdsQuote quoteAsDefault
              ltac:(discriminate)) as (_ & _ & _ & H2 & _).
  split.
  - split; [exact (proj1 H1) | exact (proj1 (proj2 H1))].
  - split; [exact (proj1 H2) | exact (proj1 (proj2 H2))].
Defined.

(** A page loaded with a default profile stored: [initUI] ends in
    [ReferenceError] with the profile selected, no listener registered and
    [window.__updateResults] not wrapped, so that a click on the save
    button does nothing. *)
Example default_profile_stops_initUI :
  snd (initUI storedDefault) = Throws referenceError
  /\ selected (manager (fst (initUI storedDefault))) = "mine"
  /\ listeners (fst (initUI storedDefault)) = 0%nat
  /\ hooked (fst (initUI storedDefault)) = false
  /\ profileStep objectPrototype holdsQuote (fst (initUI storedDefault))
                 (SaveClick true None)
     = fst (initUI storedDefault).
Proof. repeat split. Qed.

Lemma dispatch_mode (inherited badSelector : string -> bool) (s : Session)
      (a : ProfileAction) :
  isTriggerMode (live (fst (dispatch inherited badSelector a s)))
  = isTriggerMode (live s)
  /\ modeStore (negb (isTriggerMode (live s)))
       (storage (fst (dispatch inherited badSelector a s)))
     = modeStore (negb (isTriggerMode (live s))) (storage s).
Proof.
  destruct a as [confirmed typed | typed | confirmed | | name |];
    cbn [dispatch fst].
  - unfold onSaveClick.
    destruct (negb (Str.isEmpty (selected (manager s)))).
    + destruct confirmed; [| now split].
      split; [reflexivity | apply modeStore_set_other].
    + destruct typed as [name |]; [| now split].
      destruct (negb (Str.isEmpty name) && _); [| now split].
      destruct (answersTo _ _ _); [now split |].
      split; [reflexivity | apply modeStore_set_other].
  - unfold onRenameClick.
    destruct (Str.isEmpty (selected (manager s))); [now split |].
    destruct typed as [newName |]; [| now split].
    destruct (Str.isEmpty newName || _ || _); [now split |].
    destruct (answersTo _ _ _); [now split |].
    split; [reflexivity | apply modeStore_set_other].
  - unfold onDeleteClick.
    destruct (Str.isEmpty (selected (manager s))); [now split |].
    destruct confirmed; [| now split].
    destruct (badSelector _);
      (split; [reflexivity | apply modeStore_set_other]).
  - unfold onSetDefaultClick.
    destruct (Str.isEmpty (selected (manager s))); [now split |].
    split; [reflexivity | apply modeStore_set_other].
  - unfold onSelectChange.
    destruct (Str.isEmpty name); [now split |].
    destruct (profiles _ !! name); now split.
  - unfold initUI.
    destruct (if Str.isEmpty _ then None else _); now split.
Qed.

Lemma profileStep_mode (inherited badSelector : string -> bool)
      (s : Session) (a : ProfileAction) :
  isTriggerMode (live (profileStep inherited badSelector s a))
  = isTriggerMode (live s)
  /\ modeStore (negb (isTriggerMode (live s)))
       (storage (profileStep inherited badSelector s a))
     = modeStore (negb (isTriggerMode (live s))) (storage s).
Proof.
  unfold profileStep. destruct (registered a s); [| now split].
  apply dispatch_mode.
Qed.

(** X19.  The two modes never touch each other's profiles: whatever the
    user does to the profile controls (save, rename, delete, set default,
    select, reload), in whatever order, the mode stays what it is and the
    profiles and default name stored for the other mode stay as they
    were. *)
Theorem profiles_are_kept_per_mode (inherited badSelector : string -> bool)
        (actions : list ProfileAction) (s : Session) :
  let s' := fold_left (profileStep inherited badSelector) actions s in
  isTriggerMode (live s') = isTriggerMode (live s)
  /\ modeStore (negb (isTriggerMode (live s))) (storage s')
     = modeStore (negb (isTriggerMode (live s))) (storage s).
Proof.
  revert s. induction actions as [|a actions IH]; intros s; [now split |].
  simpl. destruct (profileStep_mode inherited badSelector s a) as [Hm Hs].
  destruct (IH (profileStep inherited badSelector s a)) as [Hm' Hs'].
  rewrite Hm in Hm', Hs'. split; congruence.
Qed.

(** X20.  Renaming the selected profile and then renaming it back,
    provided the old name is one the prompt can give back (trimmed, not a
    name every object has) and the default name does not already point at
    the new name.  Every profile has the state it had, the default name,
    the other mode's storage and the filters are as they were, and the
    profile is selected with its state remembered.  But the profile is
    stored again as a new property of the object: unless its name is an
    array index it now comes last, in the stored text and among the
    options of a later [initUI], so that storage is as it was only where
    the profile was the last one already. *)
Theorem rename_there_and_back (inherited : string -> bool)
        (typed : string) (v : ProfileState) (s : Session) :
  let mode := isTriggerMode (live s) in
  let before := modeStore mode (storage s) in
  let old := selected (manager s) in
  old <> "" -> Str.trim old = old -> inherited old = false ->
  profiles before !! old = Some v ->
  typed <> old -> Str.trim typed <> "" ->
  answersTo inherited (profiles before) (Str.trim typed) = false ->
  defaultName before <> Str.trim typed ->
  let s' := onRenameClick inherited (Some old)
              (onRenameClick inherited (Some typed) s) in
  let after := modeStore mode (storage s') in
  profiles after = <[old := v]> (delete old (profiles before))
  /\ (forall name, profiles after !! name = profiles before !! name)
  /\ (Obj.arrayIndex old = None ->
      entries (profiles after)
      = (Obj.remove old (entries (profiles before)) ++ [(old, v)])%list)
  /\ defaultName after = defaultName before
  /\ modeStore (negb mode) (storage s') = modeStore (negb mode) (storage s)
  /\ manager s' = {| selected := old; currentProfileState := Some v |}
  /\ live s' = live s.
Proof.
  intros mode before old Hold Htold Hiold Hv Hne Htrim Hfree Hdef s' after.
  pose proof (rename_moves inherited typed v s Hold Hv Hne Htrim) as H1.
  cbv zeta in H1. fold mode before old in H1. rewrite Hfree in H1.
  destruct H1 as (Hp1 & Hd1 & Ho1 & Hl1 & Hm1).
  set (s1 := onRenameClick inherited (Some typed) s) in *.
  destruct (answersTo_false _ _ _ Hfree) as [Hnone _].
  assert (Hdiff : Str.trim typed <> old) by congruence.
  assert (Hmode1 : isTriggerMode (live s1) = mode) by now rewrite Hl1.
  assert (Hsel1 : selected (manager s1) = Str.trim typed) by now rewrite Hm1.
  assert (Hv1 : profiles (modeStore (isTriggerMode (live s1)) (storage s1))
                !! selected (manager s1) = Some v).
  { rewrite Hmode1, Hsel1, Hp1. apply profiles_lookup_insert_eq. }
  assert (Hfree1 : answersTo inherited
                     (profiles (modeStore (isTriggerMode (live s1))
                                  (storage s1))) (Str.trim old) = false).
  { rewrite Hmode1, Hp1, Htold. unfold answersTo.
    rewrite profiles_lookup_insert_ne by congruence.
    now rewrite profiles_lookup_delete_eq. }
  pose proof (rename_moves inherited old v s1) as H2.
  cbv zeta in H2. rewrite Hfree1 in H2.
  specialize (H2 ltac:(now rewrite Hsel1) Hv1
                 ltac:(rewrite Hsel1; congruence)
                 ltac:(now rewrite Htold)).
  destruct H2 as (Hp2 & Hd2 & Ho2 & Hl2 & Hm2).
  rewrite Hmode1, Hsel1, Htold in *. fold s' in Hp2, Hd2, Ho2, Hl2, Hm2.
  fold after in Hp2, Hd2.
  assert (Hp : profiles after = <[old := v]> (delete old (profiles before))).
  { rewrite Hp2, Hp1, profiles_delete_insert. f_equal.
    apply profiles_delete_id.
    now rewrite profiles_lookup_delete_ne by congruence. }
  split; [exact Hp | split; [| split; [| split; [| split; [| split]]]]].
  - intros name. rewrite Hp.
    destruct (String.eqb_spec name old) as [-> | Hn].
    + now rewrite profiles_lookup_insert_eq.
    + rewrite profiles_lookup_insert_ne by assumption.
      now apply profiles_lookup_delete_ne.
  - intros Hidx. rewrite Hp.
    unfold insert, Profiles_insert, delete, Profiles_delete.
    cbn [entries]. unfold Obj.set. rewrite get_remove_eq.
    now apply place_last.
  - rewrite Hd2, Hd1.
    destruct (String.eqb_spec (defaultName before) old) as [-> | Hd0].
    + now rewrite String.eqb_refl.
    + now rewrite (proj2 (String.eqb_neq (defaultName before)
                            (Str.trim typed)) Hdef).
  - congruence.
  - exact Hm2.
  - congruence.
Qed.

Lemma rename_there_and_back_witness :
  Obj.keys
    (entries
       (profiles
          (modeStore false
             (storage (onRenameClick objectPrototype (Some "mine")
                         (onRenameClick objectPrototype (Some "yours")
                            twoProfiles))))))
  = ["other"; "mine"]
  /\ Obj.keys (entries (profiles (modeStore false (storage twoProfiles))))
     = ["mine"; "other"].
Proof.
  destruct (rename_there_and_back objectPrototype "yours"
              (getState (live freshSession)) twoProfiles
              ltac:(discriminate) eq_refl eq_refl eq_refl
              ltac:(discriminate) ltac:(discriminate) eq_refl
              ltac:(discriminate)) as (_ & _ & H & _).
  split; [| reflexivity].
  exact (f_equal Obj.keys (H eq_refl)).
Defined.

(* ===================================================================== *)
(** * Properties: the save button                                         *)
(* ===================================================================== *)

Lemma saved_is_clean (name : string) (f : Filters) :
  name <> "" ->
  saveEnabled {| selected := name; currentProfileState := Some (getState f) |}
              f = false.
Proof.
  intros Hname. unfold saveEnabled, isCurrentStateDirty.
  cbn [selected currentProfileState].
  rewrite (proj2 (isEmpty_false name) Hname). cbn [negb].
  now rewrite sameJson_refl.
Qed.

(** C7.  The save button does not follow the live filters.  Its
    [disabled] flag is written by [updateButtons] alone, which runs at the
    end of the listeners of the profile buttons and, through the wrapped
    [window.__updateResults], when [appendModules] has appended a batch.
    The listeners of the filter controls call the [updateResults] of their
    closure and never reach it, and loading a profile ends in
    [ReferenceError] inside [applyState] before it is called.

    So, with a profile selected: saving it stores the snapshot of the
    filters and disables the button; a filter control that then changes
    the snapshot leaves the button disabled although
    [isCurrentStateDirty] answers yes; only the next appended batch enables
    it, where [initUI] has set up its hook; and selecting the profile
    again, whether before or after that batch, raises [ReferenceError],
    puts the saved values back into the filter variables (same mode, a
    sort key in the snapshot, the rank and reroll bounds restored or as
    saved), so that [isCurrentStateDirty] answers no, and leaves the
    button as it was: still enabled after the batch. *)
Theorem save_button_goes_stale (inherited : string -> bool)
        (assign : Filters -> Filters) (s : Session) :
  let mode := isTriggerMode (live s) in
  let name := selected (manager s) in
  let saved := getState (live s) in
  name <> "" ->
  sameJson (getState (assign (live s))) saved = false ->
  isTriggerMode (assign (live s)) = mode ->
  truthy (sortVal (live s)) = true ->
  rankAsSaved (live s) (assign (live s)) ->
  let s1 := onSaveClick inherited true None s in
  let s2 := onFacetInput assign s1 in
  let s3 := __updateResults s2 in
  let reloaded (x : Session) :=
    snd (onSelectChange name x) = Throws referenceError
    /\ selected (manager (fst (onSelectChange name x))) = name
    /\ isCurrentStateDirty
         (live (fst (onSelectChange name x)))
         (currentProfileState (manager (fst (onSelectChange name x))))
       = false
    /\ saveDisabled (fst (onSelectChange name x)) = saveDisabled x in
  (* the profile is saved *)
  profiles (modeStore mode (storage s1)) !! name = Some saved
  /\ saveDisabled s1 = true
  (* a filter control is used *)
  /\ isCurrentStateDirty (live s2) (currentProfileState (manager s2)) = true
  /\ saveDisabled s2 = true
  (* a batch is appended *)
  /\ saveDisabled s3 = negb (hooked s)
  (* the profile is selected again *)
  /\ reloaded s2
  /\ reloaded s3.
Proof.
  intros mode name saved Hname Hdirty Hmode Hsort Hrank s1 s2 s3 reloaded.
  subst saved.
  assert (Hn : Str.isEmpty name = false) by now apply isEmpty_false.
  assert (Hs1 : s1
    = {| storage :=
           setModeStore mode
             (saveProfiles
                (<[name := getState (live s)]>
                   (profiles (modeStore mode (storage s))))
                (modeStore mode (storage s))) (storage s);
         manager := {| selected := name;
                       currentProfileState := Some (getState (live s)) |};
         live := live s;
         saveDisabled := true;
         listeners := listeners s;
         hooked := hooked s |}).
  { subst s1. unfold onSaveClick. fold mode. fold name.
    rewrite Hn. cbn [negb]. unfold withStore, updateButtons.
    cbn [storage manager live saveDisabled listeners hooked]. fold mode.
    now rewrite (saved_is_clean name (live s) Hname). }
  assert (Hstored : profiles (modeStore mode (storage s1)) !! name
                    = Some (getState (live s))).
  { rewrite Hs1. cbn [storage]. rewrite modeStore_set.
    apply profiles_lookup_insert_eq. }
  assert (Hd2 : isCurrentStateDirty (live s2)
                  (currentProfileState (manager s2)) = true).
  { subst s2. rewrite Hs1. unfold onFacetInput, isCurrentStateDirty.
    cbn [live manager currentProfileState]. now rewrite Hdirty. }
  assert (Hb2 : saveDisabled s2 = true) by (subst s2; now rewrite Hs1).
  assert (Hb3 : saveDisabled s3 = negb (hooked s)).
  { subst s3. unfold __updateResults.
    assert (Hh : hooked s2 = hooked s) by (subst s2; now rewrite Hs1).
    rewrite Hh. destruct (hooked s); [| exact Hb2].
    unfold updateButtons. cbn [saveDisabled negb].
    unfold saveEnabled.
    replace (selected (manager s2)) with name
      by (subst s2; now rewrite Hs1).
    rewrite Hn. cbn [negb]. now rewrite Hd2. }
  assert (Hre : forall x,
             storage x = storage s1 -> live x = assign (live s) ->
             reloaded x).
  { intros x Hst Hl. subst reloaded. cbv beta.
    unfold onSelectChange. rewrite Hn, Hst, Hl, Hmode, Hstored.
    unfold load. cbn [fst snd manager selected currentProfileState live
                      saveDisabled].
    rewrite Hl. repeat split.
    unfold isCurrentStateDirty.
    rewrite (getState_applyState (live s) (assign (live s)) Hmode Hsort
               Hrank).
    now rewrite sameJson_refl. }
  assert (Hl1 : live s1 = live s) by now rewrite Hs1.
  assert (R2 : reloaded s2).
  { apply Hre; subst s2; unfold onFacetInput; cbn [storage live];
      [reflexivity | now rewrite Hl1]. }
  assert (R3 : reloaded s3).
  { apply Hre; subst s3 s2;
      unfold __updateResults, onFacetInput, updateButtons; cbn [hooked];
      destruct (hooked s1); cbn [storage live];
      solve [reflexivity | now rewrite Hl1]. }
  split; [exact Hstored | split; [now rewrite Hs1 |]].
  split; [exact Hd2 | split; [exact Hb2 | split; [exact Hb3 |]]].
  split; [exact R2 | exact R3].
Qed.

Lemma save_button_goes_stale_witness :
  saveDisabled
    (onFacetInput (withPriceMin (Some 250%Q))
       (onSaveClick objectPrototype true None mineSelected)) = true
  /\ isCurrentStateDirty
       (withPriceMin (Some 250%Q) (live mineSelected))
       (Some (getState (live mineSelected))) = true
  /\ saveDisabled
       (fst (onSelectChange "mine"
               (__updateResults
                  (onFacetInput (withPriceMin (Some 250%Q))
                     (onSaveClick objectPrototype true None mineSelected)))))
     = false.
Proof.
  destruct (save_button_goes_stale objectPrototype
              (withPriceMin (Some 250%Q)) mineSelected
              ltac:(discriminate) eq_refl eq_refl eq_refl
              (or_introl eq_refl))
    as (_ & _ & Hdirty & Hstale & Hbatch & _ & (_ & _ & _ & Hkept)).
  split; [exact Hstale | split; [exact Hdirty |]].
  exact (eq_trans Hkept Hbatch).
Defined.

(** With no profile selected the button is computed by
    [hasAnyFilterSet], which looks neither at the sort key nor at the
    categories: with nothing but the sort key changed from the neutral
    state, the snapshot differs from the neutral one and [updateButtons]
    disables the button. *)
Example sort_key_is_not_counted :
  sameJson (getState (withSort "nameAsc" (neutral false None)))
           (getState (neutral false None)) = false
  /\ saveDisabled
       (updateButtons
          (onFacetInput (withSort "nameAsc") (fst (initUI loadedPage))))
     = true.
Proof. split; reflexivity. Qed.

(* ===================================================================== *)
(** * Properties: the tables kept beside the records                      *)
(* ===================================================================== *)

Lemma covers_noteRange_new (a : string) (v : Q) (t : gmap string Range) :
  covers (noteRange a (Some v) t) a v.
Proof.
  unfold noteRange, covers. destruct (t !! a) as [range |] eqn:E.
  - assert (Hlo : exists lo,
               match rmin range with
               | Some lo => if Num.ltb v lo then Some v else Some lo
               | None => Some v
               end = Some lo /\ (lo <= v)%Q).
    { destruct (rmin range) as [lo |];
        [| exists v; split; [reflexivity | apply Qle_refl]].
      destruct (Num.ltb v lo) eqn:El.
      - exists v. split; [reflexivity | apply Qle_refl].
      - exists lo. split; [reflexivity | now apply ltb_false_iff]. }
    assert (Hhi : exists hi,
               match rmax range with
               | Some hi => if Num.gtb v hi then Some v else Some hi
               | None => Some v
               end = Some hi /\ (v <= hi)%Q).
    { destruct (rmax range) as [hi |];
        [| exists v; split; [reflexivity | apply Qle_refl]].
      destruct (Num.gtb v hi) eqn:El.
      - exists v. split; [reflexivity | apply Qle_refl].
      - exists hi. split; [reflexivity | now apply gtb_false_iff]. }
    destruct Hlo as (lo & -> & Hlo), Hhi as (hi & -> & Hhi).
    exists (mkRange (Some lo) (Some hi)), lo, hi.
    rewrite lookup_insert_eq. now repeat split.
  - exists (mkRange (Some v) (Some v)), v, v. rewrite lookup_insert_eq.
    repeat split; apply Qle_refl.
Qed.

Lemma covers_noteRange_keeps (a b : string) (avg : option Q) (w : Q)
      (t : gmap string Range) :
  covers t b w -> covers (noteRange a avg t) b w.
Proof.
  intros (range & lo & hi & Hl & Hmin & Hmax & Hlo & Hhi).
  unfold noteRange. destruct (String.eqb_spec a b) as [-> | Hne].
  - rewrite Hl. destruct avg as [v |]; [| now exists range, lo, hi].
    rewrite Hmin, Hmax. unfold covers.
    destruct (Num.ltb v lo) eqn:El, (Num.gtb v hi) eqn:Eh;
      [ exists (mkRange (Some v) (Some v)), v, v
      | exists (mkRange (Some v) (Some hi)), v, hi
      | exists (mkRange (Some lo) (Some v)), lo, v
      | exists (mkRange (Some lo) (Some hi)), lo, hi ];
      rewrite lookup_insert_eq;
      (split; [reflexivity | split; [reflexivity | split; [reflexivity |]]]).
    + apply ltb_true_iff in El. apply ltb_true_iff in Eh. split.
      * apply Qlt_le_weak. now apply (Qlt_le_trans _ lo).
      * apply Qlt_le_weak. now apply (Qle_lt_trans _ hi).
    + apply ltb_true_iff in El. split; [| exact Hhi].
      apply Qlt_le_weak. now apply (Qlt_le_trans _ lo).
    + apply ltb_true_iff in Eh. split; [exact Hlo |].
      apply Qlt_le_weak. now apply (Qle_lt_trans _ hi).
    + now split.
  - destruct (t !! a) as [ra |].
    + destruct avg as [v |]; [| now exists range, lo, hi].
      exists range, lo, hi. now rewrite lookup_insert_ne.
    + exists range, lo, hi. now rewrite lookup_insert_ne.
Qed.

Section EntryFacts.
Variable entry : Stat -> option (string * option Q).

Lemma setEntries_lookup (sts : list Stat) (a : string) (x : option Q) :
  forall vals,
    setEntries entry sts vals !! a = Some x ->
    vals !! a = Some x
    \/ exists stat, In stat sts /\ entry stat = Some (a, x).
Proof.
  unfold setEntries. induction sts as [|st sts IH]; intros vals H; simpl in *.
  - now left.
  - destruct (IH _ H) as [H1 | (stat & Hin & He)].
    + destruct (entry st) as [[a' v'] |] eqn:E; [| now left].
      destruct (String.eqb_spec a' a) as [-> | Hne].
      * rewrite lookup_insert_eq in H1. injection H1 as <-.
        right. exists st. split; [now left | exact E].
      * rewrite lookup_insert_ne in H1 by assumption. now left.
    + right. exists stat. split; [now right | exact He].
Qed.

Lemma noteRanges_keeps (sts : list Stat) (b : string) (w : Q) :
  forall t, covers t b w -> covers (noteRanges entry sts t) b w.
Proof.
  unfold noteRanges. induction sts as [|st sts IH]; intros t H; simpl.
  - exact H.
  - apply IH. destruct (entry st) as [[a v] |]; [| exact H].
    now apply covers_noteRange_keeps.
Qed.

Lemma noteRanges_covers (sts : list Stat) (stat : Stat) (a : string)
      (v : Q) :
  forall t, In stat sts -> entry stat = Some (a, Some v) ->
            covers (noteRanges entry sts t) a v.
Proof.
  induction sts as [|st sts IH]; intros t Hin He; [destruct Hin |].
  destruct Hin as [-> | Hin].
  - unfold noteRanges. simpl. rewrite He.
    apply (noteRanges_keeps sts). apply covers_noteRange_new.
  - unfold noteRanges. simpl. now apply IH.
Qed.

End EntryFacts.

Lemma ensureFilter_has (a : string) (t : RangeTable) :
  In a (map fst (ensureFilter a t)).
Proof.
  unfold ensureFilter. destruct (existsb _ t) eqn:E.
  - apply existsb_exists in E as [[k r] [Hin Hk]]. simpl in Hk.
    apply String.eqb_eq in Hk. subst k.
    apply in_map_iff. now exists (a, r).
  - rewrite map_app, in_app_iff. right. now left.
Qed.

Lemma ensureFilter_keeps (a b : string) (t : RangeTable) :
  In b (map fst t) -> In b (map fst (ensureFilter a t)).
Proof.
  intros H. unfold ensureFilter. destruct (existsb _ t); [exact H |].
  rewrite map_app, in_app_iff. now left.
Qed.

Lemma ensureFilters_keeps (sts : list Stat) (b : string) :
  forall t,
    In b (map fst t) ->
    In b (map fst (fold_left (fun acc stat =>
                                match triggerEntry stat with
                                | Some (a, _) => ensureFilter a acc
                                | None => acc
                                end) sts t)).
Proof.
  induction sts as [|st sts IH]; intros t H; simpl; [exact H |].
  apply IH. destruct (triggerEntry st) as [[a v] |]; [| exact H].
  now apply ensureFilter_keeps.
Qed.

Lemma ensureFilters_has (sts : list Stat) (stat : Stat) (a : string)
      (x : option Q) :
  forall t,
    In stat sts -> triggerEntry stat = Some (a, x) ->
    In a (map fst (fold_left (fun acc stat =>
                                match triggerEntry stat with
                                | Some (a, _) => ensureFilter a acc
                                | None => acc
                                end) sts t)).
Proof.
  induction sts as [|st sts IH]; intros t Hin He; [destruct Hin |].
  destruct Hin as [-> | Hin]; simpl.
  - rewrite He. apply ensureFilters_keeps, ensureFilter_has.
  - now apply IH.
Qed.

Lemma negNames_keeps (sts : list Stat) (b : string) :
  forall acc : gset string,
    b ∈ acc ->
    b ∈ fold_left (fun acc stat =>
                     match negEntry stat with
                     | Some a => {[ a ]} ∪ acc
                     | None => acc
                     end) sts acc.
Proof.
  induction sts as [|st sts IH]; intros acc H; simpl; [exact H |].
  apply IH. destruct (negEntry st); [set_solver | exact H].
Qed.

Lemma negNames_has (sts : list Stat) (stat : Stat) (a : string) :
  forall acc : gset string,
    In stat sts -> negEntry stat = Some a ->
    a ∈ fold_left (fun acc stat =>
                     match negEntry stat with
                     | Some a => {[ a ]} ∪ acc
                     | None => acc
                     end) sts acc.
Proof.
  induction sts as [|st sts IH]; intros acc Hin He; [destruct Hin |].
  destruct Hin as [-> | Hin]; simpl.
  - rewrite He. apply negNames_keeps. set_solver.
  - now apply IH.
Qed.

Lemma negAttrs_from (sts : list Stat) (a : string) :
  forall acc,
    In a (fold_left (fun acc stat =>
                       match negEntry stat with
                       | Some a => if includes a acc then acc
                                   else (acc ++ [a])%list
                       | None => acc
                       end) sts acc) ->
    In a acc \/ exists stat, In stat sts /\ negEntry stat = Some a.
Proof.
  induction sts as [|st sts IH]; intros acc H; simpl in *; [now left |].
  destruct (IH _ H) as [H1 | (stat & Hin & He)].
  - destruct (negEntry st) as [a' |] eqn:E; [| now left].
    destruct (includes a' acc); [now left |].
    apply in_app_iff in H1 as [H1 | [<- | []]]; [now left |].
    right. exists st. split; [now left | exact E].
  - right. exists stat. split; [now right | exact He].
Qed.

Lemma accounted_keeps (trigger : bool) (t : Tables) (m x : ModuleRecord) :
  accounted trigger t m -> accounted trigger (learnStats trigger t x) m.
Proof.
  intros (Hv & Hn & Ht). split; [| split].
  - intros a v H. cbn [learnStats tbl_attrRangeMap].
    apply noteRanges_keeps. now apply Hv.
  - intros a H. cbn [learnStats tbl_negAttributes].
    apply negNames_keeps. now apply Hn.
  - intros -> a y H. destruct (Ht eq_refl a y H) as [H1 H2].
    cbn [learnStats tbl_triggerFilterValues tbl_triggerAttrMap]. split.
    + now apply ensureFilters_keeps.
    + intros v ->. apply noteRanges_keeps. now apply H2.
Qed.

Lemma accounted_annotated (trigger : bool) (t : Tables) (m : ModuleRecord) :
  bare m ->
  let m' := annotate negAttrsOf attrValuesOf triggerValuesOf trigger m in
  accounted trigger (learnStats trigger t m') m'.
Proof.
  intros (Hn & Hv & Ht) m'. split; [| split].
  - intros a v H. cbn [m' annotate attrValues] in H.
    unfold attrValuesOf in H. rewrite Hv in H.
    apply setEntries_lookup in H as [H | (stat & Hin & He)];
      [now rewrite lookup_empty in H |].
    cbn [learnStats tbl_attrRangeMap]. now apply (noteRanges_covers _ _ stat).
  - intros a H. cbn [m' annotate negAttributes] in H.
    unfold negAttrsOf in H. rewrite Hn in H.
    apply negAttrs_from in H as [[] | (stat & Hin & He)].
    cbn [learnStats tbl_negAttributes]. now apply (negNames_has _ stat).
  - intros -> a y H. cbn [m' annotate triggerValues] in H.
    unfold triggerValuesOf in H. rewrite Ht in H.
    apply setEntries_lookup in H as [H | (stat & Hin & He)];
      [now rewrite lookup_empty in H |].
    cbn [learnStats tbl_triggerFilterValues tbl_triggerAttrMap]. split.
    + now apply (ensureFilters_has _ stat a y).
    + intros v ->. now apply (noteRanges_covers _ _ stat).
Qed.

(** X21.  The tables [appendModules] keeps beside the records account for
    every stored record: when they did before a batch of records that
    arrive with nothing attached, they do afterwards.  That is, each
    attribute value of a stored record lies in the range [attrRangeMap]
    records for that attribute, each of its negative attribute names is in
    [negAttributes], and in trigger mode each of its trigger options has an
    entry in [triggerFilterValues] and a value within the range of
    [triggerAttrMap]. *)
Theorem tables_account_for_records (trigger : bool) (s : Store Tables)
        (newData : list ModuleRecord) :
  Forall (accounted trigger (schema s)) (modules s) ->
  Forall bare newData ->
  Forall (accounted trigger (schema (appendStats trigger s newData)))
         (modules (appendStats trigger s newData)).
Proof.
  unfold appendStats, appendModules. revert s.
  induction newData as [|m l IH]; intros s Hs Hl; [exact Hs |].
  inversion Hl as [|? ? Hm Hl']; subst. simpl. apply IH; [| exact Hl'].
  unfold appendModule. destruct (Str.isEmpty (name m)); [exact Hs |].
  destruct (existsb _ (modules s)); [exact Hs |].
  cbn [modules schema]. apply Forall_app. split.
  - eapply List.Forall_impl; [| exact Hs].
    intros x Hx. now apply accounted_keeps.
  - constructor; [| constructor]. now apply accounted_annotated.
Qed.

Lemma tables_account_for_records_witness :
  Forall (accounted false
            (schema (appendStats false (mkStore [] noTables) [skillPower])))
         (modules (appendStats false (mkStore [] noTables) [skillPower])).
Proof.
  apply (tables_account_for_records false (mkStore [] noTables)
           [skillPower]).
  - constructor.
  - constructor; [| constructor]. repeat split.
Defined.

(* ===================================================================== *)
(** * Properties: trimming, cutting and splitting text                    *)
(* ===================================================================== *)

Lemma rev_acc_append (s acc : string) :
  Str.rev_acc s acc = Str.rev s ++ acc.
Proof.
  unfold Str.rev. revert acc.
  induction s as [|a s IH]; intros acc; simpl; [reflexivity |].
  rewrite IH, (IH (String a "")), append_assoc. reflexivity.
Qed.

Lemma rev_cons (a : ascii) (s : string) :
  Str.rev (String a s) = Str.rev s ++ String a "".
Proof. unfold Str.rev at 1. simpl. apply rev_acc_append. Qed.

Lemma rev_append (a b : string) :
  Str.rev (a ++ b) = Str.rev b ++ Str.rev a.
Proof.
  induction a as [|x a IH]; sapp.
  - now rewrite append_empty_r.
  - rewrite !rev_cons, IH, append_assoc. reflexivity.
Qed.

Lemma rev_involutive (s : string) : Str.rev (Str.rev s) = s.
Proof.
  induction s as [|a s IH]; [reflexivity |].
  rewrite rev_cons, rev_append, IH. reflexivity.
Qed.

Lemma all_append (p : ascii -> bool) (a b : string) :
  Str.all p (a ++ b) = Str.all p a && Str.all p b.
Proof.
  induction a as [|x a IH]; sapp; simpl; [reflexivity |].
  now rewrite IH, andb_assoc.
Qed.

Lemma all_rev (p : ascii -> bool) (s : string) :
  Str.all p (Str.rev s) = Str.all p s.
Proof.
  induction s as [|a s IH]; [reflexivity |].
  rewrite rev_cons, all_append, IH. simpl.
  rewrite andb_true_r. apply andb_comm.
Qed.

Lemma all_dropWhile (p q : ascii -> bool) (s : string) :
  Str.all p s = true -> Str.all p (Str.dropWhile q s) = true.
Proof.
  induction s as [|a s IH]; simpl; [reflexivity |].
  intros H. destruct (q a); [| exact H].
  apply andb_true_iff in H as [_ H]. now apply IH.
Qed.

Lemma all_trim (p : ascii -> bool) (s : string) :
  Str.all p s = true -> Str.all p (Str.trim s) = true.
Proof.
  intros H. unfold Str.trim. rewrite all_rev.
  apply all_dropWhile. rewrite all_rev. now apply all_dropWhile.
Qed.

Lemma all_drop (p : ascii -> bool) (n : nat) (s : string) :
  Str.all p s = true -> Str.all p (Words.drop n s) = true.
Proof.
  revert s. induction n as [|n IH]; intros s H; [now destruct s |].
  destruct s as [|a s]; [reflexivity |]. simpl in *.
  apply andb_true_iff in H as [_ H]. now apply IH.
Qed.

Lemma all_before (c : ascii) (s : string) :
  Str.all (notChar c) (Words.before c s) = true.
Proof.
  induction s as [|a s IH]; simpl; [reflexivity |].
  destruct (Ascii.eqb a c) eqn:E; [reflexivity |].
  simpl. unfold notChar at 1. now rewrite E, IH.
Qed.

Lemma before_all (c : ascii) (s : string) :
  Str.all (notChar c) s = true -> Words.before c s = s.
Proof.
  induction s as [|a s IH]; simpl; [reflexivity |].
  intros H. apply andb_true_iff in H as [Ha H]. unfold notChar in Ha.
  apply negb_true_iff in Ha. now rewrite Ha, IH.
Qed.

Lemma before_append (c : ascii) (a b : string) :
  Str.all (notChar c) a = true ->
  Words.before c (a ++ b) = a ++ Words.before c b.
Proof.
  induction a as [|x a IH]; sapp; simpl; [reflexivity |].
  intros H. apply andb_true_iff in H as [Hx H]. unfold notChar in Hx.
  apply negb_true_iff in Hx. now rewrite Hx, IH.
Qed.

Lemma before_cut (c : ascii) (a b : string) :
  Str.all (notChar c) a = false ->
  Words.before c (a ++ b) = Words.before c a.
Proof.
  induction a as [|x a IH]; sapp; simpl; [discriminate |].
  unfold notChar at 1. destruct (Ascii.eqb x c); simpl; [reflexivity |].
  intros H. now rewrite IH.
Qed.

Lemma all_space_not (c : ascii) (s : string) :
  Str.isSpace c = false -> Str.all Str.isSpace s = true ->
  Str.all (notChar c) s = true.
Proof.
  intros Hc. induction s as [|a s IH]; simpl; [reflexivity |].
  intros H. apply andb_true_iff in H as [Ha H]. rewrite (IH H).
  unfold notChar. destruct (Ascii.eqb_spec a c) as [-> | _];
    [congruence | reflexivity].
Qed.

Lemma dropWhile_all (lead s : string) :
  Str.all Str.isSpace lead = true ->
  Str.dropWhile Str.isSpace (lead ++ s) = Str.dropWhile Str.isSpace s.
Proof.
  induction lead as [|a lead IH]; sapp; simpl; [reflexivity |].
  intros H. apply andb_true_iff in H as [Ha H]. now rewrite Ha, IH.
Qed.

Lemma dropWhile_stop (s : string) :
  startsBlank s = false -> Str.dropWhile Str.isSpace s = s.
Proof. destruct s as [|a s]; simpl; [reflexivity | now intros ->]. Qed.

Lemma dropWhile_blank (s : string) :
  Str.all Str.isSpace s = true -> Str.dropWhile Str.isSpace s = "".
Proof.
  intros H. rewrite <- (append_empty_r s). now rewrite dropWhile_all.
Qed.

(** A text is blanks, then the text without its leading blanks. *)
Lemma dropWhile_split (s : string) :
  exists lead,
    Str.all Str.isSpace lead = true
    /\ s = lead ++ Str.dropWhile Str.isSpace s
    /\ startsBlank (Str.dropWhile Str.isSpace s) = false.
Proof.
  induction s as [|a s IH]; simpl.
  - now exists "".
  - destruct (Str.isSpace a) eqn:E.
    + destruct IH as (lead & H1 & H2 & H3).
      exists (String a lead). sapp. simpl. rewrite E, H1.
      repeat split; [now rewrite <- H2 | exact H3].
    + exists "". simpl. now rewrite E.
Qed.

Lemma startsBlank_append (a b : string) :
  a <> "" -> startsBlank (a ++ b) = startsBlank a.
Proof. destruct a; [congruence | reflexivity]. Qed.

Lemma tidy_parts (s : string) :
  tidy s = true <->
  startsBlank s = false /\ startsBlank (Str.rev s) = false.
Proof.
  unfold tidy. now rewrite andb_true_iff, !negb_true_iff.
Qed.

Lemma rev_empty (s : string) : Str.rev s = "" -> s = "".
Proof.
  intros H. rewrite <- (rev_involutive s), H. reflexivity.
Qed.

(** Blanks around a tidy text are what [trim] takes away. *)
Lemma trim_sandwich (lead core trail : string) :
  Str.all Str.isSpace lead = true -> Str.all Str.isSpace trail = true ->
  tidy core = true ->
  Str.trim (lead ++ core ++ trail) = core.
Proof.
  intros Hl Ht Hc. apply tidy_parts in Hc as [Hh He].
  unfold Str.trim. rewrite (dropWhile_all lead _ Hl).
  destruct core as [|a core].
  - sapp. rewrite (dropWhile_blank _ Ht). reflexivity.
  - rewrite (dropWhile_stop (String a core ++ trail)) by exact Hh.
    rewrite rev_append, dropWhile_all by now rewrite all_rev.
    rewrite (dropWhile_stop (Str.rev (String a core))) by exact He.
    apply rev_involutive.
Qed.

Lemma trim_tidy_id (s : string) : tidy s = true -> Str.trim s = s.
Proof.
  intros H. rewrite <- (append_empty_r s) at 1.
  now apply (trim_sandwich "" s "").
Qed.

(** Every text is blanks, its trimmed text, blanks. *)
Lemma trim_decompose (s : string) :
  exists lead trail,
    Str.all Str.isSpace lead = true /\ Str.all Str.isSpace trail = true
    /\ s = lead ++ Str.trim s ++ trail
    /\ tidy (Str.trim s) = true.
Proof.
  destruct (dropWhile_split s) as (lead & Hl & Hs & Hh).
  set (u := Str.dropWhile Str.isSpace s) in *.
  destruct (dropWhile_split (Str.rev u)) as (trail' & Ht & Hu & Hv).
  fold (Str.trim s) in *. unfold Str.trim. fold u.
  set (v := Str.dropWhile Str.isSpace (Str.rev u)) in *.
  assert (Hu' : u = Str.rev v ++ Str.rev trail').
  { rewrite <- (rev_involutive u), Hu, rev_append. reflexivity. }
  exists lead, (Str.rev trail').
  split; [exact Hl | split; [now rewrite all_rev | split]].
  - now rewrite <- Hu'.
  - apply tidy_parts. rewrite rev_involutive. split; [| exact Hv].
    destruct (Str.rev v) as [|a w] eqn:E; [reflexivity |].
    rewrite Hu' in Hh. rewrite startsBlank_append in Hh by discriminate.
    exact Hh.
Qed.

Lemma trim_is_tidy (s : string) : tidy (Str.trim s) = true.
Proof. now destruct (trim_decompose s) as (? & ? & _ & _ & _ & H). Qed.

Lemma trim_idem (s : string) : Str.trim (Str.trim s) = Str.trim s.
Proof. apply trim_tidy_id, trim_is_tidy. Qed.

Lemma trim_lead (lead s : string) :
  Str.all Str.isSpace lead = true -> Str.trim (lead ++ s) = Str.trim s.
Proof. intros H. unfold Str.trim. now rewrite dropWhile_all. Qed.

(** Cutting at a character that is not a blank and trimming: trimming
    first makes no difference. *)
Lemma trim_before_trim (c : ascii) (s : string) :
  Str.isSpace c = false ->
  Str.trim (Words.before c (Str.trim s)) = Str.trim (Words.before c s).
Proof.
  intros Hc.
  destruct (trim_decompose s) as (lead & trail & Hl & Ht & Hs & Htidy).
  rewrite Hs at 2.
  rewrite before_append by now apply all_space_not.
  rewrite trim_lead by assumption.
  destruct (Str.all (notChar c) (Str.trim s)) eqn:E.
  - rewrite before_append by assumption.
    rewrite (before_all c trail) by now apply all_space_not.
    rewrite before_all by assumption.
    rewrite trim_idem.
    symmetry. now apply (trim_sandwich "" (Str.trim s) trail).
  - now rewrite before_cut.
Qed.

(** X22.  Whatever the stat, [initializeUI] and [appendModules] work out
    the same attribute name from it, although one trims after cutting the
    sign off and the other does not. *)
Theorem both_paths_name_attributes_alike (stat : Stat) :
  attrNameInit stat = option_map fst (attrEntry stat).
Proof.
  unfold attrNameInit, attrEntry.
  destruct (Str.isEmpty (Str.trim (stat_raw stat))); [reflexivity |].
  destruct (splitStat (Str.trim (stat_raw stat))) as [label lastToken].
  cbn [fst].
  assert (H : Str.trim (Words.before "["
                (if signed label then Str.trim (Words.drop 3 label)
                 else label))
              = Str.trim (Words.before "["
                  (if signed label then Words.drop 3 label else label))).
  { destruct (signed label); [| reflexivity].
    now apply trim_before_trim. }
  rewrite H. now destruct (Str.isEmpty _).
Qed.

Lemma all_notSpace_start (s : string) :
  Str.all notSpace s = true -> startsBlank s = false.
Proof.
  destruct s as [|a s]; simpl; [reflexivity |].
  unfold notSpace at 1. intros H. apply andb_true_iff in H as [H _].
  now apply negb_true_iff.
Qed.

Lemma isWord_parts (w : string) :
  isWord w = true <-> w <> "" /\ Str.all notSpace w = true.
Proof.
  unfold isWord. rewrite andb_true_iff, negb_true_iff, isEmpty_false.
  tauto.
Qed.

Lemma word_tidy (w : string) : isWord w = true -> tidy w = true.
Proof.
  intros H. apply isWord_parts in H as [_ H]. apply tidy_parts. split.
  - now apply all_notSpace_start.
  - apply all_notSpace_start. now rewrite all_rev.
Qed.

Lemma splitFrom_word (w : string) :
  forall cur rest,
    Str.all notSpace w = true ->
    Words.splitFrom false cur (w ++ rest)
    = Words.splitFrom false (cur ++ w) rest.
Proof.
  induction w as [|a w IH]; intros cur rest H; sapp.
  - now rewrite append_empty_r.
  - simpl in H. apply andb_true_iff in H as [Ha H].
    unfold notSpace in Ha. apply negb_true_iff in Ha.
    cbn [Words.splitFrom]. rewrite Ha, IH by assumption.
    now rewrite append_assoc.
Qed.

Lemma splitFrom_after_blank (s : string) :
  startsBlank s = false -> s <> "" ->
  Words.splitFrom true "" s = Words.splitFrom false "" s.
Proof.
  destruct s as [|a s]; [congruence |]. simpl. now intros ->.
Qed.

Lemma join_cons2 (sep x y : string) (l : list string) :
  Words.join sep (x :: y :: l) = x ++ sep ++ Words.join sep (y :: l).
Proof. reflexivity. Qed.

Lemma join_snoc (sep x : string) (l : list string) :
  l <> [] ->
  Words.join sep (l ++ [x]) = Words.join sep l ++ sep ++ x.
Proof.
  induction l as [|a l IH]; [congruence |]. intros _.
  destruct l as [|b l]; [reflexivity |].
  change ((a :: b :: l) ++ [x])%list with (a :: b :: (l ++ [x]))%list.
  rewrite !join_cons2.
  change (b :: (l ++ [x]))%list with ((b :: l) ++ [x])%list.
  rewrite IH by discriminate. now rewrite !append_assoc.
Qed.

Lemma join_words (toks : list string) :
  toks <> [] -> Forall (fun w => isWord w = true) toks ->
  Words.join " " toks <> ""
  /\ tidy (Words.join " " toks) = true
  /\ Words.split (Words.join " " toks) = toks.
Proof.
  induction toks as [|x toks IH]; [congruence |]. intros _ H.
  inversion H as [|? ? Hx Htoks]; subst.
  pose proof (proj1 (isWord_parts x) Hx) as [Hne Hns].
  destruct toks as [|y toks].
  - split; [exact Hne | split; [now apply word_tidy |]].
    unfold Words.split. simpl Words.join.
    rewrite <- (append_empty_r x) at 1.
    now rewrite splitFrom_word.
  - destruct (IH ltac:(discriminate) Htoks) as (Hj & Ht & Hs).
    apply tidy_parts in Ht as [Hh He].
    rewrite join_cons2. split; [| split].
    + destruct x; [congruence | discriminate].
    + apply tidy_parts. split.
      * rewrite startsBlank_append by assumption.
        now apply all_notSpace_start.
      * rewrite !rev_append, append_assoc, startsBlank_append;
          [exact He |].
        intros Hr. apply rev_empty in Hr. now apply Hj.
    + unfold Words.split in *. rewrite splitFrom_word by assumption.
      sapp. cbn [Words.splitFrom]. change (Str.isSpace " ") with true.
      cbn iota. rewrite splitFrom_after_blank by assumption.
      now rewrite Hs.
Qed.

Lemma all_join (p : ascii -> bool) (toks : list string) :
  p " "%char = true -> Forall (fun w => Str.all p w = true) toks ->
  Str.all p (Words.join " " toks) = true.
Proof.
  intros Hp. induction toks as [|x toks IH]; intros H; [reflexivity |].
  inversion H as [|? ? Hx Htoks]; subst.
  destruct toks as [|y toks]; [exact Hx |].
  rewrite join_cons2, !all_append, Hx, (IH Htoks). simpl. now rewrite Hp.
Qed.

Lemma removelast_snoc {A : Type} (l : list A) (x : A) :
  removelast (l ++ [x]) = l.
Proof. apply removelast_last. Qed.

(** The line [words token], single-spaced: its label and last token. *)
Lemma splitStat_line (toks : list string) (token : string) :
  toks <> [] -> Forall (fun w => isWord w = true) toks ->
  isWord token = true ->
  let raw := Words.join " " toks ++ " " ++ token in
  Str.trim raw = raw /\ raw <> ""
  /\ splitStat raw = (Words.join " " toks, token).
Proof.
  intros Hne Htoks Htoken raw.
  assert (Hall : Forall (fun w => isWord w = true) (toks ++ [token])).
  { apply Forall_app. split; [exact Htoks | now constructor]. }
  assert (Hraw : raw = Words.join " " (toks ++ [token]))
    by (subst raw; now rewrite join_snoc).
  destruct (join_words (toks ++ [token])) as (H1 & H2 & H3);
    [now destruct toks | exact Hall |].
  rewrite <- Hraw in *.
  split; [now apply trim_tidy_id | split; [exact H1 |]].
  unfold splitStat. rewrite H3, removelast_snoc, last_snoc. reflexivity.
Qed.

(** X23.  The option lines of a trigger listing are read alike by the
    two sides: for an option whose label is single-spaced words and whose
    value is one word, the name under which the helper files the value of
    the stat ([triggerValues], [triggerAttrMap]) is the attribute name the
    parse pass put in [attributes], and the value filed is the first
    number in the option's value. *)
Theorem trigger_option_read_alike (words : list string) (value : string) :
  words <> [] -> Forall (fun w => isWord w = true) words ->
  isWord value = true ->
  let label := Words.join " " words in
  triggerEntry (triggerStat label value)
  = Some (triggerAttr label,
          match search (Grp 1 numberRe) value with
          | Some c => Num.parseFloat (group 1 c)
          | None => None
          end).
Proof.
  intros Hne Hwords Hvalue label.
  destruct (splitStat_line words value Hne Hwords Hvalue) as (H1 & H2 & H3).
  fold label in H1, H2, H3.
  unfold triggerEntry, triggerStat. cbn [stat_raw].
  rewrite H1, (proj2 (isEmpty_false _) H2), H3. reflexivity.
Qed.

Lemma trigger_option_read_alike_witness :
  triggerEntry (triggerStat (Words.join " " ["Firearm"; "ATK"; "(%)"])
                            "12.5%")
  = Some ("Firearm ATK", Some (Num.decimal "12" "5")).
Proof.
  exact (trigger_option_read_alike ["Firearm"; "ATK"; "(%)"] "12.5%"
           ltac:(discriminate)
           ltac:(repeat constructor) eq_refl).
Defined.

Lemma startsWith_before_blank (p : string) :
  forall l t,
    p <> "" -> Str.all notSpace p = true ->
    Str.startsWith p (l ++ String " " t) = Str.startsWith p l.
Proof.
  induction p as [|a p IH]; intros l t Hne Hp; [congruence |].
  simpl in Hp. apply andb_true_iff in Hp as [Ha Hp].
  destruct l as [|b l]; sapp; cbn [Str.startsWith].
  - destruct (Ascii.eqb_spec a " ") as [-> | _]; [discriminate | reflexivity].
  - destruct p as [|a' p]; [reflexivity |].
    now rewrite IH.
Qed.

Lemma signed_before_blank (l t : string) :
  signed (l ++ String " " t) = signed l.
Proof.
  unfold signed. now rewrite !startsWith_before_blank.
Qed.

Lemma drop_append (p : string) :
  forall l rest,
    Str.startsWith p l = true ->
    Words.drop (String.length p) (l ++ rest)
    = Words.drop (String.length p) l ++ rest.
Proof.
  induction p as [|a p IH]; intros l rest H.
  - simpl. now destruct l, rest.
  - destruct l as [|b l]; [discriminate |]. simpl in H.
    apply andb_true_iff in H as [_ H]. sapp. simpl. now apply IH.
Qed.

Lemma signed_drop (l rest : string) :
  signed l = true -> Words.drop 3 (l ++ rest) = Words.drop 3 l ++ rest.
Proof.
  unfold signed. intros H. apply orb_true_iff in H as [H | H].
  - exact (drop_append "(+)" l rest H).
  - exact (drop_append "(-)" l rest H).
Qed.

(** A text with no bracket in it, a blank, and a token that opens with a
    bracket: cut at the bracket and trimmed, what is left is the text
    trimmed. *)
Lemma trim_before_token (d t : string) :
  Str.all (notChar "[") d = true -> isWord (String "[" t) = true ->
  Str.trim (Words.before "[" (Str.trim (d ++ " " ++ String "[" t)))
  = Str.trim d.
Proof.
  intros Hd Ht. pose proof (word_tidy _ Ht) as Htidy.
  destruct (trim_decompose d) as (lead & trail & Hl & Htr & Hs & Hc).
  set (core := Str.trim d) in *.
  assert (Hblank : Str.all Str.isSpace (trail ++ " ") = true)
    by (rewrite all_append, Htr; reflexivity).
  destruct core as [|a core'] eqn:Ecore.
  - assert (Hd' : d ++ " " ++ String "[" t
                  = (lead ++ trail ++ " ") ++ String "[" t ++ "").
    { rewrite Hs at 1. rewrite append_empty_r, !append_assoc. reflexivity. }
    rewrite Hd', trim_sandwich; [reflexivity | | reflexivity | exact Htidy].
    rewrite all_append, Hl. exact Hblank.
  - assert (Hd' : d ++ " " ++ String "[" t
                  = lead ++ (String a core' ++ (trail ++ " ")
                             ++ String "[" t) ++ "").
    { rewrite Hs at 1. rewrite append_empty_r, !append_assoc. reflexivity. }
    assert (Hfree : Str.all (notChar "[") (String a core' ++ trail ++ " ")
                    = true).
    { rewrite !all_append. rewrite Hs, !all_append in Hd.
      apply andb_true_iff in Hd as [_ Hd].
      apply andb_true_iff in Hd as [Hd1 Hd2]. now rewrite Hd1, Hd2. }
    rewrite Hd', trim_sandwich; [| exact Hl | reflexivity |].
    + rewrite <- append_assoc, before_append by exact Hfree.
      simpl Words.before. rewrite append_empty_r.
      now apply (trim_sandwich "" (String a core') (trail ++ " ")).
    + apply tidy_parts in Hc as [Hh _]. apply tidy_parts in Htidy as [_ He].
      apply tidy_parts. split; [exact Hh |].
      rewrite <- !append_assoc, rev_append, startsBlank_append; [exact He |].
      rewrite rev_cons. now destruct (Str.rev t).
Qed.

(** X24.  The option lines of an ancestor listing are read alike by the
    two sides: for a line made of single-spaced words without a bracket,
    sign marker included, followed by a range token that opens with a
    bracket, the name under which the helper files the value of the stat
    ([attrValues], [attrRangeMap]) is the attribute name the parse pass put
    in [attributes]; a line that leaves no name is skipped by both. *)
Theorem ancestor_option_read_alike (toks : list string)
        (token value : string) :
  toks <> [] -> Forall (fun w => isWord w = true) toks ->
  Forall (fun w => Str.all (notChar "[") w = true) toks ->
  isWord token = true -> Str.startsWith "[" token = true ->
  let raw := Words.join " " toks ++ " " ++ token in
  attrEntry (ancestorStat raw value)
  = if Str.isEmpty (ancestorAttr raw) then None
    else Some (ancestorAttr raw, statAverage value token).
Proof.
  intros Hne Hwords Hfree Htoken Hopen raw.
  destruct (splitStat_line toks token Hne Hwords Htoken) as (H1 & H2 & H3).
  fold raw in H1, H2, H3.
  set (l := Words.join " " toks) in *.
  assert (Hl : Str.all (notChar "[") l = true) by now apply all_join.
  destruct (join_words toks Hne Hwords) as (Hlne & Hltidy & _).
  fold l in Hlne, Hltidy.
  destruct token as [|b t]; [discriminate |].
  cbn [Str.startsWith] in Hopen. apply andb_true_iff in Hopen as [Hb _].
  apply Ascii.eqb_eq in Hb. subst b.
  assert (Hname : Str.trim (Words.before "["
                    (if signed l then Str.trim (Words.drop 3 l) else l))
                  = ancestorAttr raw).
  { unfold ancestorAttr. subst raw. sapp.
    rewrite signed_before_blank. destruct (signed l) eqn:Es.
    - rewrite signed_drop by assumption.
      rewrite before_all by now apply all_trim, all_drop.
      rewrite trim_idem. symmetry.
      apply (trim_before_token (Words.drop 3 l) t);
        [now apply all_drop | exact Htoken].
    - rewrite before_all by assumption.
      replace (l ++ String " " (String "[" t))
        with ((l ++ " ") ++ String "[" t)
        by (rewrite append_assoc; reflexivity).
      rewrite before_append
        by (rewrite all_append, Hl; reflexivity).
      simpl Words.before. rewrite append_empty_r.
      rewrite (trim_tidy_id l Hltidy). symmetry.
      now apply (trim_sandwich "" l " "). }
  unfold attrEntry, ancestorStat. cbn [stat_raw stat_value].
  rewrite H1, (proj2 (isEmpty_false _) H2), H3, Hname. reflexivity.
Qed.

Lemma ancestor_option_read_alike_witness :
  attrEntry (ancestorStat
               (Words.join " " ["(+)"; "Skill"; "Power"]
                ++ " " ++ "[37.2~140.3]%") "88.5%")
  = Some ("Skill Power", statAverage "88.5%" "[37.2~140.3]%").
Proof.
  exact (ancestor_option_read_alike ["(+)"; "Skill"; "Power"]
           "[37.2~140.3]%" "88.5%" ltac:(discriminate)
           ltac:(repeat constructor) ltac:(repeat constructor)
           eq_refl eq_refl).
Defined.

(* ===================================================================== *)
(** * Properties: the option lines as the parse pass reads them           *)
(* ===================================================================== *)

Lemma includes_In (x : string) (l : list string) :
  includes x l = true <-> In x l.
Proof.
  unfold includes. rewrite existsb_exists. split.
  - intros [y [Hin He]]. apply String.eqb_eq in He. now subst.
  - intros H. exists x. split; [exact H | apply String.eqb_refl].
Qed.

Lemma listed_push (names attrs : list string) (n : string) :
  listed names attrs ->
  listed (names ++ [n])
         (if negb (Str.isEmpty n) && negb (includes n attrs)
          then attrs ++ [n] else attrs)%list.
Proof.
  intros [Hnd Hin]. unfold listed.
  destruct (Str.isEmpty n) eqn:Ee; cbn [negb andb].
  - split; [exact Hnd |]. intros a. rewrite Hin, in_app_iff. simpl.
    destruct n; [| discriminate]. intuition congruence.
  - apply isEmpty_false in Ee.
    destruct (includes n attrs) eqn:Ei; cbn [negb].
    + apply includes_In in Ei. split; [exact Hnd |].
      intros a. rewrite Hin, in_app_iff. simpl. split; [tauto |].
      intros (Ha & [H | [<- | []]]); [tauto |]. now apply Hin.
    + assert (Hnew : ~ In n attrs).
      { intros H. apply includes_In in H. congruence. }
      split; [now apply NoDup_snoc |].
      intros a. rewrite !in_app_iff, Hin. simpl. split.
      * intros [[Ha H] | [<- | []]]; tauto.
      * intros (Ha & [H | [<- | []]]); tauto.
Qed.

Lemma ancestorOptions_fold (opts : list OptionEl) :
  forall acc,
    listed (map (fun st => ancestorAttr (stat_raw st)) (snd acc)) (fst acc) ->
    let out := fold_left ancestorOption opts acc in
    listed (map (fun st => ancestorAttr (stat_raw st)) (snd out)) (fst out)
    /\ snd out
       = (snd acc
          ++ flat_map (fun opt =>
                         match optionName opt with
                         | Some text =>
                             [ancestorStat (Str.trim text) (valueOf opt)]
                         | None => []
                         end) opts)%list.
Proof.
  induction opts as [|opt opts IH]; intros acc Hacc.
  - simpl. split; [exact Hacc | now rewrite app_nil_r].
  - cbn [fold_left flat_map].
    assert (Hstep :
      listed (map (fun st => ancestorAttr (stat_raw st))
                (snd (ancestorOption acc opt)))
             (fst (ancestorOption acc opt))
      /\ snd (ancestorOption acc opt)
         = (snd acc
            ++ match optionName opt with
               | Some text => [ancestorStat (Str.trim text) (valueOf opt)]
               | None => []
               end)%list).
    { unfold ancestorOption, valueOf.
      destruct (optionName opt) as [text |];
        [| split; [exact Hacc | now rewrite app_nil_r]].
      cbn [fst snd]. split; [| reflexivity].
      rewrite map_app. cbn [map ancestorStat stat_raw].
      now apply listed_push. }
    destruct Hstep as [H1 H2].
    destruct (IH _ H1) as [H3 H4]. split; [exact H3 |].
    rewrite H4, H2, <- app_assoc. reflexivity.
Qed.

Lemma triggerOptions_fold (opts : list OptionEl) :
  forall acc names,
    listed names (fst acc) ->
    let out := fold_left triggerOption opts acc in
    listed (names ++ map (fun opt => triggerAttr (labelOf opt)) opts)
           (fst out)
    /\ snd out
       = (snd acc
          ++ map (fun opt => triggerStat (labelOf opt) (valueOf opt))
                 opts)%list.
Proof.
  induction opts as [|opt opts IH]; intros acc names Hacc.
  - simpl. rewrite !app_nil_r. now split.
  - cbn [fold_left map].
    destruct (IH (triggerOption acc opt)
                 (names ++ [triggerAttr (labelOf opt)])%list) as [H1 H2].
    { unfold triggerOption. cbn [fst]. now apply listed_push. }
    split.
    + now rewrite <- app_assoc in H1.
    + rewrite H2. unfold triggerOption at 1. cbn [snd].
      now rewrite <- app_assoc.
Qed.

Lemma signs_exclude (raw : string) :
  Str.startsWith "(+)" raw && Str.startsWith "(-)" raw = false.
Proof.
  destruct raw as [|a [|b raw]]; try reflexivity.
  - cbn [Str.startsWith]. now rewrite andb_false_r.
  - cbn [Str.startsWith].
    destruct (Ascii.eqb_spec "+" b) as [<- | _];
      [now rewrite !andb_false_r | now rewrite andb_false_r].
Qed.

Lemma tidy_valueOf (opt : OptionEl) : tidy (valueOf opt) = true.
Proof.
  unfold valueOf. destruct (optionValue opt); [apply trim_is_tidy |].
  reflexivity.
Qed.

(** X25.  What [parseAncestor] makes of the option lines of a listing,
    whatever they are.  [stats] is, in the order of the options, the stat
    of each option that has a name element and nothing else: its [raw] is
    the trimmed text of the name, its [value] the trimmed text of the value
    element (empty without one), its flags say whether [raw] starts with
    "(+)" or with "(-)".  So no stat is flagged both ways, its text and
    value are trimmed, and there are as many stats as named options.
    [attributes] lists, each once, exactly the names of these stats that
    are not empty, each name trimmed and free of an opening bracket. *)
Theorem ancestor_options_listed (opts : list OptionEl) :
  let attrs := fst (ancestorOptions opts) in
  let sts := snd (ancestorOptions opts) in
  List.NoDup attrs
  /\ (forall a, In a attrs <->
                a <> "" /\ exists st, In st sts /\ ancestorAttr (stat_raw st) = a)
  /\ Forall (fun a => tidy a = true /\ Str.all (notChar "[") a = true) attrs
  /\ sts = flat_map (fun opt =>
                       match optionName opt with
                       | Some text =>
                           [ {| stat_raw := Str.trim text;
                                stat_positive :=
                                  Str.startsWith "(+)" (Str.trim text);
                                stat_negative :=
                                  Str.startsWith "(-)" (Str.trim text);
                                stat_value :=
                                  match optionValue opt with
                                  | Some v => Str.trim v
                                  | None => ""
                                  end |} ]
                       | None => []
                       end) opts
  /\ Forall (fun st => stat_positive st && stat_negative st = false
                       /\ tidy (stat_raw st) = true
                       /\ tidy (stat_value st) = true) sts
  /\ List.length sts
     = List.length (List.filter (fun opt => isSet (optionName opt)) opts).
Proof.
  intros attrs sts.
  destruct (ancestorOptions_fold opts ([], [])) as [[Hnd Hin] Hsts].
  { split; [constructor |]. intros a. simpl. tauto. }
  fold (ancestorOptions opts) in Hnd, Hin, Hsts. fold attrs in Hnd, Hin.
  fold sts in Hin, Hsts. cbn [snd app] in Hsts.
  split; [exact Hnd | split; [| split; [| split; [exact Hsts | split]]]].
  - intros a. rewrite Hin, in_map_iff. split.
    + intros (Ha & st & Hn & Hst). split; [exact Ha |]. now exists st.
    + intros (Ha & st & Hst & Hn). split; [exact Ha |]. now exists st.
  - apply List.Forall_forall. intros a Ha.
    apply Hin in Ha as (_ & Ha). apply in_map_iff in Ha as (st & <- & _).
    unfold ancestorAttr. split; [apply trim_is_tidy |].
    apply all_trim, all_before.
  - rewrite Hsts. apply List.Forall_forall. intros st Hst.
    apply in_flat_map in Hst as (opt & _ & Hst).
    destruct (optionName opt) as [text |]; [| destruct Hst].
    destruct Hst as [<- | []]. cbn [ancestorStat stat_positive stat_negative
                                    stat_raw stat_value].
    split; [apply signs_exclude |].
    split; [apply trim_is_tidy | apply tidy_valueOf].
  - rewrite Hsts. clear. induction opts as [|opt opts IH]; [reflexivity |].
    cbn [flat_map List.filter].
    destruct (optionName opt); cbn [isSet]; [| exact IH].
    cbn [app List.length]. now rewrite IH.
Qed.

(** X26.  What [parseTrigger] makes of the option lines of a listing,
    whatever they are: one stat for each option, in order, its line being
    the trimmed label, a blank and the trimmed value, never flagged; and
    [attributes] lists, each once, exactly the labels cut at the first
    parenthesis and trimmed that are not empty. *)
Theorem trigger_options_listed (opts : list OptionEl) :
  let attrs := fst (triggerOptions opts) in
  let sts := snd (triggerOptions opts) in
  List.NoDup attrs
  /\ (forall a, In a attrs <->
                a <> "" /\ exists opt, In opt opts
                                      /\ triggerAttr (labelOf opt) = a)
  /\ Forall (fun a => tidy a = true /\ Str.all (notChar "(") a = true) attrs
  /\ sts = map (fun opt => triggerStat (labelOf opt) (valueOf opt)) opts.
Proof.
  intros attrs sts.
  destruct (triggerOptions_fold opts ([], []) []) as [[Hnd Hin] Hsts].
  { split; [constructor |]. intros a. simpl. tauto. }
  fold (triggerOptions opts) in Hnd, Hin, Hsts. fold attrs in Hnd, Hin.
  fold sts in Hsts. cbn [snd app] in Hsts, Hin.
  assert (Hin' : forall a, In a attrs <->
                   a <> "" /\ exists opt, In opt opts
                                         /\ triggerAttr (labelOf opt) = a).
  { intros a. rewrite Hin, in_map_iff. split.
    - intros (Ha & opt & Hn & Hopt). split; [exact Ha |]. now exists opt.
    - intros (Ha & opt & Hopt & Hn). split; [exact Ha |]. now exists opt. }
  split; [exact Hnd | split; [exact Hin' | split; [| exact Hsts]]].
  apply List.Forall_forall. intros a Ha.
  apply Hin' in Ha as (_ & opt & _ & <-).
  unfold triggerAttr. split; [apply trim_is_tidy |].
  apply all_trim, all_before.
Qed.

(* ===================================================================== *)
(** * Properties: the value read from a stat                              *)
(* ===================================================================== *)

Lemma run_Plus_cons {R : Type} p a s c (K : string -> captures -> option R) :
  run (Plus p) (String a s) c K = if p a then star p s c K else None.
Proof. reflexivity. Qed.

(** [numberRe] without a group around it. *)
Lemma run_numberRe {R : Type} s c (K : string -> captures -> option R) :
  run numberRe s c K
  = run (Grp 1 numberRe) s c (fun s' c' => K s' (List.tl c')).
Proof. reflexivity. Qed.

Lemma digit_not_minus (a : ascii) :
  Str.isDigit a = true -> Ascii.eqb "-" a = false.
Proof.
  intros H. destruct (Ascii.eqb_spec "-" a) as [<- | _];
    [discriminate | reflexivity].
Qed.

Lemma numeral_head (ip fp rest : string) :
  ip <> "" -> Str.all Str.isDigit ip = true ->
  exists a s, numeral ip fp ++ rest = String a s /\ Str.isDigit a = true.
Proof.
  intros Hne Hd. destruct ip as [|a ip]; [congruence |].
  simpl in Hd. apply andb_true_iff in Hd as [Ha _].
  unfold numeral. destruct (Str.isEmpty fp); sapp; eauto.
Qed.

(** The signed-number pattern on a numeral followed by text that does
    not go on with a digit or a dot. *)
Lemma run_signed_numeral {R : Type} ip fp rest c
      (K : string -> captures -> option R) y :
  ip <> "" -> Str.all Str.isDigit ip = true ->
  Str.all Str.isDigit fp = true ->
  headIs Str.isDigit rest = false ->
  headIs (Ascii.eqb ".") rest = false ->
  K rest ((0%nat, numeral ip fp) :: c) = Some y ->
  run (Grp 0 signedNumberRe) (numeral ip fp ++ rest) c K = Some y.
Proof.
  intros Hne Hd Hf Hr Hdot HK.
  rewrite run_Grp. unfold signedNumberRe. rewrite run_Seq, run_Opt, run_Lit.
  destruct (numeral_head ip fp rest Hne Hd) as (a & s & Hs & Ha).
  assert (Hstrip : Str.stripPrefix "-" (numeral ip fp ++ rest) = None).
  { rewrite Hs. cbn [Str.stripPrefix]. now rewrite (digit_not_minus a Ha). }
  rewrite Hstrip, run_numberRe.
  unfold numeral in *. destruct fp as [|b fp]; cbn [Str.isEmpty] in *.
  - apply run_number_int; try assumption.
    cbn [List.tl]. now rewrite take_append.
  - rewrite !append_assoc. apply run_number_frac; try assumption;
      [discriminate |].
    cbn [List.tl].
    replace (ip ++ "." ++ String b fp ++ rest)
      with ((ip ++ "." ++ String b fp) ++ rest)
      by now rewrite !append_assoc.
    now rewrite take_append.
Qed.

(** The pattern does not match at a character that is neither a digit nor
    a minus sign, nor in a text without digits. *)
Lemma run_signed_fail {R : Type} a s c
      (K : string -> captures -> option R) :
  Str.isDigit a = false -> Ascii.eqb "-" a = false ->
  run (Grp 0 signedNumberRe) (String a s) c K = None.
Proof.
  intros Hd Hm. rewrite run_Grp. unfold signedNumberRe, numberRe.
  rewrite run_Seq, run_Opt, run_Lit. cbn [Str.stripPrefix]. rewrite Hm.
  rewrite run_Seq, run_Plus_cons, Hd. reflexivity.
Qed.

Lemma run_signed_nodigit {R : Type} s c
      (K : string -> captures -> option R) :
  Str.all (fun a => negb (Str.isDigit a)) s = true ->
  run (Grp 0 signedNumberRe) s c K = None.
Proof.
  intros H. destruct s as [|a s].
  - reflexivity.
  - simpl in H. apply andb_true_iff in H as [Ha H].
    apply negb_true_iff in Ha.
    destruct (Ascii.eqb "-" a) eqn:Em; [| now apply run_signed_fail].
    rewrite run_Grp. unfold signedNumberRe, numberRe.
    rewrite run_Seq, run_Opt, run_Lit. cbn [Str.stripPrefix]. rewrite Em.
    rewrite !run_Seq, run_Plus_cons, Ha.
    destruct s as [|b s]; [reflexivity |].
    simpl in H. apply andb_true_iff in H as [Hb _].
    apply negb_true_iff in Hb. now rewrite run_Plus_cons, Hb.
Qed.

Lemma searchRest_here r s x :
  run r s [] (fun s' c => Some (c, s')) = Some x -> searchRest r s = Some x.
Proof. intros H. destruct s; simpl; now rewrite H. Qed.

Lemma searchRest_skip r a s :
  run r (String a s) [] (fun s' c => Some (c, s')) = None ->
  searchRest r (String a s) = searchRest r s.
Proof. intros H. cbn [searchRest]. now rewrite H. Qed.

Lemma searchRest_nodigit (s : string) :
  Str.all (fun a => negb (Str.isDigit a)) s = true ->
  searchRest (Grp 0 signedNumberRe) s = None.
Proof.
  induction s as [|a s IH]; intros H.
  - reflexivity.
  - rewrite searchRest_skip by now apply run_signed_nodigit.
    simpl in H. apply andb_true_iff in H as [_ H]. now apply IH.
Qed.

Lemma parseFloatSigned_numeral (ip fp : string) :
  ip <> "" -> Str.all Str.isDigit ip = true ->
  Str.all Str.isDigit fp = true ->
  parseFloatSigned (numeral ip fp) = Some (Num.decimal ip fp).
Proof.
  intros Hne Hd Hf.
  rewrite <- (parseFloat_numeral ip fp Hne Hd Hf).
  destruct (numeral_head ip fp "" Hne Hd) as (a & s & Hs & Ha).
  rewrite append_empty_r in Hs. rewrite Hs. unfold parseFloatSigned.
  destruct (Ascii.eqb_spec "-" a) as [<- | Hm]; [discriminate |].
  destruct a as [[] [] [] [] [] [] [] []]; try reflexivity.
  now destruct Hm.
Qed.

(** The first number of a text that opens with a numeral. *)
Lemma firstNumber_numeral (ip fp rest : string) :
  ip <> "" -> Str.all Str.isDigit ip = true ->
  Str.all Str.isDigit fp = true ->
  headIs Str.isDigit rest = false ->
  headIs (Ascii.eqb ".") rest = false ->
  firstNumber (numeral ip fp ++ rest) = Some (Num.decimal ip fp).
Proof.
  intros Hne Hd Hf Hr Hdot. unfold firstNumber.
  rewrite (search_here _ _ [(0%nat, numeral ip fp)]).
  - cbn [group Nat.eqb]. now apply parseFloatSigned_numeral.
  - now apply run_signed_numeral.
Qed.

(** The numbers of a range token [[A~B]...]. *)
Lemma matchAll_range (ip1 fp1 ip2 fp2 tail : string) :
  ip1 <> "" -> Str.all Str.isDigit ip1 = true ->
  Str.all Str.isDigit fp1 = true ->
  ip2 <> "" -> Str.all Str.isDigit ip2 = true ->
  Str.all Str.isDigit fp2 = true ->
  Str.all (fun a => negb (Str.isDigit a)) tail = true ->
  matchAll signedNumberRe
    ("[" ++ numeral ip1 fp1 ++ "~" ++ numeral ip2 fp2 ++ "]" ++ tail)
  = [numeral ip1 fp1; numeral ip2 fp2].
Proof.
  intros Hn1 Hd1 Hf1 Hn2 Hd2 Hf2 Htail. unfold matchAll.
  set (s := "[" ++ numeral ip1 fp1 ++ "~" ++ numeral ip2 fp2 ++ "]" ++ tail).
  assert (Hlen : exists k, S (String.length s) = S (S (S k))).
  { subst s. rewrite !length_append. simpl String.length.
    pose proof (numeral_nonempty ip1 fp1 Hn1) as H1.
    destruct (numeral ip1 fp1); [congruence |]. simpl.
    eexists. reflexivity. }
  destruct Hlen as [k ->]. subst s.
  cbn [matchAllFrom].
  sapp. rewrite searchRest_skip by now apply run_signed_fail.
  rewrite (searchRest_here _ _
             ([(0%nat, numeral ip1 fp1)],
              "~" ++ numeral ip2 fp2 ++ "]" ++ tail))
    by now apply run_signed_numeral.
  cbn [group Nat.eqb].
  sapp. rewrite searchRest_skip by now apply run_signed_fail.
  rewrite (searchRest_here _ _
             ([(0%nat, numeral ip2 fp2)], "]" ++ tail))
    by now apply run_signed_numeral.
  cbn [group Nat.eqb]. f_equal. f_equal.
  rewrite searchRest_nodigit; [reflexivity |].
  sapp. simpl. exact Htail.
Qed.

(** X27.  The value filed for a stat whose value text opens with a
    numeral N that is not followed by a digit or a dot (["88.5%"]) is N,
    whatever the range token of the line says. *)
Theorem stat_value_from_value_text (ip fp rest lastToken : string) :
  ip <> "" -> Str.all Str.isDigit ip = true ->
  Str.all Str.isDigit fp = true ->
  headIs Str.isDigit rest = false -> headIs (Ascii.eqb ".") rest = false ->
  tidy (numeral ip fp ++ rest) = true ->
  statAverage (numeral ip fp ++ rest) lastToken = Some (Num.decimal ip fp).
Proof.
  intros Hne Hd Hf Hr Hdot Htidy.
  unfold statAverage. rewrite (trim_tidy_id _ Htidy).
  rewrite (isEmpty_append_l _ rest (numeral_nonempty ip fp Hne)).
  cbn [negb andb].
  rewrite (isEmpty_append_l _ rest (numeral_nonempty ip fp Hne)).
  now rewrite firstNumber_numeral.
Qed.

Lemma stat_value_from_value_text_witness :
  statAverage (numeral "88" "5" ++ "%") "[37.2~140.3]%"
  = Some (Num.decimal "88" "5").
Proof.
  exact (stat_value_from_value_text "88" "5" "%" "[37.2~140.3]%"
           ltac:(discriminate) eq_refl eq_refl eq_refl eq_refl eq_refl).
Defined.

(** X28.  The value filed for a stat whose value text is blank and whose
    line ends with a range token [[A~B]] followed by text without digits
    is the midpoint (A + B) / 2. *)
Theorem stat_value_from_range_token (blank ip1 fp1 ip2 fp2 tail : string) :
  Str.all Str.isSpace blank = true ->
  ip1 <> "" -> Str.all Str.isDigit ip1 = true ->
  Str.all Str.isDigit fp1 = true ->
  ip2 <> "" -> Str.all Str.isDigit ip2 = true ->
  Str.all Str.isDigit fp2 = true ->
  Str.all (fun a => negb (Str.isDigit a)) tail = true ->
  exists q,
    statAverage blank
      ("[" ++ numeral ip1 fp1 ++ "~" ++ numeral ip2 fp2 ++ "]" ++ tail)
    = Some q
    /\ (q == (Num.decimal ip1 fp1 + Num.decimal ip2 fp2) / 2)%Q.
Proof.
  intros Hblank Hn1 Hd1 Hf1 Hn2 Hd2 Hf2 Htail.
  assert (Hval : (if negb (Str.isEmpty blank)
                     && negb (Str.isEmpty (Str.trim blank))
                  then Str.trim blank else "") = "").
  { assert (Str.trim blank = "") as ->.
    { rewrite <- (append_empty_r blank).
      now apply (trim_sandwich blank "" ""). }
    now destruct (Str.isEmpty blank). }
  unfold statAverage. rewrite Hval. cbn [Str.isEmpty].
  unfold average. rewrite matchAll_range by assumption.
  eexists. split; [reflexivity |].
  unfold sumOf. cbn [fold_left List.length].
  rewrite !parseFloatSigned_numeral by assumption.
  change (inject_Z (Z.of_nat 2)) with 2%Q. field.
Qed.

Lemma stat_value_from_range_token_witness :
  exists q,
    statAverage ""
      ("[" ++ numeral "37" "2" ++ "~" ++ numeral "140" "3" ++ "]" ++ "%")
    = Some q
    /\ (q == (Num.decimal "37" "2" + Num.decimal "140" "3") / 2)%Q.
Proof.
  exact (stat_value_from_range_token "" "37" "2" "140" "3" "%"
           eq_refl ltac:(discriminate) eq_refl eq_refl
           ltac:(discriminate) eq_refl eq_refl eq_refl).
Defined.

(* ===================================================================== *)
(** * Properties: ages are not negative                                   *)
(* ===================================================================== *)

Lemma decimal_nonneg (ip fp : string) : (0 <= Num.decimal ip fp)%Q.
Proof. unfold Num.decimal, Qle. simpl. lia. Qed.

Lemma parseFloat_nonneg (s : string) (q : Q) :
  Num.parseFloat s = Some q -> (0 <= q)%Q.
Proof.
  unfold Num.parseFloat. destruct (Num.span Str.isDigit s) as [ip r].
  destruct (Str.isEmpty ip && _); [discriminate |].
  intros [= <-]. apply decimal_nonneg.
Qed.

(** X29.  Neither age parser ever returns a negative age: whatever the
    text, an age in days or in hours, when there is one, is zero or
    more. *)
Theorem ages_are_not_negative (str : string) :
  match parseAgeToDays str with Some d => (0 <= d)%Q | None => True end
  /\ match parseAgeToHours str with Some h => (0 <= h)%Q | None => True end.
Proof.
  unfold parseAgeToDays, parseAgeToHours.
  destruct (Str.isEmpty str); [now split |].
  destruct (search ageRe (Str.toLowerCase str)) as [m |]; [| now split].
  destruct (Num.parseFloat (group 1 m)) as [val |] eqn:E; [| now split].
  apply parseFloat_nonneg in E.
  assert (H24 : (0 <= val * 24)%Q).
  { apply Qmult_le_0_compat; [exact E | discriminate]. }
  assert (Hd24 : (0 <= val / 24)%Q).
  { apply Qle_shift_div_l; [reflexivity |]. now rewrite Qmult_0_l. }
  split.
  - destruct (Str.startsWith "day" _); [exact E |].
    now destruct (Str.startsWith "hour" _).
  - destruct (Str.startsWith "hour" _); [exact E |].
    now destruct (Str.startsWith "day" _).
Qed.
